(* ===== verification/_CoqProject ===== *)
-Q . S2P
Prelude.v
JsString.v
FileSystem.v
UniqueName.v
MediaBackup.v
BackupSpec.v
ImageEnums.v
ImageRecords.v
ImageApi.v
SampleUtils.v
CameraService.v
SampleMedia.v
MediaFiles.v
AppLifecycle.v
CameraAsync.v
