(* ===== verification/Prelude.v ===== *)
(** * A verification development for image_framework

    ** The program

    The repository has three parts with behaviour.

    - The image API typings
      [src/interfaces/kits/js/@ohos.multimedia.image.d.ts]: six enums
      (PixelMapFormat, PropertyKey, ImageFormat, AlphaType, ScaleMode,
      ComponentType), ten data interfaces (Size, Region, PositionArea,
      ImageInfo, PackingOption, GetImagePropertyOptions, DecodingOptions,
      Component, InitializationOptions, SourceOptions), six object
      interfaces (PixelMap, ImageSource, ImagePacker, Image, ImageReceiver,
      ImageCreator) and the factory functions of the [image] namespace.
      There is no code behind the signatures; the native implementation is
      not in the repository.
    - The media-library backup extension
      [src/frameworks/innerkitsimpl/medialibrary_data_extension/MediaLibraryExt/
       entry/src/main/ets/MediaBackupExtensionAbility/MediaBackupExtensionAbility.ts].
      [onRestore] asks the native [mediabackup] service to restore.
      [moveRestFiles] then moves the rest of the restored tree into the
      Documents directory with one [fs.moveDir].  When that move reports
      conflicts (error 13900015, list in [err.data]), each conflict goes
      through [moveConflictFile].  It probes [name], [name(1).ext],
      [name(2).ext], ... in the destination directory with [isFileExist],
      which reads an [accessSync] exception as [false], and moves the file
      to the first free name.  Every per-file error is logged and
      swallowed.
    - The receiver sample app under [src/test/ets/stage/receiver], compiled
      to webpack bundles.  Its [CameraPage.js] holds [CameraService], a
      client of [ImageReceiver] and of the camera kit, together with
      [MediaUtils], [DateTimeUtil], the [Logger] and the page driving it.
      The constructor creates an [ImageReceiver] and subscribes to its
      arrivals.  [initCamera] binds the camera's photo output to the
      receiver's surface.  Each arrived image is read, its JPEG component
      is saved to a new media asset named from the clock, and the image is
      released.

    ** The development (files in dependency order)

    - [Prelude] (this file) holds the shared infrastructure:
      - the effect monad [M S E A] for async TS code with its [await]s
        sequentialised: state passing with exceptions, where effects
        before a throw persist;
      - its notation in [js_scope], [try_catch] and [for_each];
      - [no_throw] and [preserves], with the combinators that decompose
        them along a program;
      - the console model, the hint database [js] and the shared list and
        range lemmas.
    - [JsString] models the JavaScript string and array builtins the code
      calls ([split], [join], [lastIndexOf], [slice], [pop], decimal
      rendering).  Lemmas: their round trips and the injectivity of the
      decimal rendering.
    - [FileSystem] states the contract of [@ohos.file.fs] as the type class
      [FsOps] with laws [FsLaws].  It is platform code: every theorem about
      the extension is proved against the laws only.  An executable
      instance on a [gset] of paths serves the witnesses.
    - [UniqueName] models the name logic of [moveConflictFile] (lines
      74-96): the split on the last dot, the candidates and the probing
      loop [probeLoop], over an abstract prober.
    - [MediaBackup] models the ability: [isFileExist], [moveConflictFile],
      [moveConflictFiles], [moveRestFiles], [onRestore] and [onBackup],
      over a world of file-system state and console.
    - [BackupSpec] states what the conflict loop promises on the paths and
      the console, as the relation [resolvesAll], and proves that the code
      refines it.  It also bounds the loop's counter.
    - [ImageEnums] has one Module per enum: an inductive type with the
      source's members, its [value], decidable equality, [Finite], and the
      reverse mapping [ofValue] of the compiled enum object.
    - [ImageRecords] has one Module per data interface: a Record with
      optional members as [option], and the documented constraints as
      functions.
    - [ImageApi] has one type class per object interface and one for the
      factories, with one operation per member; the promise and callback
      overloads are one operation.  [ImageReceiverLaws] is the receiver's
      documented contract: it holds at most [capacity] unreleased images.
    - [SampleUtils] models [DateTimeUtil] (fill, concatDate, concatTime,
      getDate, getTime) and [MediaUtils.getInfoFromType], with the display
      name of [createAndGetUri].
    - [CameraService] models the service object as the record [Svc]; see
      the section below.
    - [SampleMedia] models [MediaUtils.getFileAssetsFromType] and
      [getAlbums], including their [Promise.all], against a media-query
      contract.  It also has the [Index] and [MediaView] handlers as a
      page step relation.
    - [MediaFiles] models the rest of [MediaUtils]: [queryFile],
      [createFile], [deleteFile], [onDateChange] and [offDateChange],
      which the built app does not call.  Under the laws of [on] and
      [off], [offDateChange] undoes [onDateChange].
    - [AppLifecycle] models the callbacks of [MainAbility] and
      [MyAbilityStage], [Index.aboutToAppear] and the [MediaUtils]
      singleton, over the [globalThis] properties they share.  The
      platform's order of the callbacks, from its documentation, is the
      step function [lifeStep].
    - [CameraAsync] models [initCamera], [takePicture] and
      [releaseCamera] again with their [await]s, as jobs that yield to a
      scheduler of page events and resumptions; see the section below.

    ** The camera service model

    - The world holds the platform state, the hilog lines, the page's
      thumbnail, the unhandled rejections and a ghost trace of the
      platform calls.
    - Every method is a computation that can reject with a platform error
      or a [TypeError].
    - The page's lifecycle and shutter button, with the receiver's
      arrivals, are the events of the reachability relation [reachable].
    - Two invariants hold in every reachable world: the photo mode, and
      [wfSvc], the order in which [initCamera] sets the optional fields
      (camera input, preview output, photo output, capture session).
      They are proved together, since [initCamera] keeps the order only
      in photo mode.
    - The camera kit and the media library are type classes without laws.
    - [CameraServiceSim] is an executable simulation of all three kits;
      [CameraServiceExamples] runs the service on it.
    - In [CameraAsync] a method is a [Trace]: it finishes, or it yields at
      an [await] with a continuation.  [await c] performs the platform
      call at once and resumes with its outcome.  The scheduler
      [schedStep] runs a page event or resumes a pending job.  A job's
      rejection joins the unhandled rejections, since the page awaits
      none of them.  [refinesSeq] relates an async method to the
      sequential one.  The invariant under interleaving is a
      rely/guarantee argument: no method resets a handle ([grows]), and
      every segment of a job keeps [wfSvc] ([tsafe]).  The arrival
      handler is one atomic step.

    ** What the theorems show

    - Backup extension:
      - [moveConflictFile] never throws and moves to the first candidate
        its prober reports free (C1);
      - its loop terminates within the number of existing paths plus one
        (C2);
      - with working probes it overwrites nothing (C3), while a probe that
        throws on an existing destination makes it move onto that path
        (C14);
      - [onRestore] rejects only when the native restore does (C4, C15);
      - the 13900015 dispatch and its alternative hold (C5, C6);
      - on a file system whose probes answer, [moveRestFiles] refines the
        abstract specification [resolvesAll] (C7), and the conflict loop
        loses no file and keeps the number of paths (C8);
      - the loop's counter is at most the number of paths plus one, an
        exact JavaScript integer (C9);
      - the name split equals a one-pass cut at the last dot (C10);
      - the restore mode is chosen from the bundle version (C11);
      - the name and path round trips hold (C12, C13);
      - the prober answers what [accessSync] answers (C16).
    - Typings: [PropertyKey.ISO_SPEED] duplicates [ISO_SPEED_RATINGS]
      (C17); the format 4 the sample's constructor passes to
      [createImageReceiver] is no [ImageFormat] (C33).
    - Sample app:
      - the Index page's album list stays empty, since the code that
        fills it is commented out (C18), while the camera page can always
        be opened with at most two clicks (C35);
      - photos get the same name exactly when the date of the first clock
        reading and the time of the second agree (C19), so across midnight
        a name is a day off;
      - the service never leaves photo mode (C20);
      - [releaseCamera] releases the camera input twice (C21), and when it
        rejects the session is released only if that release is what
        rejected (C32);
      - the methods reject with a [TypeError] before [initCamera] has set
        their fields (C22); once the capture session exists, the fields
        they read are set in every reachable world, so they can no longer
        reject with a [TypeError] (C23);
      - in every lifecycle order the platform allows, no callback of the
        abilities or pages throws: [globalThis.abilityContext] is read only
        after [MainAbility.onCreate] stored it (C24);
      - in every interleaving of page events and resumptions of the
        methods at their [await]s, the handles keep [initCamera]'s order
        (C25), so a click once the session exists reaches the camera
        (C26), while a click while [photoOutPut] is unset, such as during
        [initCamera], rejects with an unhandled [TypeError] (C27);
      - [initCamera] configures the session in the required order (C28);
      - an image whose component read fails is never released, and a full
        receiver reads nothing more (C29, C30);
      - [savePicture] releases the image only with its last call, so any
        earlier rejection, unhandled, leaves the image held (C31);
      - [getAlbums] returns the four albums with the asset count of each
        media type (C34).

    ** Bounds and fuel

    The only unbounded loop is the [while] of [moveConflictFile].  Its
    model [probeLoop] takes fuel.  [moveConflictFile] supplies
    [S (size (fs_paths s))], where [fs_paths s] is the finite set of
    existing paths.  [probeLoop_terminates] shows this fuel is never
    exhausted: the probed paths are pairwise distinct, so at most [size]
    of them exist.  The other loops are over finite lists ([for_each], the
    [n] arrivals of [arrivals]).  Integers of the code are [Z].  The one
    that grows with the input is the loop's [count], a JavaScript
    [number]: [moveConflictFile_count_bound] shows it never exceeds the
    number of existing paths plus one, so it is exact below
    [Number.MAX_SAFE_INTEGER].

    ** Not modelled

    - The native services ([mediabackup.startRestore], the [fs]
      primitives, the image, camera and media kits) are outside the
      repository.  They appear as parameters, type classes or contracts.
    - [JSON.stringify] of the bundle version is a parameter of the log
      line.
    - In the sample app, these parts are not modelled:
      - interleavings inside [savePicture] and the arrival handler,
        which [CameraAsync] runs as one step (only the handles matter
        there, and the handler sets none);
      - the second [CameraService] instance of line 272, whose receiver no
        camera output feeds;
      - the render functions of [Index], [MediaView] and [CameraPage],
        which build the component tree over the host framework; the
        click handlers they register are modelled;
      - [MediaUtils.getInstance], which returns the singleton whose
        construction [AppLifecycle] models.
*)

From stdpp Require Export base strings list gmap finite.
From Stdlib Require Export ZArith Lia Ascii.

Declare Scope js_scope.
Delimit Scope js_scope with js.
Open Scope string_scope.
Open Scope list_scope.

Create HintDb js discriminated.
Create Rewrite HintDb js_rw.

(** ** Outcomes and the effect monad *)

(** A JavaScript computation ends with a value or a thrown error. *)
Inductive Outcome (E A : Type) : Type :=
| Ok (a : A)
| Throw (e : E).
Arguments Ok {E A} a.
Arguments Throw {E A} e.

(** An async function of the code, its [await]s run one after the other:
    it reads and changes a state and may throw; what it did before a throw
    stays done. *)
Definition M (S E A : Type) : Type := S -> Outcome E A * S.

Section Monad.
Context {S E : Type}.

Definition ret {A} (a : A) : M S E A := fun s => (Ok a, s).

Definition bind {A B} (c : M S E A) (k : A -> M S E B) : M S E B :=
  fun s => match c s with
           | (Ok a, s') => k a s'
           | (Throw e, s') => (Throw e, s')
           end.

Definition throw {A} (e : E) : M S E A := fun s => (Throw e, s).

(** [try { c } catch (err) { h(err) }] *)
Definition try_catch {A} (c : M S E A) (h : E -> M S E A) : M S E A :=
  fun s => match c s with
           | (Ok a, s') => (Ok a, s')
           | (Throw e, s') => h e s'
           end.

Definition get : M S E S := fun s => (Ok s, s).
Definition modify (f : S -> S) : M S E unit := fun s => (Ok tt, f s).

(** [for (let i = 0; i < l.length; i++) { body(l[i]) }] over a list
    the body does not change. *)
Fixpoint for_each {A} (l : list A) (body : A -> M S E unit) : M S E unit :=
  match l with
  | [] => ret tt
  | x :: l' => bind (body x) (fun _ => for_each l' body)
  end.

(** A computation that cannot throw, whatever the state. *)
Definition no_throw {A} (c : M S E A) : Prop :=
  forall s, exists a s', c s = (Ok a, s').

Lemma bind_ok {A B} (c : M S E A) (k : A -> M S E B) s a s' :
  c s = (Ok a, s') -> bind c k s = k a s'.
Proof. intros Hc. unfold bind. by rewrite Hc. Qed.

Lemma bind_ok_ret {A} (c : M S E unit) (a : A) s s' :
  c s = (Ok tt, s') -> bind c (fun _ => ret a) s = (Ok a, s').
Proof. intros Hc. by rewrite (bind_ok _ _ _ _ _ Hc). Qed.

Lemma bind_throw {A B} (c : M S E A) (k : A -> M S E B) s e s' :
  c s = (Throw e, s') -> bind c k s = (Throw e, s').
Proof. intros Hc. unfold bind. by rewrite Hc. Qed.

Lemma try_catch_ok {A} (c : M S E A) h s a s' :
  c s = (Ok a, s') -> try_catch c h s = (Ok a, s').
Proof. intros Hc. unfold try_catch. by rewrite Hc. Qed.

Lemma try_catch_throw {A} (c : M S E A) h s e s' :
  c s = (Throw e, s') -> try_catch c h s = h e s'.
Proof. intros Hc. unfold try_catch. by rewrite Hc. Qed.

Lemma no_throw_ret {A} (a : A) : no_throw (ret a).
Proof. intros s. by exists a, s. Qed.

Lemma no_throw_modify f : no_throw (modify f).
Proof. intros s. by exists tt, (f s). Qed.

Lemma no_throw_get : no_throw get.
Proof. intros s. by exists s, s. Qed.

Lemma no_throw_bind {A B} (c : M S E A) (k : A -> M S E B) :
  no_throw c -> (forall a, no_throw (k a)) -> no_throw (bind c k).
Proof.
  intros Hc Hk s. destruct (Hc s) as (a & s' & Hcs).
  rewrite (bind_ok _ _ _ _ _ Hcs). apply Hk.
Qed.

(** A handler that cannot throw makes the whole [try] unable to throw. *)
Lemma no_throw_try_catch {A} (c : M S E A) h :
  (forall e, no_throw (h e)) -> no_throw (try_catch c h).
Proof.
  intros Hh s. unfold try_catch.
  destruct (c s) as [[a|e] s']; [by exists a, s' | apply Hh].
Qed.

(** A [try] around code that cannot throw does nothing. *)
Lemma try_catch_no_throw {A} (c : M S E A) h s :
  no_throw c -> try_catch c h s = c s.
Proof. intros Hc. destruct (Hc s) as (a & s' & Hs). by rewrite (try_catch_ok _ _ _ _ _ Hs). Qed.

Lemma for_each_ext {A} (l : list A) (f g : A -> M S E unit) s :
  (forall x s, f x s = g x s) -> for_each l f s = for_each l g s.
Proof.
  intros Hfg. revert s. induction l as [|x l IH]; intros s; simpl; [done|].
  unfold bind. rewrite Hfg. destruct (g x s) as [[]]; [apply IH|done].
Qed.

(** A loop whose body cannot throw runs its two halves one after the
    other: a failing element never stops the rest. *)
Lemma for_each_app {A} (l1 l2 : list A) body s :
  (forall x, no_throw (body x)) ->
  for_each (l1 ++ l2) body s = for_each l2 body (snd (for_each l1 body s)).
Proof.
  intros Hb. revert s. induction l1 as [|x l1 IH]; intros s; simpl; [done|].
  destruct (Hb x s) as (a & s' & Hs). rewrite !(bind_ok _ _ _ _ _ Hs). apply IH.
Qed.

Lemma no_throw_for_each {A} (l : list A) body :
  (forall x, no_throw (body x)) -> no_throw (for_each l body).
Proof.
  intros Hb. induction l as [|x l IH]; simpl.
  - apply no_throw_ret.
  - apply no_throw_bind; auto.
Qed.
(** ** Invariants of the state

    [preserves P c]: running [c] from a state satisfying [P] ends, with a
    value or a thrown error, in a state satisfying [P]. *)
Definition preserves {A} (P : S -> Prop) (c : M S E A) : Prop :=
  forall s, P s -> P (snd (c s)).

Lemma preserves_ret {A} P (a : A) : preserves P (ret a).
Proof. by intros s. Qed.

Lemma preserves_throw {A} P e : preserves P (throw (A:=A) e).
Proof. by intros s. Qed.

Lemma preserves_get P : preserves P get.
Proof. by intros s. Qed.

Lemma preserves_modify P f : (forall s, P s -> P (f s)) -> preserves P (modify f).
Proof. intros Hf s. apply Hf. Qed.

Lemma preserves_bind {A B} P (c : M S E A) (k : A -> M S E B) :
  preserves P c -> (forall a, preserves P (k a)) -> preserves P (bind c k).
Proof.
  intros Hc Hk s Hs. unfold bind. specialize (Hc s Hs).
  destruct (c s) as [[a|e] s']; [apply Hk|]; done.
Qed.

(** A first step that establishes [P], followed by steps that keep it. *)
Lemma establishes_bind {A B} P (c : M S E A) (k : A -> M S E B) s :
  P (snd (c s)) -> (forall a, preserves P (k a)) -> P (snd (bind c k s)).
Proof.
  intros Hc Hk. unfold bind. destruct (c s) as [[a|e] s']; [by apply Hk|done].
Qed.

Lemma preserves_try_catch {A} P (c : M S E A) h :
  preserves P c -> (forall e, preserves P (h e)) -> preserves P (try_catch c h).
Proof.
  intros Hc Hh s Hs. unfold try_catch. specialize (Hc s Hs).
  destruct (c s) as [[a|e] s']; [|apply Hh]; done.
Qed.
End Monad.

Notation "'let!' x ':=' c 'in' k" := (bind c (fun x => k))
  (at level 10, x name, c at level 100, k at level 200) : js_scope.
Notation "'let!' ' p ':=' c 'in' k" := (bind c (fun x => match x with p => k end))
  (at level 10, p pattern, c at level 100, k at level 200) : js_scope.
Open Scope js_scope.

#[export] Hint Resolve no_throw_ret no_throw_modify no_throw_get
  no_throw_bind no_throw_try_catch no_throw_for_each : js.
#[export] Hint Resolve preserves_ret preserves_throw preserves_get : js.

(** [no_throw] goals decompose along the syntax of the program. *)
Ltac solve_no_throw :=
  repeat match goal with
  | |- no_throw (bind _ _) => apply no_throw_bind; [|intros ?]
  | |- no_throw (try_catch _ _) => apply no_throw_try_catch; intros ?
  | |- no_throw (for_each _ _) => apply no_throw_for_each; intros ?
  | |- no_throw (if _ then _ else _) => case_match
  | |- no_throw (match _ with _ => _ end) => case_match
  | |- _ => solve [eauto with js]
  end.

(** ** The console *)

(** [console.log/info/error(TAG, msg)] and [console.time/timeEnd(label)]. *)
Inductive ConsoleLine : Type :=
| LogLine (tag msg : string)
| InfoLine (tag msg : string)
| ErrorLine (tag msg : string)
| TimeStart (label : string)
| TimeEnd (label : string).

(** A console line is an error line. *)
Definition is_error_line (l : ConsoleLine) : bool :=
  match l with ErrorLine _ _ => true | _ => false end.

(** ** Shared list lemmas *)

Lemma take_length_pred_app {A} (l : list A) (x : A) :
  take (length (l ++ [x]) - 1) (l ++ [x]) = l.
Proof.
  rewrite length_app; simpl. replace (length l + 1 - 1) with (length l) by lia.
  by rewrite take_app_length.
Qed.

Lemma lookup_last_index {A} (l : list A) (x : A) :
  (l ++ [x]) !! (length (l ++ [x]) - 1) = Some x.
Proof.
  rewrite length_app; simpl. replace (length l + 1 - 1) with (length l) by lia.
  by rewrite list_lookup_middle.
Qed.

Lemma last_app_singleton {A} (l : list A) (x : A) : last (l ++ [x]) = Some x.
Proof. by rewrite last_snoc. Qed.

#[export] Hint Rewrite @take_length_pred_app @last_app_singleton : js_rw.

(** ** Filtering a duplicate-free list *)

Lemma filter_none {A} (P : A -> Prop) `{!forall x, Decision (P x)} (l : list A) :
  (forall y, y ∈ l -> ~ P y) -> filter P l = [].
Proof.
  induction l as [|y l IH]; intros Hl; [done|].
  rewrite filter_cons, decide_False by (apply Hl; left).
  apply IH. intros z Hz. apply Hl. by right.
Qed.

(** In a duplicate-free list, the elements satisfying a predicate that
    holds of [x] alone are [x] alone. *)
Lemma filter_unique {A} (P : A -> Prop) `{!forall x, Decision (P x)} (l : list A) x :
  NoDup l -> x ∈ l -> (forall y, P y <-> y = x) -> filter P l = [x].
Proof.
  induction l as [|y l IH]; intros Hnd Hx HP; [by apply not_elem_of_nil in Hx|].
  apply NoDup_cons in Hnd as [Hy Hnd]. rewrite filter_cons.
  case_decide as Hpy.
  - apply HP in Hpy. subst y. f_equal.
    apply filter_none. intros z Hz Hpz. apply HP in Hpz. by subst.
  - apply IH; [done| |done].
    apply elem_of_cons in Hx as [->|]; [by destruct Hpy; apply HP | done].
Qed.

(** A finite enumeration given by its list of members. *)
Ltac solve_enum_finite l :=
  refine {| enum := l |};
  [ apply (bool_decide_unpack _); vm_compute; exact I
  | intros x; apply (bool_decide_unpack _); destruct x; vm_compute; exact I ].

(** ** Counting: an injective sequence that stays in a finite set *)

(** If [g j], ..., [g (j + m - 1)] are pairwise distinct and all in [X],
    then [X] has at least [m] elements. *)
Lemma inj_range_size `{Countable A} (g : nat -> A) (X : gset A) j m :
  Inj eq eq g -> (forall i, j <= i < j + m -> g i ∈ X) -> m <= size X.
Proof.
  intros Hinj Hin.
  assert (Hsz : size (list_to_set (g <$> seq j m) : gset A) = m).
  { rewrite size_list_to_set; [by rewrite length_fmap, length_seq|].
    apply NoDup_fmap_2; [done | apply NoDup_seq]. }
  rewrite <- Hsz. apply subseteq_size. intros x.
  rewrite elem_of_list_to_set, list_elem_of_fmap.
  intros (i & -> & Hi%elem_of_seq). apply Hin. lia.
Qed.

(** ** Integer ranges checked by computation *)

(** A property checked on every integer of [lo, lo + n) by evaluating the
    list of those integers holds on the whole range. *)
Lemma Forall_Z_range (P : Z -> Prop) (lo : Z) (n : nat) :
  Forall P (map (fun i => (lo + Z.of_nat i)%Z) (seq 0 n)) ->
  forall v, (lo <= v < lo + Z.of_nat n)%Z -> P v.
Proof.
  rewrite Forall_forall. intros HP v Hv. apply HP, list_elem_of_fmap.
  exists (Z.to_nat (v - lo)). split; [lia|]. apply elem_of_seq. lia.
Qed.
