(* ===== verification/JsString.v ===== *)
(** * JavaScript string and array builtins

    The builtins that [MediaBackupExtensionAbility.ts] calls on strings and
    arrays, with the ECMAScript behaviour restricted to the arguments the
    code passes: [String.prototype.split] with a one-character separator,
    [Array.prototype.join], [String.prototype.lastIndexOf] of one
    character, [String.prototype.slice] with integral bounds,
    [Array.prototype.pop] (read only: the array is not used afterwards)
    and the decimal rendering of an integral [number] in a template
    literal.  They are library definitions, not code of the repository.
    The lemmas are the round trips the code relies on: [join] undoes
    [split], the last piece plus the joined prefix rebuild the path, the
    decimal rendering is injective and has only digits. *)

From S2P Require Import Prelude.
From Stdlib Require Import Ascii DecimalString DecimalNat DecimalZ.

Module Js.

(** [c] occurs in [s]. *)
Fixpoint has_char (c : ascii) (s : string) : bool :=
  match s with
  | EmptyString => false
  | String x s' => if decide (x = c) then true else has_char c s'
  end.

(** [s.split(c)]: the pieces between the occurrences of [c]; never empty. *)
Fixpoint split (c : ascii) (s : string) : list string :=
  match s with
  | EmptyString => [""]
  | String x s' =>
      let r := split c s' in
      if decide (x = c) then "" :: r
      else match r with
           | [] => [String x ""]
           | h :: t => String x h :: t
           end
  end.

(** [l.join(sep)]. *)
Fixpoint join (sep : string) (l : list string) : string :=
  match l with
  | [] => ""
  | [x] => x
  | x :: l' => x +:+ sep +:+ join sep l'
  end.

Fixpoint lastIndexOf_from (c : ascii) (s : string) (i : nat) : option nat :=
  match s with
  | EmptyString => None
  | String x s' =>
      match lastIndexOf_from c s' (S i) with
      | Some j => Some j
      | None => if decide (x = c) then Some i else None
      end
  end.

(** [s.lastIndexOf(c)]: the last position of [c], or [-1]. *)
Definition lastIndexOf (s : string) (c : ascii) : Z :=
  match lastIndexOf_from c s 0 with
  | Some i => Z.of_nat i
  | None => (-1)%Z
  end.

(** [s.slice(start, end)]: negative bounds count from the end, bounds are
    clamped to the string, an empty range gives [""]. *)
Definition slice (s : string) (start end_ : Z) : string :=
  let len := Z.of_nat (String.length s) in
  let from := if (start <? 0)%Z then Z.max 0 (len + start) else Z.min start len in
  let to := if (end_ <? 0)%Z then Z.max 0 (len + end_) else Z.min end_ len in
  String.substring (Z.to_nat from) (Z.to_nat (to - from)) s.

(** [arr.pop()] read for its result: the last element, [undefined] on
    an empty array. *)
Definition pop {A} (l : list A) : option A := last l.

(** [`${n}`] for a non-negative integral number. *)
Definition string_of_nat (n : nat) : string :=
  NilEmpty.string_of_uint (Nat.to_uint n).

(** [`${z}`] for an integral number. *)
Definition string_of_Z (z : Z) : string :=
  NilEmpty.string_of_int (Z.to_int z).

(** The characters that the decimal rendering can produce. *)
Definition is_digit (a : ascii) : bool :=
  Nat.leb 48 (nat_of_ascii a) && Nat.leb (nat_of_ascii a) 57.

(** ** Lemmas on [has_char] and append *)

Lemma has_char_app c s1 s2 :
  has_char c (s1 +:+ s2) = has_char c s1 || has_char c s2.
Proof.
  induction s1 as [|x s1 IH]; simpl; [done|].
  case_decide; [done | apply IH].
Qed.

Lemma str_app_cons x (s1 s2 : string) : String x s1 +:+ s2 = String x (s1 +:+ s2).
Proof. done. Qed.

Lemma str_app_assoc (s1 s2 s3 : string) :
  (s1 +:+ s2) +:+ s3 = s1 +:+ (s2 +:+ s3).
Proof. induction s1 as [|x s1 IH]; [done | by rewrite !str_app_cons, IH]. Qed.

Lemma str_app_nil_r (s : string) : s +:+ "" = s.
Proof. induction s as [|x s IH]; [done | by rewrite str_app_cons, IH]. Qed.

Lemma str_length_app (s1 s2 : string) :
  String.length (s1 +:+ s2) = String.length s1 + String.length s2.
Proof. induction s1 as [|x s1 IH]; [done | simpl; lia]. Qed.

(** Strings with suffixes of the same length are equal piecewise. *)
Lemma str_app_inj_r (a b c d : string) :
  String.length b = String.length d -> a +:+ b = c +:+ d -> a = c /\ b = d.
Proof.
  revert c. induction a as [|x a IH]; intros [|y c] Hl Heq; simpl in *.
  - done.
  - exfalso. apply (f_equal String.length) in Heq. simpl in Heq. rewrite ?str_length_app in Heq. simpl in Heq. lia.
  - exfalso. apply (f_equal String.length) in Heq. simpl in Heq. rewrite ?str_length_app in Heq. simpl in Heq. lia.
  - injection Heq as -> Heq. destruct (IH c Hl Heq) as [-> ->]. done.
Qed.

Lemma str_app_inv_l (a b c : string) : a +:+ b = a +:+ c -> b = c.
Proof. induction a as [|x a IH]; [done|]. rewrite !str_app_cons. intros [= H]. by apply IH. Qed.

(** Two strings each followed by [c] and something agree up to the first
    [c] when neither contains [c]. *)
Lemma app_char_cancel c a b x y :
  has_char c a = false -> has_char c b = false ->
  a +:+ String c x = b +:+ String c y -> a = b /\ x = y.
Proof.
  revert b. induction a as [|u a IH]; intros [|v b] Ha Hb Heq; simpl in *.
  - by injection Heq.
  - injection Heq as -> _. by rewrite decide_True in Hb.
  - injection Heq as -> _. by rewrite decide_True in Ha.
  - injection Heq as -> Heq.
    case_decide; [done|].
    destruct (IH b Ha Hb Heq) as [-> ->]. done.
Qed.

(** ** [split] and [join] *)

Lemma split_not_nil c s : split c s <> [].
Proof.
  destruct s as [|x s]; simpl; [done|].
  case_decide; [done|]. by destruct (split c s).
Qed.

Lemma join_cons_char sep x h t :
  join sep (String x h :: t) = String x (join sep (h :: t)).
Proof. by destruct t. Qed.

(** [s.split(c).join(c)] is [s]. *)
Lemma join_split c s : join (String c "") (split c s) = s.
Proof.
  induction s as [|x s IH]; simpl; [done|].
  case_decide as Hx.
  - subst x. destruct (split c s) eqn:E; [by destruct (split_not_nil c s)|].
    simpl. by rewrite <- IH.
  - destruct (split c s) as [|h t] eqn:E; [by destruct (split_not_nil c s)|].
    rewrite join_cons_char. by rewrite IH.
Qed.

(** The pieces of a split do not contain the separator. *)
Lemma split_pieces c s : Forall (fun p => has_char c p = false) (split c s).
Proof.
  induction s as [|x s IH]; simpl; [by repeat constructor|].
  case_decide as Hx.
  - by constructor.
  - destruct (split c s) as [|h t] eqn:E; [by destruct (split_not_nil c s)|].
    inversion IH; subst. constructor; [|done]. simpl. by rewrite decide_False.
Qed.

(** A string without [c] is its own single piece. *)
Lemma split_no_char c s : has_char c s = false -> split c s = [s].
Proof.
  induction s as [|x s IH]; simpl; [done|].
  case_decide; [done|]. intros Hs. by rewrite IH.
Qed.

Lemma join_snoc sep l x :
  l <> [] -> join sep (l ++ [x]) = join sep l +:+ sep +:+ x.
Proof.
  induction l as [|y l IH]; [done|]. intros _.
  destruct l as [|z l]; [done|].
  change ((y :: z :: l) ++ [x]) with (y :: ((z :: l) ++ [x])).
  change (join sep (y :: (z :: l) ++ [x])) with (y +:+ sep +:+ join sep ((z :: l) ++ [x])).
  rewrite IH by done. simpl. by rewrite !str_app_assoc.
Qed.

(** The directory part and the last piece rebuild a path that contains the
    separator: [arr.splice(0, arr.length - 1).join(c) + c + arr[last]]. *)
Lemma join_init_last c s :
  has_char c s = true ->
  exists init x, split c s = init ++ [x] /\
    join (String c "") init +:+ String c x = s.
Proof.
  intros Hc. destruct (split c s) as [|y l] eqn:E using rev_ind;
    [by destruct (split_not_nil c s)|].
  exists l, y. split; [done|].
  destruct l as [|z l].
  - exfalso. simpl in E. pose proof (split_pieces c s) as Hp. rewrite E in Hp.
    inversion Hp; subst. pose proof (join_split c s) as J. rewrite E in J.
    simpl in J. subst. congruence.
  - rewrite <- (join_split c s) at 1. rewrite E, join_snoc by done.
    by rewrite str_app_cons.
Qed.

(** ** [lastIndexOf] *)

Lemma lastIndexOf_from_None c s i :
  lastIndexOf_from c s i = None <-> has_char c s = false.
Proof.
  revert i. induction s as [|x s IH]; intros i; simpl; [done|].
  destruct (lastIndexOf_from c s (S i)) eqn:E.
  - split; [done|]. case_decide; [done|]. intros Hs.
    apply (IH (S i)) in Hs. congruence.
  - apply IH in E. rewrite E. case_decide; split; done.
Qed.

Lemma lastIndexOf_absent s c : lastIndexOf s c = (-1)%Z <-> has_char c s = false.
Proof.
  unfold lastIndexOf. rewrite <- (lastIndexOf_from_None c s 0).
  destruct (lastIndexOf_from c s 0); split; intros; try done; lia.
Qed.

(** ** Decimal rendering *)

Lemma string_of_nat_inj n m : string_of_nat n = string_of_nat m -> n = m.
Proof.
  unfold string_of_nat. intros H.
  apply (f_equal NilEmpty.uint_of_string) in H. rewrite !NilEmpty.usu in H.
  apply Unsigned.to_uint_inj. congruence.
Qed.

Lemma string_of_Z_inj z1 z2 : string_of_Z z1 = string_of_Z z2 -> z1 = z2.
Proof.
  unfold string_of_Z. intros H.
  apply (f_equal NilEmpty.int_of_string) in H. rewrite !NilEmpty.isi in H.
  injection H as H. rewrite <- (DecimalZ.of_to z1), <- (DecimalZ.of_to z2), H. done.
Qed.

Lemma string_of_uint_no_char c d :
  is_digit c = false -> has_char c (NilEmpty.string_of_uint d) = false.
Proof.
  intros Hc. induction d; simpl; try done;
    (case_decide as E; [subst c; discriminate | done]).
Qed.

(** Only digits: no parenthesis, dot or slash in a rendered count. *)
Lemma string_of_nat_no_char c n :
  is_digit c = false -> has_char c (string_of_nat n) = false.
Proof. apply string_of_uint_no_char. Qed.

End Js.

#[export] Hint Resolve Js.split_not_nil Js.string_of_nat_no_char : js.
#[export] Hint Rewrite Js.join_split Js.has_char_app Js.str_length_app
  Js.str_app_cons Js.str_app_assoc Js.str_app_nil_r : js_rw.
