(* ===== verification/FileSystem.v ===== *)
(** * The file-system contract the backup extension relies on

    [MediaBackupExtensionAbility.ts] calls three primitives of
    [@ohos.file.fs]: [accessSync(path)], [moveFile(src, dest)] and
    [moveDir(src, dest, mode)].  They are platform code, outside the
    repository, so this file states what the extension needs of them as a
    type class [FsOps] (the operations, in the effect monad of [Prelude],
    over an abstract file-system state [F] whose existing paths are
    [fs_paths]) and [FsLaws] (probing changes nothing and, when it
    answers, answers the truth; a successful [moveFile] adds the
    destination and removes the source; a failed one changes nothing).
    The theorems of [MediaBackup] are proved against these laws only.

    [GsetFs] is one executable instance, used by the witnesses: the
    existing paths are a [gset], [accessSync] throws "Permission denied"
    on the paths of [denied], [moveFile] throws "No such file or directory"
    when the source is missing, and [moveDir] with mode 1 moves every file
    under the source prefix whose target is free and throws 13900015 with
    the list of the others, which is what the platform documents for
    mode 1; a source with no file under it throws "No such file or
    directory".  Other modes are not used by the code and are refused. *)

From S2P Require Import Prelude JsString.

(** [ConflictFiles] of [@ohos.file.fs]: a file [moveDir] could not place. *)
Record ConflictFiles := mkConflict { srcFile : string; destFile : string }.

(** A [BusinessError] as the code reads it: [err.code], [err.message] and
    [err.data] (the conflict list of [moveDir]; empty for other errors). *)
Record BusinessError := mkError {
  code : Z;
  message : string;
  data : list ConflictFiles
}.

(** Error codes of [@ohos.file.fs]. *)
Definition ENOENT : Z := 13900002.
Definition EACCES : Z := 13900012.
Definition EEXIST : Z := 13900015.
Definition EINVAL : Z := 13900020.

Class FsOps (F : Type) := {
  fs_paths : F -> gset string;
  accessSync : string -> M F BusinessError bool;
  moveFile : string -> string -> M F BusinessError unit;
  moveDir : string -> string -> Z -> M F BusinessError unit
}.

Class FsLaws (F : Type) `{!FsOps F} := {
  accessSync_state p s : snd (accessSync p s) = s;
  accessSync_truth p s b :
    fst (accessSync p s) = Ok b -> b = bool_decide (p ∈ fs_paths s);
  moveFile_ok src dst s s' :
    moveFile src dst s = (Ok tt, s') ->
    src ∈ fs_paths s /\ fs_paths s' = {[dst]} ∪ (fs_paths s ∖ {[src]});
  moveFile_throw src dst s e s' :
    moveFile src dst s = (Throw e, s') -> s' = s
}.

(** ** The executable instance *)

Record GsetFs := mkGsetFs { files : gset string; denied : gset string }.

Definition gfs_accessSync (p : string) : M GsetFs BusinessError bool :=
  fun s => if bool_decide (p ∈ denied s)
           then (Throw (mkError EACCES "Permission denied" []), s)
           else (Ok (bool_decide (p ∈ files s)), s).

Definition gfs_moveFile (src dst : string) : M GsetFs BusinessError unit :=
  fun s => if bool_decide (src ∈ files s)
           then (Ok tt, mkGsetFs ({[dst]} ∪ (files s ∖ {[src]})) (denied s))
           else (Throw (mkError ENOENT "No such file or directory" []), s).

(** The target of a file [f] under [src] when [src] is moved into [dst]. *)
Definition gfs_target (src dst f : string) : string :=
  dst +:+ "/" +:+ String.substring (String.length src)
                    (String.length f - String.length src) f.

Definition gfs_moveDir (src dst : string) (mode : Z) : M GsetFs BusinessError unit :=
  fun s =>
    if decide (mode = 1%Z) then
      let under := filter (fun f => String.prefix src f = true) (elements (files s)) in
      let clash := filter (fun f => gfs_target src dst f ∈ files s) under in
      let free := filter (fun f => gfs_target src dst f ∉ files s) under in
      let moved := foldr (fun f acc => {[gfs_target src dst f]} ∪ (acc ∖ {[f]}))
                         (files s) free in
      let s' := mkGsetFs moved (denied s) in
      match under, clash with
      | [], _ => (Throw (mkError ENOENT "No such file or directory" []), s)
      | _, [] => (Ok tt, s')
      | _, _ => (Throw (mkError EEXIST "File exists"
                   (map (fun f => mkConflict f (gfs_target src dst f)) clash)), s')
      end
    else (Throw (mkError EINVAL "Invalid argument" []), s).

#[export] Instance gset_fs_ops : FsOps GsetFs := {|
  fs_paths := files;
  accessSync := gfs_accessSync;
  moveFile := gfs_moveFile;
  moveDir := gfs_moveDir
|}.

#[export] Instance gset_fs_laws : FsLaws GsetFs.
Proof.
  split.
  - intros p s. unfold accessSync; simpl. unfold gfs_accessSync. by case_bool_decide.
  - intros p s b. unfold accessSync; simpl. unfold gfs_accessSync.
    case_bool_decide; simpl; [done|]. by intros [= <-].
  - intros src dst s s'. unfold moveFile; simpl. unfold gfs_moveFile.
    case_bool_decide; [|done]. intros [= <-]. done.
  - intros src dst s e s'. unfold moveFile; simpl. unfold gfs_moveFile.
    case_bool_decide; [done|]. by intros [= _ <-].
Qed.
