(* ===== verification/UniqueName.v ===== *)
(** * The unique-name generator of [moveConflictFile]

    Lines 74-96 of [MediaBackupExtensionAbility.ts]: the file name is split
    on its last dot into [fileNameWithoutExt] and [fileExt] ([splitExt]),
    the candidates after the original name are [base(count)] or
    [base(count).ext] ([candidateName]), and a [while] loop probes
    [dirPath/newFileName] until the prober says the path does not exist
    ([probeLoop], with fuel).

    The loop is modelled over an abstract prober [isFileExist] in a
    Section, so that the client ([MediaBackup]) instantiates it with the
    ability's own [isFileExist].  Its reference is [firstFree], the search
    for the first index whose candidate the prober reports free; the
    theorems show the loop computes it, that the candidate names
    [nthName] are pairwise distinct, and from that, that [S (size X)] fuel
    is enough when the prober only answers [true] on paths of a finite set
    [X]. *)

From S2P Require Import Prelude JsString.
From Stdlib Require Import Ascii.

Module UniqueName.

(** Lines 78-86: [fileExt] and [fileNameWithoutExt] from
    [srcFileName.lastIndexOf('.')], [srcFileName.split('.').pop()] and
    [srcFileName.slice(0, srcFileName.length - fileExt.length - 1)]. *)
Definition splitExt (srcFileName : string) : string * string :=
  if decide (Js.lastIndexOf srcFileName "." <> (-1)%Z) then
    match Js.pop (Js.split "." srcFileName) with
    | Some tmpValue =>
        (tmpValue,
         Js.slice srcFileName 0
           (Z.of_nat (String.length srcFileName)
            - Z.of_nat (String.length tmpValue) - 1))
    | None => ("", srcFileName)
    end
  else ("", srcFileName).

(** Lines 90-94: the name tried after [count] collisions. *)
Definition candidateName (fileNameWithoutExt fileExt : string) (count : nat) : string :=
  if decide (fileExt = "") then
    fileNameWithoutExt +:+ "(" +:+ Js.string_of_nat count +:+ ")"
  else
    fileNameWithoutExt +:+ "(" +:+ Js.string_of_nat count +:+ ")." +:+ fileExt.

(** The name the loop holds after [k] collisions: the original name, then
    the candidates with [count = k]. *)
Definition nthName (srcFileName : string) (k : nat) : string :=
  match k with
  | O => srcFileName
  | S _ => let '(fileExt, base) := splitExt srcFileName in candidateName base fileExt k
  end.

(** The path the loop probes. *)
Definition probePath (dirPath name : string) : string := dirPath +:+ "/" +:+ name.

Section Loop.
Context {S E : Type} (isFileExist : string -> M S E bool).

(** Lines 87-96:
    [while (this.isFileExist(`${dirPath}/${newFileName}`)) { newFileName = ...; count++; }]
    with fuel; [None] when the fuel runs out. *)
Fixpoint probeLoop (fuel : nat) (dirPath fileNameWithoutExt fileExt newFileName : string)
         (count : nat) : M S E (option string) :=
  match fuel with
  | O => ret None
  | Datatypes.S fuel' =>
      let! exists_ := isFileExist (probePath dirPath newFileName) in
      if exists_ then
        probeLoop fuel' dirPath fileNameWithoutExt fileExt
          (candidateName fileNameWithoutExt fileExt count) (Datatypes.S count)
      else ret (Some newFileName)
  end.
End Loop.

(** The reference search: the first index from [j] on, among [fuel], that
    [taken] does not report. *)
Fixpoint firstFree (taken : nat -> bool) (fuel j : nat) : option nat :=
  match fuel with
  | O => None
  | S fuel' => if taken j then firstFree taken fuel' (S j) else Some j
  end.

(** A prober that cannot throw gives a loop that cannot throw. *)
Lemma no_throw_probeLoop {S E} (isFileExist : string -> M S E bool) fuel dirPath base ext
      newFileName count :
  (forall p, no_throw (isFileExist p)) ->
  no_throw (probeLoop isFileExist fuel dirPath base ext newFileName count).
Proof.
  intros Hp. revert newFileName count.
  induction fuel as [|fuel IH]; intros newFileName count; simpl; solve_no_throw.
Qed.

(** ** The name split *)

Lemma substring_app_prefix (a b : string) :
  String.substring 0 (String.length a) (a +:+ b) = a.
Proof.
  induction a as [|x a IH]; simpl; [by destruct b|]. by rewrite IH.
Qed.

Lemma slice_app_prefix (a b : string) :
  Js.slice (a +:+ b) 0 (Z.of_nat (String.length a)) = a.
Proof.
  unfold Js.slice. rewrite Js.str_length_app. simpl.
  destruct (Z.ltb_spec (Z.of_nat (String.length a)) 0); [lia|].
  rewrite !Z.min_l by lia. change (Z.to_nat 0) with 0.
  replace (Z.to_nat (Z.of_nat (String.length a) - 0)) with (String.length a) by lia.
  apply substring_app_prefix.
Qed.

(** What [splitExt] returns, by the presence of a dot. *)
Lemma splitExt_dot n :
  Js.has_char "." n = true ->
  exists base ext, splitExt n = (ext, base) /\ n = base +:+ "." +:+ ext /\
                   Js.has_char "." ext = false.
Proof.
  intros Hd. destruct (Js.join_init_last "." n Hd) as (init & x & Hs & Hj).
  exists (Js.join "." init), x. unfold splitExt.
  rewrite decide_True by (rewrite Js.lastIndexOf_absent; congruence).
  unfold Js.pop. rewrite Hs, last_snoc.
  pose proof (Js.split_pieces "." n) as Hp. rewrite Hs, Forall_app in Hp.
  destruct Hp as [_ Hx]. apply Forall_inv in Hx.
  split_and!; [| by rewrite <- Hj | exact Hx]. f_equal.
  rewrite <- Hj at 1 2. rewrite Js.str_length_app. simpl.
  replace (Z.of_nat (String.length (Js.join "." init) + S (String.length x))
           - Z.of_nat (String.length x) - 1)%Z
    with (Z.of_nat (String.length (Js.join "." init))) by lia.
  apply slice_app_prefix.
Qed.

Lemma split_app_last c a x :
  Js.has_char c x = false -> Js.split c (a +:+ String c x) = Js.split c a ++ [x].
Proof.
  intros Hx. induction a as [|z a IH]; simpl.
  - rewrite decide_True by done. by rewrite Js.split_no_char.
  - rewrite IH. case_decide; [done|].
    destruct (Js.split c a) eqn:E; [by destruct (Js.split_not_nil c a)|]. done.
Qed.

Lemma splitExt_no_dot n :
  Js.has_char "." n = false -> splitExt n = ("", n).
Proof.
  intros Hd. unfold splitExt. rewrite decide_False; [done|].
  intros Hne. apply Hne. by apply Js.lastIndexOf_absent.
Qed.

(** [splitExt] cuts at the last dot: whatever precedes it is the base,
    the dot-free rest is the extension. *)
Lemma splitExt_app_dot base ext :
  Js.has_char "." ext = false -> splitExt (base +:+ "." +:+ ext) = (ext, base).
Proof.
  intros Hx.
  assert (Hd : Js.has_char "." (base +:+ "." +:+ ext) = true)
    by (rewrite Js.has_char_app; simpl; by rewrite orb_true_r).
  destruct (splitExt_dot _ Hd) as (b & e & -> & Heq & He).
  change (base +:+ "." +:+ ext) with (base +:+ String "." ext) in Heq.
  change (b +:+ "." +:+ e) with (b +:+ String "." e) in Heq.
  pose proof (split_app_last "." base ext Hx) as S1.
  rewrite Heq, split_app_last in S1 by done.
  apply app_inj_tail in S1 as [S1 ->].
  rewrite <- (Js.join_split "." base), <- (Js.join_split "." b), S1. done.
Qed.

(** ** Candidates are pairwise distinct *)

Lemma is_digit_paren : Js.is_digit ")" = false.
Proof. done. Qed.

Lemma paren_cancel a b x y :
  a +:+ ")" +:+ x = b +:+ ")" +:+ y ->
  Js.has_char ")" a = false -> Js.has_char ")" b = false -> a = b.
Proof. intros H Ha Hb. by destruct (Js.app_char_cancel ")" a b x y Ha Hb H). Qed.

(** Two counts give the same candidate only if they are equal. *)
Lemma candidateName_inj base ext k k' :
  candidateName base ext k = candidateName base ext k' -> k = k'.
Proof.
  unfold candidateName. intros H.
  apply Js.string_of_nat_inj.
  case_decide; apply (inj (String.append base)), (inj (String.append "(")) in H;
    (eapply paren_cancel; [exact H | ..]); apply Js.string_of_nat_no_char; done.
Qed.

Lemma has_char_digits_false c k :
  Js.is_digit c = false -> Js.has_char c (Js.string_of_nat k) = false.
Proof. apply Js.string_of_nat_no_char. Qed.

(** Every candidate is longer than the original name. *)
Lemma nthName_longer n k :
  String.length n < String.length (nthName n (S k)).
Proof.
  unfold nthName. destruct (Js.has_char "." n) eqn:Hd.
  - destruct (splitExt_dot n Hd) as (base & ext & -> & Hn & _).
    rewrite Hn at 1. unfold candidateName.
    case_decide; rewrite !Js.str_length_app; simpl; rewrite ?Js.str_length_app;
      try subst ext; simpl; lia.
  - rewrite splitExt_no_dot by done. unfold candidateName. rewrite decide_True by done.
    rewrite !Js.str_length_app. simpl. lia.
Qed.

Lemma nthName_inj n : Inj eq eq (nthName n).
Proof.
  intros [|j] [|k] H; [done| | |].
  - pose proof (nthName_longer n k) as L. change (nthName n 0) with n in H.
    rewrite <- H in L. lia.
  - pose proof (nthName_longer n j) as L. change (nthName n 0) with n in H.
    rewrite H in L. lia.
  - unfold nthName in H. destruct (splitExt n). by apply candidateName_inj in H.
Qed.

Lemma probePath_inj dirPath n : Inj eq eq (fun i => probePath dirPath (nthName n i)).
Proof.
  intros j k H. unfold probePath in H.
  apply (inj (String.append dirPath)), (inj (String.append "/")) in H.
  by apply nthName_inj in H.
Qed.

(** ** The reference search *)

Lemma firstFree_Some taken fuel j k :
  firstFree taken fuel j = Some k ->
  j <= k < j + fuel /\ taken k = false /\ (forall i, j <= i < k -> taken i = true).
Proof.
  revert j. induction fuel as [|fuel IH]; intros j; simpl; [done|].
  destruct (taken j) eqn:Hj.
  - intros Hf. destruct (IH _ Hf) as (? & ? & Hi). split_and!; [lia|lia|done|].
    intros i ?. destruct (decide (i = j)) as [->|]; [done|]. apply Hi. lia.
  - intros [= <-]. split_and!; [lia|lia|done|]. lia.
Qed.

Lemma firstFree_None taken fuel j :
  firstFree taken fuel j = None -> forall i, j <= i < j + fuel -> taken i = true.
Proof.
  revert j. induction fuel as [|fuel IH]; intros j; simpl; [lia|].
  destruct (taken j) eqn:Hj; [|done].
  intros Hf i ?. pose proof (IH _ Hf) as Hn. destruct (decide (i = j)) as [->|]; [done|]. apply Hn. lia.
Qed.

(** ** The loop against an abstract prober *)

Section LoopSpec.
Context {S E V : Type} (isFileExist : string -> M S E bool)
        (view : S -> V) (answer : V -> string -> bool).

(** The prober does not throw, answers from a view of the state and
    leaves that view unchanged (it may change the rest: it logs). *)
Hypothesis isFileExist_answers :
  forall p s, exists s', isFileExist p s = (Ok (answer (view s) p), s') /\ view s' = view s.

(** The loop computes the reference search over the candidate indices. *)
Lemma probeLoop_firstFree n fileExt base dirPath fuel j s :
  splitExt n = (fileExt, base) ->
  exists s', probeLoop isFileExist fuel dirPath base fileExt (nthName n j) (Datatypes.S j) s
    = (Ok (nthName n <$> firstFree (fun i => answer (view s) (probePath dirPath (nthName n i))) fuel j), s')
    /\ view s' = view s.
Proof.
  intros Hs. revert j s. induction fuel as [|fuel IH]; intros j s; simpl; [by exists s|].
  destruct (isFileExist_answers (probePath dirPath (nthName n j)) s) as (s1 & Hp & Hv).
  rewrite (bind_ok _ _ _ _ _ Hp).
  destruct (answer (view s) (probePath dirPath (nthName n j))).
  - assert (Hc : candidateName base fileExt (Datatypes.S j) = nthName n (Datatypes.S j))
      by (unfold nthName; by rewrite Hs).
    rewrite Hc. destruct (IH (Datatypes.S j) s1) as (s2 & -> & Hv2).
    exists s2. rewrite Hv. split; [done|congruence].
  - by exists s1.
Qed.

(** Fuel beyond the number of taken paths is never exhausted. *)
Lemma firstFree_enough n dirPath (X : gset string) s fuel :
  (forall p, answer (view s) p = true -> p ∈ X) -> Datatypes.S (size X) <= fuel ->
  firstFree (fun i => answer (view s) (probePath dirPath (nthName n i))) fuel 0 <> None.
Proof.
  intros HX Hf Hn. pose proof (firstFree_None _ _ _ Hn) as Hall.
  assert (fuel <= size X); [|lia].
  apply (inj_range_size (fun i => probePath dirPath (nthName n i)) X 0);
    [apply probePath_inj|].
  intros i Hi. apply HX, Hall. lia.
Qed.

(** With [S (size X)] fuel the loop returns the first free candidate. *)
Lemma probeLoop_spec n fileExt base dirPath (X : gset string) s :
  splitExt n = (fileExt, base) ->
  (forall p, answer (view s) p = true -> p ∈ X) ->
  exists k s', probeLoop isFileExist (Datatypes.S (size X)) dirPath base fileExt n 1 s
               = (Ok (Some (nthName n k)), s')
    /\ view s' = view s
    /\ answer (view s) (probePath dirPath (nthName n k)) = false
    /\ (forall i, i < k -> answer (view s) (probePath dirPath (nthName n i)) = true).
Proof.
  intros Hs HX.
  destruct (probeLoop_firstFree n fileExt base dirPath (Datatypes.S (size X)) 0 s Hs)
    as (s' & Hrun & Hv).
  change (nthName n 0) with n in Hrun.
  destruct (firstFree _ _ 0) as [k|] eqn:Hf.
  - apply firstFree_Some in Hf as (_ & Hk & Hi).
    exists k, s'. split_and!; [done|done|done|]. intros i ?. apply Hi. lia.
  - by destruct (firstFree_enough n dirPath X s _ HX (le_n _)).
Qed.

(** C2 (termination): when the prober answers [true] only on paths of a
    finite set [X], the [while] loop of [moveConflictFile], given any
    fuel above [size X], never runs out of it: it stops on a name. *)
Theorem probeLoop_terminates n fileExt base dirPath (X : gset string) s fuel :
  splitExt n = (fileExt, base) ->
  (forall p, answer (view s) p = true -> p ∈ X) -> size X < fuel ->
  exists r s', probeLoop isFileExist fuel dirPath base fileExt n 1 s = (Ok (Some r), s').
Proof.
  intros Hs HX Hf.
  destruct (probeLoop_firstFree n fileExt base dirPath fuel 0 s Hs) as (s' & Hrun & _).
  change (nthName n 0) with n in Hrun.
  destruct (firstFree _ fuel 0) as [k|] eqn:Hk.
  - by exists (nthName n k), s'.
  - by destruct (firstFree_enough n dirPath X s fuel HX Hf).
Qed.
End LoopSpec.


(** ** A reference for the name split

    The code finds the extension with [lastIndexOf], [split('.').pop()]
    and [slice]; the reference scans the name once and cuts it at its last
    dot. *)
Fixpoint lastDot (s : string) : option (string * string) :=
  match s with
  | EmptyString => None
  | String c s' =>
      match lastDot s' with
      | Some (b, e) => Some (String c b, e)
      | None => if decide (c = "."%char) then Some (""%string, s') else None
      end
  end.

Definition splitAtLastDot (n : string) : string * string :=
  match lastDot n with Some (base, ext) => (ext, base) | None => (""%string, n) end.

Lemma lastDot_no_dot s : Js.has_char "." s = false -> lastDot s = None.
Proof.
  induction s as [|c s IH]; simpl; [done|].
  case_decide; [done|]. intros Hs. by rewrite IH.
Qed.

Lemma lastDot_app base ext :
  Js.has_char "." ext = false -> lastDot (base +:+ "." +:+ ext) = Some (base, ext).
Proof.
  intros He. induction base as [|c b IH]; simpl.
  - by rewrite lastDot_no_dot.
  - by rewrite IH.
Qed.

(** C10 (equivalence): the split of lines 78-86, through [lastIndexOf],
    [split('.').pop()] and [slice], is the one-pass cut at the last dot
    on every name. *)
Theorem splitExt_equiv n : splitExt n = splitAtLastDot n.
Proof.
  unfold splitAtLastDot. destruct (Js.has_char "." n) eqn:Hd.
  - destruct (splitExt_dot n Hd) as (base & ext & -> & -> & He). by rewrite lastDot_app.
  - by rewrite splitExt_no_dot, lastDot_no_dot.
Qed.

(** A name without a dot has alternates without a dot:
    no trailing dot is put after the counter. *)
Theorem nthName_no_dot n k :
  Js.has_char "." n = false -> Js.has_char "." (nthName n k) = false.
Proof.
  intros Hd. destruct k as [|k]; [done|]. unfold nthName.
  rewrite splitExt_no_dot by done. unfold candidateName. rewrite decide_True by done.
  rewrite !Js.has_char_app, Hd, Js.string_of_nat_no_char by done. done.
Qed.

(** A name ending in a dot, such as ["archive."], has
    an empty extension; its alternates are [archive(1)], [archive(2)], ...
    with the trailing dot dropped. *)
Theorem nthName_trailing_dot base k :
  nthName (base +:+ ".") (S k) = base +:+ "(" +:+ Js.string_of_nat (S k) +:+ ")".
Proof.
  unfold nthName. change (base +:+ ".") with (base +:+ "." +:+ "").
  rewrite splitExt_app_dot by done.
  unfold candidateName. by rewrite decide_True.
Qed.

(** The names tried for a few files, the spec's
    [x.jpg] and [archive.] among them; a dot-file such as [.bashrc] has an
    empty base and gets [(1).bashrc]. *)
Example nthName_examples :
  nthName "x.jpg" 1 = "x(1).jpg" /\ nthName "x.jpg" 2 = "x(2).jpg" /\
  nthName "archive." 1 = "archive(1)" /\ nthName "README" 3 = "README(3)" /\
  nthName "a.tar.gz" 1 = "a.tar(1).gz" /\ nthName ".bashrc" 1 = "(1).bashrc" /\
  nthName "photo.jpg" 10 = "photo(10).jpg".
Proof. vm_compute. repeat split. Qed.
End UniqueName.

Module UniqueNameWitness.
Import UniqueName.

Definition existing : gset string := {[ "b/x.jpg"; "b/x(1).jpg" ]}.
Definition probe (p : string) : M unit unit bool := ret (bool_decide (p ∈ existing)).
Definition probe_answer (_ : unit) (p : string) : bool := bool_decide (p ∈ existing).

(** The witness of [probeLoop_terminates]: a prober on a fixed set of two paths. *)
Lemma probeLoop_terminates_witness :
  splitExt "x.jpg" = ("jpg", "x") /\ size existing < 3 /\
  exists r s', probeLoop probe 3 "b" "x" "jpg" "x.jpg" 1 tt = (Ok (Some r), s').
Proof.
  split; [reflexivity|]. split; [vm_compute; lia|].
  refine (probeLoop_terminates probe (fun _ => tt) (fun _ p => probe_answer tt p) _
            "x.jpg" "jpg" "x" "b" existing tt 3 eq_refl _ _).
  - intros p s. by exists s.
  - intros p Hp. unfold probe_answer in Hp. by apply bool_decide_eq_true in Hp.
  - vm_compute. lia.
Defined.

(** The witness of [nthName_no_dot]. *)
Lemma nthName_no_dot_witness :
  Js.has_char "." "README" = false /\ Js.has_char "." (nthName "README" 2) = false.
Proof. split; [reflexivity | apply nthName_no_dot; reflexivity]. Defined.
End UniqueNameWitness.
