(* ===== verification/MediaBackup.v ===== *)
(** * The backup extension ability

    [MediaBackupExtAbility] of [MediaBackupExtensionAbility.ts] over a world
    made of a file-system state [F] (an instance of [FsOps]/[FsLaws]) and
    the console.  [isFileExist] (lines 40-47), [moveConflictFile] (73-102),
    the conflict loop [moveConflictFiles] (64-70), [moveRestFiles] (49-71),
    [onRestore] (23-38) and [onBackup] (19-21) are one definition each,
    composed as the code composes them; the native
    [mediabackup.startRestore] and [JSON.stringify] of the bundle version
    are parameters of the Section.

    The lemmas first run each operation symbolically (the [_run] lemmas),
    then the properties: neither the per-conflict nor the whole move ever
    throws, the conflict loop runs exactly on error 13900015 and in the
    order of [err.data], the file lands on the first name the prober
    reports free and overwrites nothing when the probes answer, the
    restore mode follows the bundle version; the spec's examples are
    evaluated on the [gset] file system of [FileSystem]. *)

From S2P Require Import Prelude JsString FileSystem UniqueName.
Import UniqueName.

Module MediaBackup.

(** Lines 6-16 and 51. *)
Definition TAG : string := "MediaBackupExtAbility".
Definition backupPath : string := "/data/storage/el2/backup/restore/".
Definition backupClonePath : string := "/data/storage/el2/backup/restore/storage/cloud/files/".
Definition documentPath : string := "/storage/media/local/files/Docs/Documents".
Definition galleryAppName : string := "com.huawei.photos".
Definition mediaAppName : string := "com.android.providers.media.module".
Definition cameraAppName : string := "com.huawei.camera".
Definition UPDATE_RESTORE : Z := 0.
Definition CLONE_RESTORE : Z := 1.
Definition MOVE_ERR_CODE : Z := 13900015.

(** [BundleVersion] of [@ohos.application.BackupExtensionAbility]. *)
Record BundleVersion := mkBundleVersion { bv_code : Z; bv_name : string }.

(** The text of the error lines: [`${what}, message = ${err.message}; code = ${err.code}`]. *)
Definition errText (what : string) (err : BusinessError) : string :=
  what +:+ ", message = " +:+ message err +:+ "; code = " +:+ Js.string_of_Z (code err).

(** Line 75-76: [srcArr[srcArr.length - 1]] of [srcFile.split('/')]. *)
Definition fileNameOf (srcFile : string) : string :=
  let srcArr := Js.split "/" srcFile in
  default "" (srcArr !! (length srcArr - 1)).

(** Lines 75 and 77: [dstArr.splice(0, dstArr.length - 1).join('/')]. *)
Definition dirPathOf (dstFile : string) : string :=
  let dstArr := Js.split "/" dstFile in
  Js.join "/" (take (length dstArr - 1) dstArr).

Section Ability.
Context {F : Type} {Hops : FsOps F}.

(** The state the ability sees: the file system and the console. *)
Record World := mkWorld { fs : F; console : list ConsoleLine }.

Definition emit (l : ConsoleLine) : M World BusinessError unit :=
  modify (fun w => mkWorld (fs w) (console w ++ [l])).

(** A file-system call: it changes the file system, not the console. *)
Definition liftFs {A} (c : M F BusinessError A) : M World BusinessError A :=
  fun w => let '(r, f') := c (fs w) in (r, mkWorld f' (console w)).

(** Lines 40-47: an [accessSync] exception is logged and read as [false]. *)
Definition isFileExist (filePath : string) : M World BusinessError bool :=
  try_catch (liftFs (accessSync filePath))
    (fun err => let! _ := emit (ErrorLine TAG (errText "accessSync failed" err)) in
                ret false).

(** Lines 73-102.  The [while] loop gets as fuel one more than the number
    of existing paths, which [probeLoop_spec] shows is never exhausted. *)
Definition moveConflictFile (srcFile dstFile : string) : M World BusinessError unit :=
  let srcFileName := fileNameOf srcFile in
  let dirPath := dirPathOf dstFile in
  let '(fileExt, fileNameWithoutExt) := splitExt srcFileName in
  let! w := get in
  let! found := probeLoop isFileExist (S (size (fs_paths (fs w)))) dirPath
                  fileNameWithoutExt fileExt srcFileName 1 in
  match found with
  | None => ret tt
  | Some newFileName =>
      try_catch (liftFs (moveFile srcFile (probePath dirPath newFileName)))
        (fun err => emit (ErrorLine TAG (errText "moveFile file failed" err)))
  end.

(** Lines 64-70: each conflict in the order of the list, its errors
    logged. *)
Definition moveConflictFiles (list : list ConflictFiles) : M World BusinessError unit :=
  for_each list (fun item =>
    try_catch (moveConflictFile (srcFile item) (destFile item))
      (fun err => emit (ErrorLine TAG (errText "MoveConflictFile failed" err)))).

(** Lines 49-71. *)
Definition moveRestFiles (path : string) : M World BusinessError unit :=
  let! _ := emit (LogLine TAG "Start to move rest files.") in
  let! list := try_catch
      (let! _ := liftFs (moveDir path documentPath 1) in
       let! _ := emit (InfoLine TAG "Move rest files succeed") in
       ret [])
      (fun err => if decide (code err = MOVE_ERR_CODE) then ret (data err)
                  else let! _ := emit (ErrorLine TAG (errText "move directory failed" err)) in
                       ret []) in
  moveConflictFiles list.

(** Lines 19-21. *)
Definition onBackup : M World BusinessError unit := emit (LogLine TAG "onBackup ok.").

Variable startRestore : Z -> string -> string -> string -> M World BusinessError unit.
Variable stringify : BundleVersion -> string.

(** The restore mode and source root chosen from the bundle version
    (line 27). *)
Definition isUpdate (bundleVersion : BundleVersion) : bool :=
  bool_decide (bv_name bundleVersion = "0.0.0.0" /\ bv_code bundleVersion = 0%Z).

(** Lines 23-38. *)
Definition onRestore (bundleVersion : BundleVersion) : M World BusinessError unit :=
  let! _ := emit (LogLine TAG ("onRestore ok " +:+ stringify bundleVersion)) in
  let! _ := emit (TimeStart (TAG +:+ " RESTORE")) in
  let! path := if isUpdate bundleVersion
               then let! _ := startRestore UPDATE_RESTORE galleryAppName mediaAppName cameraAppName in
                    ret backupPath
               else let! _ := startRestore CLONE_RESTORE galleryAppName mediaAppName cameraAppName in
                    ret backupClonePath in
  let! _ := emit (TimeEnd (TAG +:+ " RESTORE")) in
  let! _ := emit (TimeStart (TAG +:+ " MOVE REST FILES")) in
  let! _ := moveRestFiles path in
  emit (TimeEnd (TAG +:+ " MOVE REST FILES")).

(** What the prober answers on a world: the [accessSync] result, [false]
    when it throws. *)
Definition probeAnswer (f : F) (p : string) : bool :=
  match fst (accessSync p f) with Ok b => b | Throw _ => false end.

(** ** Running the operations *)

Lemma no_throw_emit l : no_throw (emit l).
Proof. apply no_throw_modify. Qed.
#[local] Hint Resolve no_throw_emit : js.

Lemma emit_run l w : emit l w = (Ok tt, mkWorld (fs w) (console w ++ [l])).
Proof. done. Qed.

Lemma liftFs_run {A} (c : M F BusinessError A) w :
  liftFs c w = (fst (c (fs w)), mkWorld (snd (c (fs w))) (console w)).
Proof. unfold liftFs. by destruct (c (fs w)). Qed.

Lemma isFileExist_no_throw p : no_throw (isFileExist p).
Proof. unfold isFileExist. solve_no_throw. Qed.

Lemma moveConflictFile_no_throw srcFile dstFile : no_throw (moveConflictFile srcFile dstFile).
Proof.
  unfold moveConflictFile. cbv zeta. destruct (splitExt _) as [ext base].
  apply no_throw_bind; [apply no_throw_get | intros w].
  apply no_throw_bind; [apply no_throw_probeLoop, isFileExist_no_throw | intros [r|]];
    solve_no_throw.
Qed.

Lemma moveConflictFiles_body_no_throw (item : ConflictFiles) :
  no_throw (try_catch (moveConflictFile (srcFile item) (destFile item))
              (fun err => emit (ErrorLine TAG (errText "MoveConflictFile failed" err)))).
Proof. solve_no_throw. Qed.

Lemma moveRestFiles_no_throw path : no_throw (moveRestFiles path).
Proof. unfold moveRestFiles, moveConflictFiles. solve_no_throw. Qed.

(** The first lines of [moveRestFiles]: the log line, then the bulk move
    and its outcome as the list of conflicts. *)
Lemma moveRestFiles_run path w :
  moveRestFiles path w =
    let w1 := mkWorld (fs w) (console w ++ [LogLine TAG "Start to move rest files."]) in
    match moveDir path documentPath 1 (fs w) with
    | (Ok _, f') =>
        moveConflictFiles [] (mkWorld f' (console w1 ++ [InfoLine TAG "Move rest files succeed"]))
    | (Throw e, f') =>
        if decide (code e = MOVE_ERR_CODE) then moveConflictFiles (data e) (mkWorld f' (console w1))
        else moveConflictFiles []
               (mkWorld f' (console w1 ++ [ErrorLine TAG (errText "move directory failed" e)]))
    end.
Proof.
  unfold moveRestFiles, bind, try_catch, liftFs, emit, modify, ret. simpl.
  destruct (moveDir path documentPath 1 (fs w)) as [[[]|e] f']; simpl; [done|].
  by case_decide.
Qed.

Context {Hlaws : FsLaws F}.

(** The prober contract: it never throws, answers [probeAnswer] and
    leaves the file system as it was. *)
Lemma isFileExist_answers p w :
  exists w', isFileExist p w = (Ok (probeAnswer (fs w) p), w') /\ fs w' = fs w.
Proof.
  unfold isFileExist, probeAnswer.
  pose proof (accessSync_state p (fs w)) as Hst.
  destruct (accessSync p (fs w)) as [[b|e] f'] eqn:E; simpl in Hst; subst f'.
  - exists (mkWorld (fs w) (console w)). rewrite (try_catch_ok _ _ _ b (mkWorld (fs w) (console w)));
      [done|]. by rewrite liftFs_run, E.
  - rewrite (try_catch_throw _ _ _ e (mkWorld (fs w) (console w))); [|by rewrite liftFs_run, E].
    eexists. done.
Qed.

Lemma probeAnswer_true f p : probeAnswer f p = true -> p ∈ fs_paths f.
Proof.
  unfold probeAnswer. destruct (fst (accessSync p f)) as [b|e] eqn:E; [|done].
  apply accessSync_truth in E. subst b. by intros ?%bool_decide_eq_true.
Qed.

(** One attempt of [fs.moveFile], its error caught and logged. *)
Lemma moveFile_step srcFile dest w1 :
  exists w', try_catch (liftFs (moveFile srcFile dest))
               (fun err => emit (ErrorLine TAG (errText "moveFile file failed" err))) w1
             = (Ok tt, w') /\
  ((srcFile ∈ fs_paths (fs w1) /\ fs_paths (fs w') = {[dest]} ∪ (fs_paths (fs w1) ∖ {[srcFile]}))
   \/ (fs w' = fs w1 /\
       exists e, last (console w') = Some (ErrorLine TAG (errText "moveFile file failed" e)))).
Proof.
  destruct (moveFile srcFile dest (fs w1)) as [[[]|e] f'] eqn:E.
  - pose proof (moveFile_ok _ _ _ _ E) as Hm.
    exists (mkWorld f' (console w1)). split; [|by left].
    apply try_catch_ok. by rewrite liftFs_run, E.
  - pose proof (moveFile_throw _ _ _ _ _ E) as ->.
    exists (mkWorld (fs w1) (console w1 ++ [ErrorLine TAG (errText "moveFile file failed" e)])).
    split.
    + rewrite (try_catch_throw _ _ _ e (mkWorld (fs w1) (console w1))); [done|].
      by rewrite liftFs_run, E.
    + right. split; [done|]. exists e. simpl. by rewrite last_snoc.
Qed.

(** [moveConflictFile] probes up to the first candidate its prober
    reports free, with the file system untouched, then moves there. *)
Lemma moveConflictFile_run srcFile dstFile w :
  exists k w1,
    probeAnswer (fs w) (probePath (dirPathOf dstFile) (nthName (fileNameOf srcFile) k)) = false /\
    (forall i, i < k ->
       probeAnswer (fs w) (probePath (dirPathOf dstFile) (nthName (fileNameOf srcFile) i)) = true) /\
    fs w1 = fs w /\
    moveConflictFile srcFile dstFile w =
      try_catch (liftFs (moveFile srcFile
                   (probePath (dirPathOf dstFile) (nthName (fileNameOf srcFile) k))))
        (fun err => emit (ErrorLine TAG (errText "moveFile file failed" err))) w1.
Proof.
  unfold moveConflictFile. cbv zeta.
  destruct (splitExt (fileNameOf srcFile)) as [ext base] eqn:Hs.
  rewrite (bind_ok _ _ w w w) by done.
  destruct (probeLoop_spec isFileExist fs probeAnswer isFileExist_answers
              (fileNameOf srcFile) ext base (dirPathOf dstFile) (fs_paths (fs w)) w Hs
              (probeAnswer_true (fs w))) as (k & w1 & Hrun & Hv & Hk & Hi).
  rewrite (bind_ok _ _ _ _ _ Hrun). exists k, w1. by split_and!.
Qed.

(** ** Properties of the conflict resolution *)

(** C1 (functional): [moveConflictFile] always completes without
    throwing; it chooses the first name [nthName n k] (the original
    name, then [base(1).ext], [base(2).ext], ...) that its prober
    reports free in the destination directory, every earlier one being
    reported taken; then either the move succeeds (the source existed,
    and the file system gains the new path and loses the source) or it
    fails, leaving the file system as it was and logging the error. *)
Theorem moveConflictFile_first_free srcFile dstFile w :
  exists k w',
    moveConflictFile srcFile dstFile w = (Ok tt, w') /\
    probeAnswer (fs w) (probePath (dirPathOf dstFile) (nthName (fileNameOf srcFile) k)) = false /\
    (forall i, i < k ->
       probeAnswer (fs w) (probePath (dirPathOf dstFile) (nthName (fileNameOf srcFile) i)) = true) /\
    ((srcFile ∈ fs_paths (fs w) /\
      fs_paths (fs w') = {[probePath (dirPathOf dstFile) (nthName (fileNameOf srcFile) k)]}
                         ∪ (fs_paths (fs w) ∖ {[srcFile]}))
     \/ (fs w' = fs w /\
         exists e, last (console w') = Some (ErrorLine TAG (errText "moveFile file failed" e)))).
Proof.
  destruct (moveConflictFile_run srcFile dstFile w) as (k & w1 & Hk & Hi & Hw1 & ->).
  destruct (moveFile_step srcFile
              (probePath (dirPathOf dstFile) (nthName (fileNameOf srcFile) k)) w1)
    as (w' & -> & Hm).
  rewrite Hw1 in Hm. by exists k, w'.
Qed.

(** C3 (safety): when [accessSync] answers on every path (no permission
    error), a conflict never overwrites: either nothing changed or the
    file went to a path that did not exist. *)
Theorem moveConflictFile_no_overwrite srcFile dstFile w w' :
  (forall p, exists b, fst (accessSync p (fs w)) = Ok b) ->
  moveConflictFile srcFile dstFile w = (Ok tt, w') ->
  fs w' = fs w \/
  exists dest, (dest ∉ fs_paths (fs w)) /\
               fs_paths (fs w') = {[dest]} ∪ (fs_paths (fs w) ∖ {[srcFile]}).
Proof.
  intros Hacc Hrun.
  destruct (moveConflictFile_run srcFile dstFile w) as (k & w1 & Hk & _ & Hw1 & Heq).
  set (dest := probePath (dirPathOf dstFile) (nthName (fileNameOf srcFile) k)) in *.
  destruct (moveFile_step srcFile dest w1) as (w'' & Heq' & Hm).
  rewrite Heq, Heq' in Hrun. injection Hrun as <-. rewrite Hw1 in Hm.
  destruct Hm as [[_ Hp] | [Hf _]]; [right | by left].
  exists dest. split; [|done].
  destruct (Hacc dest) as [b Hb]. unfold probeAnswer in Hk. rewrite Hb in Hk. subst b.
  apply accessSync_truth in Hb. intros Hin.
  rewrite bool_decide_eq_true_2 in Hb by done. discriminate.
Qed.

(** C14 (safety): when [accessSync] throws on the conflicting file's own
    name in the destination directory (permission denied) and a file is
    there, [isFileExist] reads the name as free, the loop stops at once and
    [moveFile] is called onto that existing path: if the move succeeds the
    file that was there is replaced. *)
Theorem access_error_overwrites srcFile dstFile w e :
  let dest := probePath (dirPathOf dstFile) (fileNameOf srcFile) in
  fst (accessSync dest (fs w)) = Throw e -> dest ∈ fs_paths (fs w) ->
  exists w', moveConflictFile srcFile dstFile w = (Ok tt, w') /\
    (fs w' = fs w \/ fs_paths (fs w') = {[dest]} ∪ (fs_paths (fs w) ∖ {[srcFile]})).
Proof.
  intros dest He _.
  destruct (moveConflictFile_run srcFile dstFile w) as (k & w1 & Hk & Hi & Hw1 & ->).
  assert (k = 0) as ->.
  { destruct k as [|k]; [done|]. specialize (Hi 0 ltac:(lia)).
    unfold probeAnswer in Hi. cbn [nthName] in Hi. fold dest in Hi. by rewrite He in Hi. }
  destruct (moveFile_step srcFile dest w1) as (w' & Hrun & Hm).
  exists w'. split; [exact Hrun|]. rewrite Hw1 in Hm.
  destruct Hm as [[_ Hp] | [Hf _]]; [by right | by left].
Qed.

(** A conflict whose own name is free in the
    destination directory keeps its name, so resolving again a list
    whose destinations were vacated adds no suffix. *)
Theorem moveConflictFile_keeps_free_name srcFile dstFile w :
  probeAnswer (fs w) (probePath (dirPathOf dstFile) (fileNameOf srcFile)) = false ->
  exists w', moveConflictFile srcFile dstFile w = (Ok tt, w') /\
    ((srcFile ∈ fs_paths (fs w) /\
      fs_paths (fs w') = {[probePath (dirPathOf dstFile) (fileNameOf srcFile)]}
                         ∪ (fs_paths (fs w) ∖ {[srcFile]}))
     \/ fs w' = fs w).
Proof.
  intros Hfree.
  destruct (moveConflictFile_run srcFile dstFile w) as (k & w1 & Hk & Hi & Hw1 & ->).
  destruct k as [|k]; [|specialize (Hi 0 ltac:(lia)); simpl in Hi; congruence].
  destruct (moveFile_step srcFile (probePath (dirPathOf dstFile) (fileNameOf srcFile)) w1)
    as (w' & Heq & Hm).
  exists w'. split; [exact Heq|]. rewrite Hw1 in Hm. destruct Hm as [Hm|[Hm _]]; auto.
Qed.

(** C16 (functional): the prober of lines 40-47 never throws and leaves
    the file system as it was; it answers what [accessSync] answers,
    which is the truth, and when [accessSync] throws it answers [false]
    and logs one error line with the error's message and code. *)
Theorem isFileExist_contract p w :
  exists w', isFileExist p w = (Ok (probeAnswer (fs w) p), w') /\ fs w' = fs w /\
    (probeAnswer (fs w) p = true -> p ∈ fs_paths (fs w)) /\
    (forall e, fst (accessSync p (fs w)) = Throw e ->
       probeAnswer (fs w) p = false /\
       console w' = console w ++ [ErrorLine TAG (errText "accessSync failed" e)]).
Proof.
  destruct (isFileExist_answers p w) as (w' & Hrun & Hw').
  exists w'. split_and!; [done|done|apply probeAnswer_true|].
  intros e He. unfold probeAnswer. rewrite He. split; [done|].
  pose proof (accessSync_state p (fs w)) as Hst.
  destruct (accessSync p (fs w)) as [r f'] eqn:E. simpl in He, Hst. subst r f'.
  unfold isFileExist in Hrun.
  rewrite (try_catch_throw _ _ _ e (mkWorld (fs w) (console w))) in Hrun;
    [|by rewrite liftFs_run, E].
  unfold probeAnswer in Hrun. rewrite E in Hrun. simpl in Hrun. by injection Hrun as <-.
Qed.

(** ** Properties of the batch *)

(** The conflict loop of lines 64-70 isolates failures: the
    loop over [l1 ++ l2] is the loop over [l1] followed by the loop over
    [l2] from whatever state [l1] left, whatever went wrong in [l1]. *)
Theorem moveConflictFiles_app l1 l2 w :
  moveConflictFiles (l1 ++ l2) w = moveConflictFiles l2 (snd (moveConflictFiles l1 w)).
Proof. apply for_each_app, moveConflictFiles_body_no_throw. Qed.

(** C5 (functional): when the bulk move fails with 13900015, the
    conflicts of [err.data] are resolved one by one in the order of the
    list by [moveConflictFile], from the state the bulk move left; the
    [catch] of line 67 never fires. *)
Theorem moveRestFiles_conflicts path w e f' :
  moveDir path documentPath 1 (fs w) = (Throw e, f') -> code e = MOVE_ERR_CODE ->
  moveRestFiles path w =
    for_each (data e) (fun item => moveConflictFile (srcFile item) (destFile item))
      (mkWorld f' (console w ++ [LogLine TAG "Start to move rest files."])).
Proof.
  intros Hd Hc. rewrite moveRestFiles_run, Hd, decide_True by done.
  apply for_each_ext. intros x s. apply try_catch_no_throw, moveConflictFile_no_throw.
Qed.

(** C6 (error): any other failure of the bulk move is logged and ends
    the move: no conflict is processed. *)
Theorem moveRestFiles_other_error path w e f' :
  moveDir path documentPath 1 (fs w) = (Throw e, f') -> code e <> MOVE_ERR_CODE ->
  moveRestFiles path w =
    (Ok tt, mkWorld f' (console w ++ [LogLine TAG "Start to move rest files.";
                                      ErrorLine TAG (errText "move directory failed" e)])).
Proof.
  intros Hd Hc. rewrite moveRestFiles_run, Hd, decide_False by done.
  simpl. by rewrite <- app_assoc.
Qed.

(** A bulk move that succeeds ends the move with the
    success line and no conflict processing. *)
Theorem moveRestFiles_success path w f' :
  moveDir path documentPath 1 (fs w) = (Ok tt, f') ->
  moveRestFiles path w =
    (Ok tt, mkWorld f' (console w ++ [LogLine TAG "Start to move rest files.";
                                      InfoLine TAG "Move rest files succeed"])).
Proof. intros Hd. rewrite moveRestFiles_run, Hd. simpl. by rewrite <- app_assoc. Qed.

(** ** Properties of [onRestore] *)

(** C11 (functional): once the native restore succeeds, [onRestore] moves
    the rest files from [backupPath] when the bundle version is
    ["0.0.0.0"] with code 0 (in-place upgrade) and from
    [backupClonePath] otherwise (device clone), having asked the native
    service for the matching mode, and completes with the timer lines
    around the two phases. *)
Theorem onRestore_dispatch bv w w1 :
  startRestore (if isUpdate bv then UPDATE_RESTORE else CLONE_RESTORE)
    galleryAppName mediaAppName cameraAppName
    (mkWorld (fs w) (console w ++ [LogLine TAG ("onRestore ok " +:+ stringify bv);
                                   TimeStart (TAG +:+ " RESTORE")])) = (Ok tt, w1) ->
  exists w2,
    moveRestFiles (if isUpdate bv then backupPath else backupClonePath)
      (mkWorld (fs w1) (console w1 ++ [TimeEnd (TAG +:+ " RESTORE");
                                       TimeStart (TAG +:+ " MOVE REST FILES")])) = (Ok tt, w2) /\
    onRestore bv w = (Ok tt, mkWorld (fs w2) (console w2 ++ [TimeEnd (TAG +:+ " MOVE REST FILES")])).
Proof.
  intros Hs.
  destruct (moveRestFiles_no_throw (if isUpdate bv then backupPath else backupClonePath)
              (mkWorld (fs w1) (console w1 ++ [TimeEnd (TAG +:+ " RESTORE");
                                               TimeStart (TAG +:+ " MOVE REST FILES")])))
    as ([] & w2 & Hm).
  exists w2. split; [done|].
  unfold onRestore. rewrite !(bind_ok _ _ _ _ _ (emit_run _ _)). simpl.
  rewrite <- app_assoc. simpl.
  destruct (isUpdate bv);
    rewrite (bind_ok _ _ _ _ _ (bind_ok_ret _ _ _ _ Hs)), !(bind_ok _ _ _ _ _ (emit_run _ _));
    simpl; rewrite <- app_assoc; simpl; by rewrite (bind_ok _ _ _ _ _ Hm).
Qed.

(** C15 (error): when the native restore rejects, [onRestore] rejects
    with the same error and moves no file. *)
Theorem onRestore_restore_fails bv w e w1 :
  startRestore (if isUpdate bv then UPDATE_RESTORE else CLONE_RESTORE)
    galleryAppName mediaAppName cameraAppName
    (mkWorld (fs w) (console w ++ [LogLine TAG ("onRestore ok " +:+ stringify bv);
                                   TimeStart (TAG +:+ " RESTORE")])) = (Throw e, w1) ->
  onRestore bv w = (Throw e, w1).
Proof.
  intros Hs. unfold onRestore. rewrite !(bind_ok _ _ _ _ _ (emit_run _ _)). simpl.
  rewrite <- app_assoc. simpl.
  destruct (isUpdate bv); by rewrite (bind_throw _ _ _ _ _ (bind_throw _ _ _ _ _ Hs)).
Qed.

(** C4 (error): the restore fails only when the native restore does:
    no file-system error escapes [onRestore]. *)
Theorem onRestore_no_throw bv :
  (forall mode a b c, no_throw (startRestore mode a b c)) -> no_throw (onRestore bv).
Proof.
  intros Hs. unfold onRestore. solve_no_throw; apply moveRestFiles_no_throw.
Qed.
End Ability.

(** C13 (roundtrip): the directory of [dstFile] and the last segment of
    a path give the path back when it has a slash; a path without a slash
    has the empty directory, so its file is moved to the root
    ["/" + name]. *)
Theorem dirPath_fileName_roundtrip d :
  probePath (dirPathOf d) (fileNameOf d) = if Js.has_char "/" d then d else "/" +:+ d.
Proof.
  unfold dirPathOf, fileNameOf. destruct (Js.has_char "/" d) eqn:Hd.
  - destruct (Js.join_init_last "/" d Hd) as (init & x & Hs & Hj).
    rewrite Hs, take_length_pred_app, lookup_last_index. exact Hj.
  - by rewrite Js.split_no_char.
Qed.
End MediaBackup.

(** * The spec's examples, on the executable file system *)
Module MediaBackupExamples.
Import MediaBackup.

Definition gworld (paths denied : list string) : @World GsetFs :=
  mkWorld (mkGsetFs (list_to_set paths) (list_to_set denied)) [].

(** The spec's example: conflicts [a/x.jpg -> b/x.jpg]
    and [a/y.png -> b/y.png] where only [b/x.jpg] exists: [x.jpg] goes to
    [b/x(1).jpg] and [y.png] to [b/y.png]. *)
Example spec_example_two_conflicts :
  fst (moveConflictFiles [mkConflict "a/x.jpg" "b/x.jpg"; mkConflict "a/y.png" "b/y.png"]
         (gworld ["a/x.jpg"; "a/y.png"; "b/x.jpg"] [])) = Ok tt /\
  files (fs (snd (moveConflictFiles [mkConflict "a/x.jpg" "b/x.jpg"; mkConflict "a/y.png" "b/y.png"]
                    (gworld ["a/x.jpg"; "a/y.png"; "b/x.jpg"] []))))
  = {[ "b/x.jpg"; "b/x(1).jpg"; "b/y.png" ]}.
Proof. split; vm_compute; reflexivity. Qed.

(** The names are chosen against the file system as the
    earlier conflicts left it: two [x.jpg] for the same directory get
    [x(1).jpg] and [x(2).jpg], nothing is overwritten. *)
Example same_name_conflicts :
  files (fs (snd (moveConflictFiles [mkConflict "a/x.jpg" "b/x.jpg"; mkConflict "c/x.jpg" "b/x.jpg"]
                    (gworld ["a/x.jpg"; "c/x.jpg"; "b/x.jpg"] []))))
  = {[ "b/x.jpg"; "b/x(1).jpg"; "b/x(2).jpg" ]}.
Proof. vm_compute. reflexivity. Qed.

(** A failing entry (its source is gone) is logged and the
    next entry is still moved; the batch completes. *)
Example failure_isolated :
  moveConflictFiles [mkConflict "a/gone.jpg" "b/gone.jpg"; mkConflict "a/y.png" "b/y.png"]
    (gworld ["a/y.png"; "b/gone.jpg"] [])
  = (Ok tt, mkWorld (mkGsetFs {[ "b/gone.jpg"; "b/y.png" ]} ∅)
              [ErrorLine TAG "moveFile file failed, message = No such file or directory; code = 13900002"]).
Proof. vm_compute. reflexivity. Qed.

(** The overwrite of the finding: [b/x.jpg] exists but cannot be probed. *)
Definition deniedWorld : @World GsetFs := gworld ["a/x.jpg"; "b/x.jpg"] ["b/x.jpg"].
Definition deniedDest : string := probePath (dirPathOf "b/x.jpg") (fileNameOf "a/x.jpg").

Lemma access_error_overwrites_witness :
  fst (accessSync deniedDest (fs deniedWorld)) = Throw (mkError EACCES "Permission denied" []) /\
  deniedDest ∈ fs_paths (fs deniedWorld) /\
  exists w', moveConflictFile "a/x.jpg" "b/x.jpg" deniedWorld = (Ok tt, w') /\
    (fs w' = fs deniedWorld \/
     fs_paths (fs w') = {[deniedDest]} ∪ (fs_paths (fs deniedWorld) ∖ {["a/x.jpg"]})).
Proof.
  assert (He : fst (accessSync deniedDest (fs deniedWorld))
               = Throw (mkError EACCES "Permission denied" [])) by (vm_compute; reflexivity).
  assert (Hin : deniedDest ∈ fs_paths (fs deniedWorld)) by (vm_compute; set_solver).
  split_and!; [exact He | exact Hin | exact (access_error_overwrites _ _ _ _ He Hin)].
Defined.

(** The whole restore move on concrete trees. *)
Definition fsR : GsetFs :=
  mkGsetFs {[ backupPath +:+ "x.jpg"; backupPath +:+ "y.png"; documentPath +:+ "/x.jpg" ]} ∅.
Definition errR : BusinessError :=
  mkError EEXIST "File exists" [mkConflict (backupPath +:+ "x.jpg") (documentPath +:+ "/x.jpg")].
Definition fsR' : GsetFs :=
  mkGsetFs {[ backupPath +:+ "x.jpg"; documentPath +:+ "/x.jpg"; documentPath +:+ "/y.png" ]} ∅.
Definition fsOk : GsetFs := mkGsetFs {[ backupPath +:+ "y.png" ]} ∅.
Definition fsOk' : GsetFs := mkGsetFs {[ documentPath +:+ "/y.png" ]} ∅.
Definition fsEmpty : GsetFs := mkGsetFs ∅ ∅.
Definition errNoent : BusinessError := mkError ENOENT "No such file or directory" [].

Definition restoreOk (_ : Z) (_ _ _ : string) : M (@World GsetFs) BusinessError unit := ret tt.
Definition restoreErr : BusinessError := mkError 13500001 "restore failed" [].
Definition restoreFails (_ : Z) (_ _ _ : string) : M (@World GsetFs) BusinessError unit :=
  throw restoreErr.
Definition stringify0 (bv : BundleVersion) : string := bv_name bv.
Definition upgrade : BundleVersion := mkBundleVersion 0 "0.0.0.0".

(** Witness of [moveConflictFile_first_free]. *)
Lemma moveConflictFile_first_free_witness :
  exists k w',
    moveConflictFile "a/x.jpg" "b/x.jpg" (gworld ["a/x.jpg"; "b/x.jpg"] []) = (Ok tt, w') /\
    probeAnswer (fs (gworld ["a/x.jpg"; "b/x.jpg"] []))
      (probePath (dirPathOf "b/x.jpg") (nthName (fileNameOf "a/x.jpg") k)) = false /\
    (forall i, i < k ->
       probeAnswer (fs (gworld ["a/x.jpg"; "b/x.jpg"] []))
         (probePath (dirPathOf "b/x.jpg") (nthName (fileNameOf "a/x.jpg") i)) = true) /\
    (("a/x.jpg" ∈ fs_paths (fs (gworld ["a/x.jpg"; "b/x.jpg"] [])) /\
      fs_paths (fs w') = {[probePath (dirPathOf "b/x.jpg") (nthName (fileNameOf "a/x.jpg") k)]}
                         ∪ (fs_paths (fs (gworld ["a/x.jpg"; "b/x.jpg"] [])) ∖ {["a/x.jpg"]}))
     \/ (fs w' = fs (gworld ["a/x.jpg"; "b/x.jpg"] []) /\
         exists e, last (console w') = Some (ErrorLine TAG (errText "moveFile file failed" e)))).
Proof. apply (moveConflictFile_first_free (F := GsetFs)). Defined.

(** Witness of [moveConflictFile_no_overwrite]. *)
Lemma moveConflictFile_no_overwrite_witness :
  (forall p, exists b, fst (accessSync p (fs (gworld ["a/x.jpg"; "b/x.jpg"] []))) = Ok b) /\
  exists w', moveConflictFile "a/x.jpg" "b/x.jpg" (gworld ["a/x.jpg"; "b/x.jpg"] []) = (Ok tt, w') /\
    (fs w' = fs (gworld ["a/x.jpg"; "b/x.jpg"] []) \/
     exists dest, (dest ∉ fs_paths (fs (gworld ["a/x.jpg"; "b/x.jpg"] []))) /\
       fs_paths (fs w') = {[dest]} ∪ (fs_paths (fs (gworld ["a/x.jpg"; "b/x.jpg"] [])) ∖ {["a/x.jpg"]})).
Proof.
  assert (Hacc : forall p, exists b, fst (accessSync p (fs (gworld ["a/x.jpg"; "b/x.jpg"] []))) = Ok b).
  { intros p. unfold accessSync; simpl. unfold gfs_accessSync.
    rewrite bool_decide_eq_false_2 by set_solver. by eexists. }
  split; [exact Hacc|]. eexists. split; [vm_compute; reflexivity|].
  apply (moveConflictFile_no_overwrite (F := GsetFs) "a/x.jpg" "b/x.jpg"); [exact Hacc|].
  vm_compute. reflexivity.
Defined.

(** Witness of [moveConflictFile_keeps_free_name]. *)
Lemma moveConflictFile_keeps_free_name_witness :
  probeAnswer (fs (gworld ["a/y.png"] [])) (probePath (dirPathOf "b/y.png") (fileNameOf "a/y.png")) = false /\
  exists w', moveConflictFile "a/y.png" "b/y.png" (gworld ["a/y.png"] []) = (Ok tt, w') /\
    (("a/y.png" ∈ fs_paths (fs (gworld ["a/y.png"] [])) /\
      fs_paths (fs w') = {[probePath (dirPathOf "b/y.png") (fileNameOf "a/y.png")]}
                         ∪ (fs_paths (fs (gworld ["a/y.png"] [])) ∖ {["a/y.png"]}))
     \/ fs w' = fs (gworld ["a/y.png"] [])).
Proof.
  split; [vm_compute; reflexivity|].
  apply (moveConflictFile_keeps_free_name (F := GsetFs)). vm_compute. reflexivity.
Defined.

(** Witness of [isFileExist_contract]. *)
Lemma isFileExist_contract_witness :
  exists w', isFileExist "b/x.jpg" (gworld ["b/x.jpg"] ["b/x.jpg"])
             = (Ok (probeAnswer (fs (gworld ["b/x.jpg"] ["b/x.jpg"])) "b/x.jpg"), w') /\
    fs w' = fs (gworld ["b/x.jpg"] ["b/x.jpg"]) /\
    (probeAnswer (fs (gworld ["b/x.jpg"] ["b/x.jpg"])) "b/x.jpg" = true ->
     "b/x.jpg" ∈ fs_paths (fs (gworld ["b/x.jpg"] ["b/x.jpg"]))) /\
    (forall e, fst (accessSync "b/x.jpg" (fs (gworld ["b/x.jpg"] ["b/x.jpg"]))) = Throw e ->
       probeAnswer (fs (gworld ["b/x.jpg"] ["b/x.jpg"])) "b/x.jpg" = false /\
       console w' = console (gworld ["b/x.jpg"] ["b/x.jpg"]) ++
                    [ErrorLine TAG (errText "accessSync failed" e)]).
Proof. apply (isFileExist_contract (F := GsetFs)). Defined.

(** Witness of [moveRestFiles_conflicts]. *)
Lemma moveRestFiles_conflicts_witness :
  moveDir backupPath documentPath 1 (fs (mkWorld fsR [])) = (Throw errR, fsR') /\
  code errR = MOVE_ERR_CODE /\
  moveRestFiles backupPath (mkWorld fsR []) =
    for_each (data errR) (fun item => moveConflictFile (srcFile item) (destFile item))
      (mkWorld fsR' (console (mkWorld fsR []) ++ [LogLine TAG "Start to move rest files."])).
Proof.
  assert (Hd : moveDir backupPath documentPath 1 (fs (mkWorld fsR [])) = (Throw errR, fsR'))
    by (vm_compute; reflexivity).
  split; [exact Hd|]. split; [reflexivity|].
  apply (moveRestFiles_conflicts (F := GsetFs) backupPath (mkWorld fsR []) errR fsR' Hd).
  reflexivity.
Defined.

(** Witness of [moveRestFiles_other_error]. *)
Lemma moveRestFiles_other_error_witness :
  moveDir backupPath documentPath 1 (fs (mkWorld fsEmpty [])) = (Throw errNoent, fsEmpty) /\
  code errNoent <> MOVE_ERR_CODE /\
  moveRestFiles backupPath (mkWorld fsEmpty []) =
    (Ok tt, mkWorld fsEmpty (console (mkWorld fsEmpty []) ++
               [LogLine TAG "Start to move rest files.";
                ErrorLine TAG (errText "move directory failed" errNoent)])).
Proof.
  assert (Hd : moveDir backupPath documentPath 1 (fs (mkWorld fsEmpty [])) = (Throw errNoent, fsEmpty))
    by (vm_compute; reflexivity).
  assert (Hc : code errNoent <> MOVE_ERR_CODE) by (vm_compute; discriminate).
  split; [exact Hd|]. split; [exact Hc|].
  exact (moveRestFiles_other_error (F := GsetFs) backupPath (mkWorld fsEmpty []) errNoent fsEmpty Hd Hc).
Defined.

(** Witness of [moveRestFiles_success]. *)
Lemma moveRestFiles_success_witness :
  moveDir backupPath documentPath 1 (fs (mkWorld fsOk [])) = (Ok tt, fsOk') /\
  moveRestFiles backupPath (mkWorld fsOk []) =
    (Ok tt, mkWorld fsOk' (console (mkWorld fsOk []) ++
               [LogLine TAG "Start to move rest files."; InfoLine TAG "Move rest files succeed"])).
Proof.
  assert (Hd : moveDir backupPath documentPath 1 (fs (mkWorld fsOk [])) = (Ok tt, fsOk'))
    by (vm_compute; reflexivity).
  split; [exact Hd|].
  exact (moveRestFiles_success (F := GsetFs) backupPath (mkWorld fsOk []) fsOk' Hd).
Defined.

(** Witness of [onRestore_dispatch]: an in-place upgrade restore. *)
Lemma onRestore_dispatch_witness :
  restoreOk (if isUpdate upgrade then UPDATE_RESTORE else CLONE_RESTORE)
    galleryAppName mediaAppName cameraAppName
    (mkWorld (fs (mkWorld fsOk [])) (console (mkWorld fsOk []) ++
       [LogLine TAG ("onRestore ok " +:+ stringify0 upgrade); TimeStart (TAG +:+ " RESTORE")]))
  = (Ok tt, mkWorld fsOk [LogLine TAG ("onRestore ok " +:+ stringify0 upgrade);
                          TimeStart (TAG +:+ " RESTORE")]) /\
  exists w2,
    moveRestFiles (if isUpdate upgrade then backupPath else backupClonePath)
      (mkWorld fsOk ([LogLine TAG ("onRestore ok " +:+ stringify0 upgrade);
                      TimeStart (TAG +:+ " RESTORE")] ++
                     [TimeEnd (TAG +:+ " RESTORE"); TimeStart (TAG +:+ " MOVE REST FILES")]))
      = (Ok tt, w2) /\
    onRestore restoreOk stringify0 upgrade (mkWorld fsOk [])
      = (Ok tt, mkWorld (fs w2) (console w2 ++ [TimeEnd (TAG +:+ " MOVE REST FILES")])).
Proof.
  assert (Hs : restoreOk (if isUpdate upgrade then UPDATE_RESTORE else CLONE_RESTORE)
    galleryAppName mediaAppName cameraAppName
    (mkWorld (fs (mkWorld fsOk [])) (console (mkWorld fsOk []) ++
       [LogLine TAG ("onRestore ok " +:+ stringify0 upgrade); TimeStart (TAG +:+ " RESTORE")]))
    = (Ok tt, mkWorld fsOk [LogLine TAG ("onRestore ok " +:+ stringify0 upgrade);
                            TimeStart (TAG +:+ " RESTORE")])) by reflexivity.
  split; [exact Hs|].
  exact (onRestore_dispatch (F := GsetFs) restoreOk stringify0 upgrade (mkWorld fsOk []) _ Hs).
Defined.

(** Witness of [onRestore_restore_fails]. *)
Lemma onRestore_restore_fails_witness :
  restoreFails (if isUpdate upgrade then UPDATE_RESTORE else CLONE_RESTORE)
    galleryAppName mediaAppName cameraAppName
    (mkWorld (fs (mkWorld fsOk [])) (console (mkWorld fsOk []) ++
       [LogLine TAG ("onRestore ok " +:+ stringify0 upgrade); TimeStart (TAG +:+ " RESTORE")]))
  = (Throw restoreErr, mkWorld fsOk [LogLine TAG ("onRestore ok " +:+ stringify0 upgrade);
                                      TimeStart (TAG +:+ " RESTORE")]) /\
  onRestore restoreFails stringify0 upgrade (mkWorld fsOk [])
  = (Throw restoreErr, mkWorld fsOk [LogLine TAG ("onRestore ok " +:+ stringify0 upgrade);
                                      TimeStart (TAG +:+ " RESTORE")]).
Proof.
  assert (Hs : restoreFails (if isUpdate upgrade then UPDATE_RESTORE else CLONE_RESTORE)
    galleryAppName mediaAppName cameraAppName
    (mkWorld (fs (mkWorld fsOk [])) (console (mkWorld fsOk []) ++
       [LogLine TAG ("onRestore ok " +:+ stringify0 upgrade); TimeStart (TAG +:+ " RESTORE")]))
    = (Throw restoreErr, mkWorld fsOk [LogLine TAG ("onRestore ok " +:+ stringify0 upgrade);
                                        TimeStart (TAG +:+ " RESTORE")])) by reflexivity.
  split; [exact Hs|].
  exact (onRestore_restore_fails (F := GsetFs) restoreFails stringify0 upgrade (mkWorld fsOk []) _ _ Hs).
Defined.

(** Witness of [onRestore_no_throw]. *)
Lemma onRestore_no_throw_witness :
  (forall mode a b c, no_throw (restoreOk mode a b c)) /\
  no_throw (onRestore (F := GsetFs) restoreOk stringify0 upgrade).
Proof.
  assert (Hs : forall mode a b c, no_throw (restoreOk mode a b c)) by (intros; apply no_throw_ret).
  split; [exact Hs|]. exact (onRestore_no_throw (F := GsetFs) restoreOk stringify0 upgrade Hs).
Defined.
End MediaBackupExamples.
