(* ===== verification/BackupSpec.v ===== *)
(** * The conflict resolution against its abstract specification

    [MediaBackup] runs the code of [moveRestFiles] and [moveConflictFile]
    step by step.  This file states what the conflict loop promises on the
    set of existing paths alone, without the console, the prober or the
    fuel: [resolves c X Y] says that the conflict [c] either left the paths
    [X] as they were (its [fs.moveFile] failed) or moved [srcFile c] to the
    first of its alternates [target c k] (the original name, then
    [base(1).ext], ...  in the directory of [destFile c]) that is not in
    [X], every earlier alternate being in [X]; [resolvesAll] chains it
    along [err.data].

    The refinement theorem shows that the code implements this relation
    on every file system whose [accessSync] answers every path (no
    permission error, and [fs.moveFile] keeps it so); without that
    hypothesis [MediaBackupExamples.access_error_overwrites] shows a file
    replaced.  From the specification alone follow the invariant of the
    batch (no path other than a source is lost, the number of paths is
    unchanged, every new path is an alternate of a conflict).  The bound on
    the loop's counter comes first: it holds on every file system. *)

From S2P Require Import Prelude JsString FileSystem UniqueName MediaBackup.
Import UniqueName MediaBackup.
Local Set Warnings "-clear-no-such-hyp".

Module BackupSpec.

(** The [k]-th path tried for a conflict: lines 74-77 and 89. *)
Definition target (c : ConflictFiles) (k : nat) : string :=
  probePath (dirPathOf (destFile c)) (nthName (fileNameOf (srcFile c)) k).

(** The abstract state: the existing paths and the console. *)
Record Abs := mkAbs { paths : gset string; log : list ConsoleLine }.

(** The effect of one conflict: its source moved to its first free
    alternate, or left in place with the failure of [fs.moveFile] logged
    (lines 97-101). *)
Inductive resolves (c : ConflictFiles) (A : Abs) : Abs -> Prop :=
| resolves_moved k :
    srcFile c ∈ paths A -> target c k ∉ paths A -> (forall i, i < k -> target c i ∈ paths A) ->
    resolves c A (mkAbs ({[target c k]} ∪ (paths A ∖ {[srcFile c]})) (log A))
| resolves_failed e :
    resolves c A (mkAbs (paths A) (log A ++ [ErrorLine TAG (errText "moveFile file failed" e)])).

(** The effect of the conflict list, in its order. *)
Inductive resolvesAll : list ConflictFiles -> Abs -> Abs -> Prop :=
| resolvesAll_nil A : resolvesAll [] A A
| resolvesAll_cons c l A B C :
    resolves c A B -> resolvesAll l B C -> resolvesAll (c :: l) A C.

(** The sources of a conflict list. *)
Definition sources (l : list ConflictFiles) : gset string := list_to_set (srcFile <$> l).

(** ** Consequences of the specification *)

Lemma resolves_size c A B : resolves c A B -> size (paths B) = size (paths A).
Proof.
  destruct 1 as [k Hs Ht _|]; [|done]. cbn.
  assert (1 <= size (paths A))
    by (rewrite <- (size_singleton (C := gset string) (srcFile c)); apply subseteq_size; set_solver).
  rewrite size_union, size_difference, !size_singleton by set_solver. lia.
Qed.

Lemma resolves_keeps c A B : resolves c A B -> paths A ∖ {[srcFile c]} ⊆ paths B.
Proof. destruct 1; cbn; set_solver. Qed.

Lemma resolves_new c A B p :
  resolves c A B -> p ∈ paths B -> p ∉ paths A -> exists k, p = target c k.
Proof. destruct 1 as [k|]; cbn; [|done]. intros Hp Hn. exists k. set_solver. Qed.

Lemma resolvesAll_size l A B : resolvesAll l A B -> size (paths B) = size (paths A).
Proof. induction 1 as [|c l A B C H _ IH]; [done|]. rewrite IH. by apply resolves_size in H. Qed.

Lemma resolvesAll_keeps l A B : resolvesAll l A B -> paths A ∖ sources l ⊆ paths B.
Proof.
  unfold sources. induction 1 as [|c l A B C H _ IH]; [set_solver|].
  apply resolves_keeps in H. cbn. set_solver.
Qed.

Lemma resolvesAll_new l A B p :
  resolvesAll l A B -> p ∈ paths B -> p ∉ paths A -> exists c k, c ∈ l /\ p = target c k.
Proof.
  induction 1 as [|c l A B C H _ IH]; [done|]. intros Hz Hx.
  destruct (decide (p ∈ paths B)) as [Hy|Hy].
  - destruct (resolves_new c A B p H Hy Hx) as [k ->]. exists c, k. split; [left|done].
  - destruct (IH Hz Hy) as (c' & k & Hc & ->). exists c', k. split; [by right|done].
Qed.

(** ** The loop counter

    [Number.MAX_SAFE_INTEGER]: the integers a JavaScript [number] holds
    exactly, so [count++] is exact below it. *)
Definition MAX_SAFE_INTEGER : Z := 2 ^ 53 - 1.

(** C9 (bounds): whatever the file system and its probe errors, the
    [while] loop of [moveConflictFile] stops after [k] collisions with [k]
    no larger than the number of existing paths, since the [k] names it
    rejected are pairwise distinct existing paths; it then calls
    [fs.moveFile] on the [k]-th name from a world whose file system it did
    not change.  Its [count], which ends at [k + 1], stays an exact
    JavaScript integer on any file system with fewer than [2^53 - 1]
    paths. *)
Theorem moveConflictFile_count_bound {F} `{FsLaws F} srcFile dstFile w :
  exists k w1, k <= size (fs_paths (fs w)) /\ fs w1 = fs w /\
    (Z.of_nat (size (fs_paths (fs w))) < MAX_SAFE_INTEGER -> Z.of_nat (S k) <= MAX_SAFE_INTEGER)%Z /\
    moveConflictFile srcFile dstFile w =
      try_catch (liftFs (moveFile srcFile
                   (probePath (dirPathOf dstFile) (nthName (fileNameOf srcFile) k))))
        (fun err => emit (ErrorLine TAG (errText "moveFile file failed" err))) w1.
Proof.
  destruct (moveConflictFile_run srcFile dstFile w) as (k & w1 & _ & Hi & Hw1 & Hrun).
  assert (Hle : k <= size (fs_paths (fs w))).
  { apply (inj_range_size (fun i => probePath (dirPathOf dstFile) (nthName (fileNameOf srcFile) i))
             _ 0 k); [apply probePath_inj|].
    intros i Hlt. apply probeAnswer_true, Hi. lia. }
  exists k, w1. split_and!; [done | done | lia | done].
Qed.

Section Refinement.
Context {F : Type} `{!FsOps F} `{!FsLaws F}.

(** A file system on which [accessSync] answers every path. *)
Definition probesAnswer (f : F) : Prop := forall p, exists b, fst (accessSync p f) = Ok b.

(** A move keeps the probes answering. *)
Hypothesis moveFile_probesAnswer :
  forall src dst f f', probesAnswer f -> moveFile src dst f = (Ok tt, f') -> probesAnswer f'.

(** On such a file system a path reported free does not exist. *)
Lemma probeAnswer_false f p : probesAnswer f -> probeAnswer f p = false -> p ∉ fs_paths f.
Proof.
  intros Hp Hf Hin. destruct (Hp p) as [b Hb]. unfold probeAnswer in Hf. rewrite Hb in Hf.
  subst b. apply accessSync_truth in Hb. rewrite bool_decide_eq_true_2 in Hb by done. discriminate.
Qed.

(** The abstraction of a world. *)
Definition abs (w : @World F) : Abs := mkAbs (fs_paths (fs w)) (console w).

(** A prober that answers without logging: what [isFileExist] is on a
    file system whose probes answer. *)
Definition quietProbe (p : string) : M (@World F) BusinessError bool :=
  fun w => (Ok (probeAnswer (fs w) p), w).

Lemma isFileExist_quiet p w : probesAnswer (fs w) -> isFileExist p w = quietProbe p w.
Proof.
  intros Hp. destruct (Hp p) as [b Hb]. pose proof (accessSync_state p (fs w)) as Hst.
  destruct (accessSync p (fs w)) as [r f'] eqn:E. cbn in Hb, Hst. subst r f'.
  unfold isFileExist, quietProbe, probeAnswer. rewrite E. cbn.
  rewrite (try_catch_ok _ _ _ b w); [done|]. rewrite liftFs_run, E. by destruct w.
Qed.

Lemma probeLoop_quiet fuel dirPath base ext name count w :
  probesAnswer (fs w) ->
  probeLoop isFileExist fuel dirPath base ext name count w =
  probeLoop quietProbe fuel dirPath base ext name count w.
Proof.
  intros Hp. revert name count. induction fuel as [|fuel IH]; intros name count; [done|].
  cbn [probeLoop]. unfold bind. rewrite isFileExist_quiet by done. cbn.
  destruct (probeAnswer (fs w) _); [apply IH|done].
Qed.

(** On a file system whose probes answer, [moveConflictFile] probes
    without logging and moves to the first alternate reported free. *)
Lemma moveConflictFile_quiet c w :
  probesAnswer (fs w) ->
  exists k, probeAnswer (fs w) (target c k) = false /\
    (forall i, i < k -> probeAnswer (fs w) (target c i) = true) /\
    moveConflictFile (srcFile c) (destFile c) w =
      try_catch (liftFs (moveFile (srcFile c) (target c k)))
        (fun err => emit (ErrorLine TAG (errText "moveFile file failed" err))) w.
Proof.
  intros Hp. unfold moveConflictFile. cbv zeta.
  destruct (splitExt (fileNameOf (srcFile c))) as [ext base] eqn:Hs.
  rewrite (bind_ok _ _ w w w) by done. unfold bind at 1. rewrite probeLoop_quiet by done.
  destruct (probeLoop_spec quietProbe id (fun w p => probeAnswer (fs w) p)
              (fun p w => ex_intro _ w (conj eq_refl eq_refl))
              (fileNameOf (srcFile c)) ext base (dirPathOf (destFile c)) (fs_paths (fs w)) w Hs
              (probeAnswer_true (fs w))) as (k & w1 & Hrun & Hv & Hk & Hi).
  cbv [id] in Hv. subst w1. rewrite Hrun. by exists k.
Qed.

(** One conflict refines [resolves]. *)
Lemma moveConflictFile_resolves c w :
  probesAnswer (fs w) ->
  exists w', moveConflictFile (srcFile c) (destFile c) w = (Ok tt, w') /\
    probesAnswer (fs w') /\ resolves c (abs w) (abs w').
Proof.
  intros Hp. destruct (moveConflictFile_quiet c w Hp) as (k & Hk & Hi & ->).
  destruct (moveFile (srcFile c) (target c k) (fs w)) as [[[]|e] f'] eqn:E.
  - exists (mkWorld f' (console w)).
    rewrite (try_catch_ok _ _ _ tt (mkWorld f' (console w))) by (by rewrite liftFs_run, E).
    destruct (moveFile_ok _ _ _ _ E) as [Hs Hm]. unfold abs. cbn [fs console]. rewrite Hm.
    split_and!; [done | by eapply moveFile_probesAnswer |].
    apply resolves_moved; [done | by apply probeAnswer_false |].
    intros i Hlt. apply probeAnswer_true, Hi, Hlt.
  - pose proof (moveFile_throw _ _ _ _ _ E) as ->.
    exists (mkWorld (fs w) (console w ++ [ErrorLine TAG (errText "moveFile file failed" e)])).
    rewrite (try_catch_throw _ _ _ e (mkWorld (fs w) (console w))) by (by rewrite liftFs_run, E).
    split_and!; [done | done | apply resolves_failed].
Qed.

(** The conflict loop refines [resolvesAll]. *)
Lemma moveConflictFiles_resolvesAll l w :
  probesAnswer (fs w) ->
  exists w', moveConflictFiles l w = (Ok tt, w') /\
    probesAnswer (fs w') /\ resolvesAll l (abs w) (abs w').
Proof.
  revert w. induction l as [|c l IH]; intros w Hp.
  - exists w. split_and!; [done | done | constructor].
  - destruct (moveConflictFile_resolves c w Hp) as (w1 & H1 & Hp1 & R1).
    destruct (IH w1 Hp1) as (w2 & H2 & Hp2 & R2).
    exists w2. split_and!; [| done | by econstructor].
    unfold moveConflictFiles. cbn [for_each].
    rewrite (bind_ok _ _ _ tt w1) by (by apply try_catch_ok). exact H2.
Qed.

(** C7 (refinement): when the bulk [fs.moveDir] of [moveRestFiles] fails
    with 13900015 and leaves a file system whose probes answer, the move
    completes, and from the state after its first log line its effect on
    the existing paths and the console is one the specification
    [resolvesAll] allows for the conflicts of [err.data]: each, in order,
    is moved to its first alternate not yet taken, or stays in place with
    its [moveFile] failure logged. *)
Theorem moveRestFiles_refines path w e f' :
  moveDir path documentPath 1 (fs w) = (Throw e, f') -> code e = MOVE_ERR_CODE ->
  probesAnswer f' ->
  exists w', moveRestFiles path w = (Ok tt, w') /\
    resolvesAll (data e) (mkAbs (fs_paths f') (console w ++ [LogLine TAG "Start to move rest files."]))
      (abs w').
Proof.
  intros Hd Hc Hp. rewrite moveRestFiles_run, Hd, decide_True by done.
  destruct (moveConflictFiles_resolvesAll (data e)
              (mkWorld f' (console w ++ [LogLine TAG "Start to move rest files."])) Hp)
    as (w' & Hrun & _ & R).
  by exists w'.
Qed.

(** C8 (invariant): on a file system whose probes answer, the conflict
    loop loses no file: every path that is not a source of the list is
    still there, the number of paths is unchanged (nothing is
    overwritten), and every new path is an alternate, in its destination
    directory, of a conflict of the list. *)
Theorem moveConflictFiles_no_loss l w :
  probesAnswer (fs w) ->
  exists w', moveConflictFiles l w = (Ok tt, w') /\
    fs_paths (fs w) ∖ sources l ⊆ fs_paths (fs w') /\
    size (fs_paths (fs w')) = size (fs_paths (fs w)) /\
    (forall p, p ∈ fs_paths (fs w') -> p ∉ fs_paths (fs w) ->
       exists c k, c ∈ l /\ p = target c k).
Proof.
  intros Hp. destruct (moveConflictFiles_resolvesAll l w Hp) as (w' & Hrun & _ & R).
  exists w'. split_and!; [done | exact (resolvesAll_keeps _ _ _ R) | exact (resolvesAll_size _ _ _ R) |].
  intros p. exact (resolvesAll_new _ _ _ p R).
Qed.
End Refinement.

End BackupSpec.

Module BackupSpecWitness.
Import BackupSpec MediaBackupExamples.

Lemma gset_probesAnswer (f : GsetFs) : denied f = ∅ -> probesAnswer f.
Proof.
  intros Hd p. unfold accessSync; simpl. unfold gfs_accessSync.
  rewrite bool_decide_eq_false_2 by set_solver. by eexists.
Qed.

Lemma gset_moveFile_probesAnswer :
  forall src dst (f f' : GsetFs), probesAnswer f -> moveFile src dst f = (Ok tt, f') -> probesAnswer f'.
Proof.
  intros src dst f f' Hp. unfold moveFile; simpl. unfold gfs_moveFile.
  case_bool_decide; [|done]. intros [= <-] p. destruct (Hp p) as [b Hb].
  unfold accessSync in *; cbn in *. unfold gfs_accessSync in *. cbn in *.
  destruct (bool_decide (p ∈ denied f)); [discriminate | by eexists].
Qed.

(** Witness of the refinement: the restore tree [fsR] of
    [MediaBackupExamples], whose bulk move leaves one conflict. *)
Lemma moveRestFiles_refines_witness :
  (forall src dst (f f' : GsetFs), probesAnswer f -> moveFile src dst f = (Ok tt, f') -> probesAnswer f') /\
  moveDir backupPath documentPath 1 (fs (mkWorld fsR [])) = (Throw errR, fsR') /\
  code errR = MOVE_ERR_CODE /\ probesAnswer fsR' /\
  exists w', moveRestFiles backupPath (mkWorld fsR []) = (Ok tt, w') /\
    resolvesAll (data errR)
      (mkAbs (fs_paths fsR') (console (mkWorld fsR []) ++ [LogLine TAG "Start to move rest files."]))
      (abs w').
Proof.
  assert (Hd : moveDir backupPath documentPath 1 (fs (mkWorld fsR [])) = (Throw errR, fsR'))
    by (vm_compute; reflexivity).
  assert (Hp : probesAnswer fsR') by (apply gset_probesAnswer; reflexivity).
  split_and!; [exact gset_moveFile_probesAnswer | exact Hd | reflexivity | exact Hp |].
  exact (moveRestFiles_refines gset_moveFile_probesAnswer backupPath (mkWorld fsR []) errR fsR'
           Hd eq_refl Hp).
Defined.

(** Witness of the invariant: the spec's two conflicts. *)
Lemma moveConflictFiles_no_loss_witness :
  (forall src dst (f f' : GsetFs), probesAnswer f -> moveFile src dst f = (Ok tt, f') -> probesAnswer f') /\
  probesAnswer (fs (gworld ["a/x.jpg"; "a/y.png"; "b/x.jpg"] [])) /\
  exists w', moveConflictFiles [mkConflict "a/x.jpg" "b/x.jpg"; mkConflict "a/y.png" "b/y.png"]
               (gworld ["a/x.jpg"; "a/y.png"; "b/x.jpg"] []) = (Ok tt, w') /\
    fs_paths (fs (gworld ["a/x.jpg"; "a/y.png"; "b/x.jpg"] []))
      ∖ sources [mkConflict "a/x.jpg" "b/x.jpg"; mkConflict "a/y.png" "b/y.png"] ⊆ fs_paths (fs w') /\
    size (fs_paths (fs w')) = size (fs_paths (fs (gworld ["a/x.jpg"; "a/y.png"; "b/x.jpg"] []))) /\
    (forall p, p ∈ fs_paths (fs w') -> p ∉ fs_paths (fs (gworld ["a/x.jpg"; "a/y.png"; "b/x.jpg"] [])) ->
       exists c k, c ∈ [mkConflict "a/x.jpg" "b/x.jpg"; mkConflict "a/y.png" "b/y.png"] /\ p = target c k).
Proof.
  assert (Hp : probesAnswer (fs (gworld ["a/x.jpg"; "a/y.png"; "b/x.jpg"] [])))
    by (apply gset_probesAnswer; reflexivity).
  split_and!; [exact gset_moveFile_probesAnswer | exact Hp |].
  exact (moveConflictFiles_no_loss gset_moveFile_probesAnswer _ _ Hp).
Defined.
(** Witness of the bound: the spec's [x.jpg] conflict on the gset file
    system, whose laws hold. *)
Lemma moveConflictFile_count_bound_witness :
  FsLaws GsetFs /\
  exists k w1, k <= size (fs_paths (fs (gworld ["a/x.jpg"; "b/x.jpg"] []))) /\
    fs w1 = fs (gworld ["a/x.jpg"; "b/x.jpg"] []) /\
    (Z.of_nat (size (fs_paths (fs (gworld ["a/x.jpg"; "b/x.jpg"] [])))) < MAX_SAFE_INTEGER ->
     Z.of_nat (S k) <= MAX_SAFE_INTEGER)%Z /\
    moveConflictFile "a/x.jpg" "b/x.jpg" (gworld ["a/x.jpg"; "b/x.jpg"] []) =
      try_catch (liftFs (moveFile "a/x.jpg"
                   (probePath (dirPathOf "b/x.jpg") (nthName (fileNameOf "a/x.jpg") k))))
        (fun err => emit (ErrorLine TAG (errText "moveFile file failed" err))) w1.
Proof.
  split; [exact gset_fs_laws|].
  exact (moveConflictFile_count_bound (F := GsetFs) "a/x.jpg" "b/x.jpg" _).
Defined.
End BackupSpecWitness.
