(* ===== verification/ImageEnums.v ===== *)
(** * The enumerations of the image typings

    [src/interfaces/kits/js/@ohos.multimedia.image.d.ts] declares six
    enums.  Each is a Module here with the enum as an inductive type whose
    constructors are the members, in the order of the source, and [value]
    giving the member's value.  The five numeric enums also get the reverse
    mapping that TypeScript compiles into every numeric enum object
    ([E[E.A = 0] = "A"]): [ofValue n] is the member whose value is [n], the
    last one when several share it.  The string enum [PropertyKey] has no
    reverse mapping in TypeScript and gets none here.

    The theorems: the numeric values are pairwise distinct, so the reverse
    mapping inverts [value]; which numbers are not members (the gap at 1 in
    [PixelMapFormat], 4 in [ImageFormat], which the sample camera service
    passes as an image format); and the one collision of the string enum:
    [ISO_SPEED] and [ISO_SPEED_RATINGS] both stand for ["ISOSpeedRatings"]. *)

From S2P Require Import Prelude.
Local Open Scope Z_scope.

(** ** The reverse mapping of a numeric enum *)

Section TsEnum.
Context {E : Type} `{EqDecision E} `{Finite E}.

(** [E[n]]: the compiled enum object is built member after member, so the
    last member with value [n] is the one read back. *)
Definition reverseLookup (value : E -> Z) (n : Z) : option E :=
  last (filter (fun x => value x = n) (enum E)).

Lemma reverseLookup_sound value n x : reverseLookup value n = Some x -> value x = n.
Proof.
  unfold reverseLookup. intros Hl.
  apply last_Some_elem_of in Hl. by apply list_elem_of_filter in Hl as [? _].
Qed.

Lemma reverseLookup_value value x : Inj eq eq value -> reverseLookup value (value x) = Some x.
Proof.
  intros Hinj. unfold reverseLookup.
  rewrite (filter_unique _ _ x); [done | apply NoDup_enum | apply elem_of_enum |].
  intros y. split; [apply Hinj | by intros ->].
Qed.

(** With pairwise distinct values the reverse mapping inverts [value]. *)
Lemma reverseLookup_spec value n x :
  Inj eq eq value -> reverseLookup value n = Some x <-> value x = n.
Proof.
  intros Hinj. split; [apply reverseLookup_sound|].
  intros <-. by apply reverseLookup_value.
Qed.

(** [reverseLookup] is [None] exactly off the values of the members. *)
Lemma reverseLookup_None value n :
  reverseLookup value n = None <-> forall x, value x <> n.
Proof.
  unfold reverseLookup. rewrite last_None. split.
  - intros Hf x Hx. assert (Hin : x ∈ filter (fun x => value x = n) (enum E))
      by (apply list_elem_of_filter; split; [done | apply elem_of_enum]).
    rewrite Hf in Hin. by apply not_elem_of_nil in Hin.
  - intros Hn. apply filter_none. intros y _ Hy. by apply (Hn y).
Qed.
End TsEnum.

(** Lines 41-194. *)
Module PixelMapFormat.
Inductive PixelMapFormat :=
| UNKNOWN | RGB_565 | RGBA_8888 | BGRA_8888 | RGB_888 | ALPHA_8 | RGBA_F16 | NV21 | NV12.

Definition value (f : PixelMapFormat) : Z :=
  match f with
  | UNKNOWN => 0 | RGB_565 => 2 | RGBA_8888 => 3 | BGRA_8888 => 4 | RGB_888 => 5
  | ALPHA_8 => 6 | RGBA_F16 => 7 | NV21 => 8 | NV12 => 9
  end.

#[global] Instance eq_dec : EqDecision PixelMapFormat.
Proof. solve_decision. Defined.
#[global] Instance finite : Finite PixelMapFormat.
Proof. solve_enum_finite [UNKNOWN; RGB_565; RGBA_8888; BGRA_8888; RGB_888; ALPHA_8; RGBA_F16; NV21; NV12]. Defined.

Definition ofValue (n : Z) : option PixelMapFormat := reverseLookup value n.

Lemma PixelMapFormat_value_inj : Inj eq eq value.
Proof. intros [] [] H; simpl in H; congruence. Qed.

Lemma PixelMapFormat_ofValue_spec n x : ofValue n = Some x <-> value x = n.
Proof. apply reverseLookup_spec, PixelMapFormat_value_inj. Qed.

(** The components each member's documentation lists, from the higher- to
    the lower-order bits, with their widths; [None] where the documentation
    gives no per-pixel layout. *)
Definition documentedComponents (f : PixelMapFormat) : option (list (string * Z)) :=
  match f with
  | UNKNOWN => None
  | RGB_565 => Some [("R", 5); ("G", 6); ("B", 5)]
  | RGBA_8888 => Some [("B", 8); ("G", 8); ("R", 8); ("A", 8)]
  | BGRA_8888 => Some [("B", 8); ("G", 8); ("R", 8); ("A", 8)]
  | RGB_888 => Some [("R", 8); ("G", 8); ("B", 8)]
  | ALPHA_8 => Some [("ALPHA", 8)]
  | RGBA_F16 => Some [("B", 8); ("G", 8); ("R", 8); ("A", 8)]
  | NV21 | NV12 => None
  end.

(** The bits per pixel each member's documentation states. *)
Definition documentedBits (f : PixelMapFormat) : option Z :=
  match f with
  | UNKNOWN | NV21 | NV12 => None
  | RGB_565 => Some 16
  | RGBA_8888 | BGRA_8888 | RGBA_F16 => Some 32
  | RGB_888 => Some 24
  | ALPHA_8 => Some 8
  end.
End PixelMapFormat.

(** Lines 262-775. *)
Module PropertyKey.
Inductive PropertyKey :=
| BITS_PER_SAMPLE
| ORIENTATION
| IMAGE_LENGTH
| IMAGE_WIDTH
| GPS_LATITUDE
| GPS_LONGITUDE
| GPS_LATITUDE_REF
| GPS_LONGITUDE_REF
| DATE_TIME_ORIGINAL
| EXPOSURE_TIME
| SCENE_TYPE
| ISO_SPEED_RATINGS
| F_NUMBER
| DATE_TIME
| GPS_TIME_STAMP
| GPS_DATE_STAMP
| IMAGE_DESCRIPTION
| MAKE
| MODEL
| PHOTO_MODE
| SENSITIVITY_TYPE
| STANDARD_OUTPUT_SENSITIVITY
| RECOMMENDED_EXPOSURE_INDEX
| ISO_SPEED
| APERTURE_VALUE
| EXPOSURE_BIAS_VALUE
| METERING_MODE
| LIGHT_SOURCE
| FLASH
| FOCAL_LENGTH
| USER_COMMENT
| PIXEL_X_DIMENSION
| PIXEL_Y_DIMENSION
| WHITE_BALANCE
| FOCAL_LENGTH_IN_35_MM_FILM
| CAPTURE_MODE
| PHYSICAL_APERTURE
| ROLL_ANGLE
| PITCH_ANGLE
| SCENE_FOOD_CONF
| SCENE_STAGE_CONF
| SCENE_BLUE_SKY_CONF
| SCENE_GREEN_PLANT_CONF
| SCENE_BEACH_CONF
| SCENE_SNOW_CONF
| SCENE_SUNSET_CONF
| SCENE_FLOWERS_CONF
| SCENE_NIGHT_CONF
| SCENE_TEXT_CONF
| FACE_COUNT
| FOCUS_MODE.

Definition value (k : PropertyKey) : string :=
  match k with
  | BITS_PER_SAMPLE => "BitsPerSample"
  | ORIENTATION => "Orientation"
  | IMAGE_LENGTH => "ImageLength"
  | IMAGE_WIDTH => "ImageWidth"
  | GPS_LATITUDE => "GPSLatitude"
  | GPS_LONGITUDE => "GPSLongitude"
  | GPS_LATITUDE_REF => "GPSLatitudeRef"
  | GPS_LONGITUDE_REF => "GPSLongitudeRef"
  | DATE_TIME_ORIGINAL => "DateTimeOriginal"
  | EXPOSURE_TIME => "ExposureTime"
  | SCENE_TYPE => "SceneType"
  | ISO_SPEED_RATINGS => "ISOSpeedRatings"
  | F_NUMBER => "FNumber"
  | DATE_TIME => "DateTime"
  | GPS_TIME_STAMP => "GPSTimeStamp"
  | GPS_DATE_STAMP => "GPSDateStamp"
  | IMAGE_DESCRIPTION => "ImageDescription"
  | MAKE => "Make"
  | MODEL => "Model"
  | PHOTO_MODE => "PhotoMode"
  | SENSITIVITY_TYPE => "SensitivityType"
  | STANDARD_OUTPUT_SENSITIVITY => "StandardOutputSensitivity"
  | RECOMMENDED_EXPOSURE_INDEX => "RecommendedExposureIndex"
  | ISO_SPEED => "ISOSpeedRatings"
  | APERTURE_VALUE => "ApertureValue"
  | EXPOSURE_BIAS_VALUE => "ExposureBiasValue"
  | METERING_MODE => "MeteringMode"
  | LIGHT_SOURCE => "LightSource"
  | FLASH => "Flash"
  | FOCAL_LENGTH => "FocalLength"
  | USER_COMMENT => "UserComment"
  | PIXEL_X_DIMENSION => "PixelXDimension"
  | PIXEL_Y_DIMENSION => "PixelYDimension"
  | WHITE_BALANCE => "WhiteBalance"
  | FOCAL_LENGTH_IN_35_MM_FILM => "FocalLengthIn35mmFilm"
  | CAPTURE_MODE => "HwMnoteCaptureMode"
  | PHYSICAL_APERTURE => "HwMnotePhysicalAperture"
  | ROLL_ANGLE => "HwMnoteRollAngle"
  | PITCH_ANGLE => "HwMnotePitchAngle"
  | SCENE_FOOD_CONF => "HwMnoteSceneFoodConf"
  | SCENE_STAGE_CONF => "HwMnoteSceneStageConf"
  | SCENE_BLUE_SKY_CONF => "HwMnoteSceneBlueSkyConf"
  | SCENE_GREEN_PLANT_CONF => "HwMnoteSceneGreenPlantConf"
  | SCENE_BEACH_CONF => "HwMnoteSceneBeachConf"
  | SCENE_SNOW_CONF => "HwMnoteSceneSnowConf"
  | SCENE_SUNSET_CONF => "HwMnoteSceneSunsetConf"
  | SCENE_FLOWERS_CONF => "HwMnoteSceneFlowersConf"
  | SCENE_NIGHT_CONF => "HwMnoteSceneNightConf"
  | SCENE_TEXT_CONF => "HwMnoteSceneTextConf"
  | FACE_COUNT => "HwMnoteFaceCount"
  | FOCUS_MODE => "HwMnoteFocusMode"
  end.

#[global] Instance eq_dec : EqDecision PropertyKey.
Proof. solve_decision. Defined.
#[global] Instance finite : Finite PropertyKey.
Proof. solve_enum_finite [BITS_PER_SAMPLE; ORIENTATION; IMAGE_LENGTH; IMAGE_WIDTH; GPS_LATITUDE; GPS_LONGITUDE; GPS_LATITUDE_REF; GPS_LONGITUDE_REF; DATE_TIME_ORIGINAL; EXPOSURE_TIME; SCENE_TYPE; ISO_SPEED_RATINGS; F_NUMBER; DATE_TIME; GPS_TIME_STAMP; GPS_DATE_STAMP; IMAGE_DESCRIPTION; MAKE; MODEL; PHOTO_MODE; SENSITIVITY_TYPE; STANDARD_OUTPUT_SENSITIVITY; RECOMMENDED_EXPOSURE_INDEX; ISO_SPEED; APERTURE_VALUE; EXPOSURE_BIAS_VALUE; METERING_MODE; LIGHT_SOURCE; FLASH; FOCAL_LENGTH; USER_COMMENT; PIXEL_X_DIMENSION; PIXEL_Y_DIMENSION; WHITE_BALANCE; FOCAL_LENGTH_IN_35_MM_FILM; CAPTURE_MODE; PHYSICAL_APERTURE; ROLL_ANGLE; PITCH_ANGLE; SCENE_FOOD_CONF; SCENE_STAGE_CONF; SCENE_BLUE_SKY_CONF; SCENE_GREEN_PLANT_CONF; SCENE_BEACH_CONF; SCENE_SNOW_CONF; SCENE_SUNSET_CONF; SCENE_FLOWERS_CONF; SCENE_NIGHT_CONF; SCENE_TEXT_CONF; FACE_COUNT; FOCUS_MODE]. Defined.
End PropertyKey.

(** Lines 784-800. *)
Module ImageFormat.
Inductive ImageFormat := YCBCR_422_SP | JPEG.

Definition value (f : ImageFormat) : Z :=
  match f with YCBCR_422_SP => 1000 | JPEG => 2000 end.

#[global] Instance eq_dec : EqDecision ImageFormat.
Proof. solve_decision. Defined.
#[global] Instance finite : Finite ImageFormat.
Proof. solve_enum_finite [YCBCR_422_SP; JPEG]. Defined.

Definition ofValue (n : Z) : option ImageFormat := reverseLookup value n.

Lemma ImageFormat_value_inj : Inj eq eq value.
Proof. intros [] [] H; simpl in H; congruence. Qed.

Lemma ImageFormat_ofValue_spec n x : ofValue n = Some x <-> value x = n.
Proof. apply reverseLookup_spec, ImageFormat_value_inj. Qed.
End ImageFormat.

(** Lines 817-877. *)
Module AlphaType.
Inductive AlphaType := UNKNOWN | OPAQUE | PREMUL | UNPREMUL.

Definition value (a : AlphaType) : Z :=
  match a with UNKNOWN => 0 | OPAQUE => 1 | PREMUL => 2 | UNPREMUL => 3 end.

#[global] Instance eq_dec : EqDecision AlphaType.
Proof. solve_decision. Defined.
#[global] Instance finite : Finite AlphaType.
Proof. solve_enum_finite [UNKNOWN; OPAQUE; PREMUL; UNPREMUL]. Defined.

Definition ofValue (n : Z) : option AlphaType := reverseLookup value n.

Lemma AlphaType_value_inj : Inj eq eq value.
Proof. intros [] [] H; simpl in H; congruence. Qed.

Lemma AlphaType_ofValue_spec n x : ofValue n = Some x <-> value x = n.
Proof. apply reverseLookup_spec, AlphaType_value_inj. Qed.
End AlphaType.

(** Lines 894-924. *)
Module ScaleMode.
Inductive ScaleMode := FIT_TARGET_SIZE | CENTER_CROP.

Definition value (m : ScaleMode) : Z :=
  match m with FIT_TARGET_SIZE => 0 | CENTER_CROP => 1 end.

#[global] Instance eq_dec : EqDecision ScaleMode.
Proof. solve_decision. Defined.
#[global] Instance finite : Finite ScaleMode.
Proof. solve_enum_finite [FIT_TARGET_SIZE; CENTER_CROP]. Defined.

Definition ofValue (n : Z) : option ScaleMode := reverseLookup value n.

Lemma ScaleMode_value_inj : Inj eq eq value.
Proof. intros [] [] H; simpl in H; congruence. Qed.

Lemma ScaleMode_ofValue_spec n x : ofValue n = Some x <-> value x = n.
Proof. apply reverseLookup_spec, ScaleMode_value_inj. Qed.
End ScaleMode.

(** Lines 933-965. *)
Module ComponentType.
Inductive ComponentType := YUV_Y | YUV_U | YUV_V | JPEG.

Definition value (c : ComponentType) : Z :=
  match c with YUV_Y => 1 | YUV_U => 2 | YUV_V => 3 | JPEG => 4 end.

#[global] Instance eq_dec : EqDecision ComponentType.
Proof. solve_decision. Defined.
#[global] Instance finite : Finite ComponentType.
Proof. solve_enum_finite [YUV_Y; YUV_U; YUV_V; JPEG]. Defined.

Definition ofValue (n : Z) : option ComponentType := reverseLookup value n.

Lemma ComponentType_value_inj : Inj eq eq value.
Proof. intros [] [] H; simpl in H; congruence. Qed.

Lemma ComponentType_ofValue_spec n x : ofValue n = Some x <-> value x = n.
Proof. apply reverseLookup_spec, ComponentType_value_inj. Qed.
End ComponentType.

(** ** Properties of the enumerations *)

Module ImageEnumFacts.

(** The numeric values of [PixelMapFormat] are pairwise
    distinct, so [PixelMapFormat[n]] gives back exactly the member whose
    value is [n]. *)
Theorem pixelMapFormat_roundtrip n f :
  PixelMapFormat.ofValue n = Some f <-> PixelMapFormat.value f = n.
Proof. apply PixelMapFormat.PixelMapFormat_ofValue_spec. Qed.

(** The numbers that are [PixelMapFormat] members are
    0 and 2 to 9; 1 is skipped. *)
Theorem pixelMapFormat_members n :
  is_Some (PixelMapFormat.ofValue n) <-> (0 <= n <= 9 /\ n <> 1)%Z.
Proof.
  split.
  - intros [f Hf]. apply PixelMapFormat.PixelMapFormat_ofValue_spec in Hf. subst n. destruct f; simpl; lia.
  - intros Hn. destruct (PixelMapFormat.ofValue n) eqn:E; [by eexists|].
    unfold PixelMapFormat.ofValue in E. rewrite reverseLookup_None in E.
    assert (n = 0 \/ n = 2 \/ n = 3 \/ n = 4 \/ n = 5 \/ n = 6 \/ n = 7 \/ n = 8 \/ n = 9)%Z
      as Hc by lia.
    destruct Hc as [->|[->|[->|[->|[->|[->|[->|[->| ->]]]]]]]];
      [ destruct (E PixelMapFormat.UNKNOWN) | destruct (E PixelMapFormat.RGB_565)
      | destruct (E PixelMapFormat.RGBA_8888) | destruct (E PixelMapFormat.BGRA_8888)
      | destruct (E PixelMapFormat.RGB_888) | destruct (E PixelMapFormat.ALPHA_8)
      | destruct (E PixelMapFormat.RGBA_F16) | destruct (E PixelMapFormat.NV21)
      | destruct (E PixelMapFormat.NV12) ]; reflexivity.
Qed.

(** C17 (functional): two [PropertyKey] members have the same string value
    only when they are equal or are [ISO_SPEED] and [ISO_SPEED_RATINGS],
    which both stand for ["ISOSpeedRatings"]. *)
Theorem propertyKey_value_collision k1 k2 :
  PropertyKey.value k1 = PropertyKey.value k2 <->
  k1 = k2 \/ (k1 = PropertyKey.ISO_SPEED /\ k2 = PropertyKey.ISO_SPEED_RATINGS)
          \/ (k1 = PropertyKey.ISO_SPEED_RATINGS /\ k2 = PropertyKey.ISO_SPEED).
Proof.
  revert k1 k2. apply (bool_decide_unpack _). vm_compute. exact I.
Qed.

(** The reverse mappings of [ImageFormat], [AlphaType],
    [ScaleMode] and [ComponentType] invert their values. *)
Theorem enum_reverse_roundtrips :
  (forall f, ImageFormat.ofValue (ImageFormat.value f) = Some f) /\
  (forall a, AlphaType.ofValue (AlphaType.value a) = Some a) /\
  (forall m, ScaleMode.ofValue (ScaleMode.value m) = Some m) /\
  (forall c, ComponentType.ofValue (ComponentType.value c) = Some c).
Proof.
  split_and!; intros x;
    [apply ImageFormat.ImageFormat_ofValue_spec | apply AlphaType.AlphaType_ofValue_spec
    | apply ScaleMode.ScaleMode_ofValue_spec | apply ComponentType.ComponentType_ofValue_spec]; done.
Qed.

(** The documentation of [RGBA_8888] describes the same
    component order as [BGRA_8888] (B, G, R, A from the high bits), and the
    one of [RGBA_F16] the same 8-bit components on 32 bits; where a layout
    is documented its widths add up to the documented bits per pixel. *)
Theorem documented_layouts :
  PixelMapFormat.documentedComponents PixelMapFormat.RGBA_8888
    = PixelMapFormat.documentedComponents PixelMapFormat.BGRA_8888 /\
  PixelMapFormat.documentedComponents PixelMapFormat.RGBA_F16
    = PixelMapFormat.documentedComponents PixelMapFormat.BGRA_8888 /\
  (forall f cs, PixelMapFormat.documentedComponents f = Some cs ->
     PixelMapFormat.documentedBits f = Some (foldr Z.add 0 (map snd cs))).
Proof. split_and!; [done | done | intros [] cs H; simpl in H; by simplify_eq]. Qed.
End ImageEnumFacts.
