(* ===== verification/ImageRecords.v ===== *)
(** * The option and data records of [@ohos.multimedia.image]

    One Module per interface of the typings whose members are data only
    ([Size], [Region], [PositionArea], [ImageInfo], [PackingOption],
    [GetImagePropertyOptions], [DecodingOptions], [Component],
    [InitializationOptions], [SourceOptions]).  A TypeScript [number] is a
    [Z] (every such member the documentation describes is integral: pixel
    counts, offsets, strides, an index, a quality, an angle in degrees, a
    density); an optional member [m?: T] is an [option T]; an [ArrayBuffer]
    is a list of bytes.  Where a member's documentation constrains its value
    the Module has the check as a boolean function ([valid]) and the
    documented conversion as a function ([effectiveBufferSize],
    [targetSize]). *)

From S2P Require Import Prelude ImageEnums.
From Stdlib Require Import Init.Byte.

Local Open Scope Z_scope.

(** [ArrayBuffer]. *)
Definition ArrayBuffer := list byte.

Module Size.
Record Size := mkSize { height : Z; width : Z }.
End Size.

Module Region.
Record Region := mkRegion { size : Size.Size; x : Z; y : Z }.

End Region.

Module PositionArea.
Record PositionArea := mkPositionArea {
  pixels : ArrayBuffer; offset : Z; stride : Z; region : Region.Region }.
End PositionArea.

Module ImageInfo.
Record ImageInfo := mkImageInfo { size : Size.Size; density : Z }.
End ImageInfo.

Module PackingOption.
Record PackingOption := mkPackingOption {
  format : string; quality : Z; bufferSize : option Z }.

(** "an integer ranging from 0 to 100". *)
Definition valid (o : PackingOption) : bool := (0 <=? quality o) && (quality o <=? 100).

(** 10MB, the size a non-positive [bufferSize] is converted to. *)
Definition TEN_MB : Z := 10 * 1024 * 1024.

(** "If this bufferSize is less than or equal to 0, it will be converted to
    10MB"; [None] when the member is absent (the platform's default). *)
Definition effectiveBufferSize (o : PackingOption) : option Z :=
  match bufferSize o with
  | Some b => Some (if b <=? 0 then TEN_MB else b)
  | None => None
  end.

(** The buffer used for packing is always positive: a positive
    [bufferSize] is kept and any other given value becomes 10MB. *)
Theorem effectiveBufferSize_positive o :
  match effectiveBufferSize o with
  | Some e => 0 < e /\ (forall b, bufferSize o = Some b -> (0 < b -> e = b) /\ (b <= 0 -> e = TEN_MB))
  | None => bufferSize o = None
  end.
Proof.
  unfold effectiveBufferSize. destruct (bufferSize o) as [b|]; [|done].
  destruct (Z.leb_spec b 0); unfold TEN_MB; split; try lia; intros ? [= <-]; split; lia.
Qed.
End PackingOption.

Module GetImagePropertyOptions.
Record GetImagePropertyOptions := mkGetImagePropertyOptions {
  index : option Z; defaultValue : option string }.
End GetImagePropertyOptions.

Module DecodingOptions.
Record DecodingOptions := mkDecodingOptions {
  index : option Z;
  sampleSize : option Z;
  rotate : option Z;
  editable : option bool;
  desiredSize : option Size.Size;
  desiredRegion : option Region.Region;
  desiredPixelFormat : option PixelMapFormat.PixelMapFormat;
  fitDensity : option Z
}.

(** "The value ranges from 0 to 360" for [rotate]. *)
Definition valid (o : DecodingOptions) : bool :=
  match rotate o with Some r => (0 <=? r) && (r <=? 360) | None => true end.

(** The size the pixels are decoded at: "(0, 0) indicates that the pixels
    are decoded based on the original image size". *)
Definition targetSize (o : DecodingOptions) (original : Size.Size) : Size.Size :=
  match desiredSize o with
  | Some s => if (Size.height s =? 0) && (Size.width s =? 0) then original else s
  | None => original
  end.
End DecodingOptions.

Module Component.
Record Component := mkComponent {
  componentType : ComponentType.ComponentType;
  rowStride : Z;
  pixelStride : Z;
  byteBuffer : ArrayBuffer
}.
End Component.

Module InitializationOptions.
Record InitializationOptions := mkInitializationOptions {
  size : Size.Size;
  pixelFormat : option PixelMapFormat.PixelMapFormat;
  editable : option bool;
  alphaType : option AlphaType.AlphaType;
  scaleMode : option ScaleMode.ScaleMode
}.
End InitializationOptions.

Module SourceOptions.
Record SourceOptions := mkSourceOptions {
  sourceDensity : Z;
  sourcePixelFormat : option PixelMapFormat.PixelMapFormat;
  sourceSize : option Size.Size
}.
End SourceOptions.
