(* ===== verification/ImageApi.v ===== *)
(** * The object interfaces and factory functions of [@ohos.multimedia.image]

    The typings declare the native objects of the image framework as
    TypeScript interfaces ([PixelMap], [ImageSource], [ImagePacker],
    [Image], [ImageReceiver], [ImageCreator]) and the factories of the
    [image] namespace.  There is no code behind them in the repository: each
    interface is a type class over the platform state [W] and the handle
    type of its objects, one field per member.  A method with a
    [Promise<T>] and an [AsyncCallback<T>] overload is one operation in the
    effect monad [M W BusinessError T] (the promise rejects, or the callback
    receives [err], exactly when the operation throws); a synchronous method
    or a readonly property reads the state.  A method that fills an
    [ArrayBuffer] or a [PositionArea] passed to it returns the filled value.
    Members whose type comes from another kit ([rpc.MessageSequence],
    [colorSpaceManager.ColorSpaceManager],
    [resourceManager.RawFileDescriptor]) take it as a class parameter.  A
    fractional [number] (a rate, a scale factor, a translation, an angle) is
    a rational [Q]; the other numbers are integers.

    [ImageReceiverLaws] states the contract that the documentation gives to
    a receiver: it never hands out more images than its [capacity] ("the
    maximum number of images the user will want to access simultaneously")
    until one is released ("release current image to receive another"). *)

From S2P Require Import Prelude FileSystem ImageEnums ImageRecords.
From Stdlib Require Import QArith.

Local Open Scope Z_scope.

(** The source of [image.createImageSource]: a URI, a file descriptor, a
    buffer or a raw file descriptor of the resource manager. *)
Inductive SourceArg (RawFd : Type) :=
| SrcUri (uri : string)
| SrcFd (fd : Z)
| SrcBuf (buf : ArrayBuffer)
| SrcRawFile (rawfile : RawFd).
Arguments SrcUri {RawFd}. Arguments SrcFd {RawFd}.
Arguments SrcBuf {RawFd}. Arguments SrcRawFile {RawFd}.

(** The [source] of [ImagePacker.packing] and [packToFile]: an image source
    or a pixel map. *)
Inductive PackSource (S PM : Type) :=
| PackImageSource (source : S)
| PackPixelMap (source : PM).
Arguments PackImageSource {S PM}. Arguments PackPixelMap {S PM}.

Section Interfaces.
Context (W : Type).
Local Abbreviation Op := (M W BusinessError).

(** [interface PixelMap]. *)
Class PixelMapApi (PM ColorSpace MessageSequence : Type) := {
  isEditable : W -> PM -> bool;
  readPixelsToBuffer : PM -> ArrayBuffer -> Op ArrayBuffer;
  readPixels : PM -> PositionArea.PositionArea -> Op PositionArea.PositionArea;
  writePixels : PM -> PositionArea.PositionArea -> Op unit;
  writeBufferToPixels : PM -> ArrayBuffer -> Op unit;
  pm_getImageInfo : PM -> Op ImageInfo.ImageInfo;
  getBytesNumberPerRow : W -> PM -> Z;
  getPixelBytesNumber : W -> PM -> Z;
  getDensity : W -> PM -> Z;
  opacity : PM -> Q -> Op unit;
  createAlphaPixelmap : PM -> Op PM;
  scale : PM -> Q -> Q -> Op unit;
  translate : PM -> Q -> Q -> Op unit;
  rotate : PM -> Q -> Op unit;
  flip : PM -> bool -> bool -> Op unit;
  crop : PM -> Region.Region -> Op unit;
  getColorSpace : PM -> Op ColorSpace;
  marshalling : PM -> MessageSequence -> Op unit;
  unmarshalling : PM -> MessageSequence -> Op PM;
  setColorSpace : PM -> ColorSpace -> Op unit;
  pm_release : PM -> Op unit
}.

(** [interface ImageSource]. *)
Class ImageSourceApi (S PM : Type) := {
  is_getImageInfo : S -> option Z -> Op ImageInfo.ImageInfo;
  is_createPixelMap : S -> option DecodingOptions.DecodingOptions -> Op PM;
  createPixelMapList : S -> option DecodingOptions.DecodingOptions -> Op (list PM);
  getDelayTimeList : S -> Op (list Z);
  getFrameCount : S -> Op Z;
  getImageProperty : S -> string -> option GetImagePropertyOptions.GetImagePropertyOptions -> Op string;
  modifyImageProperty : S -> string -> string -> Op unit;
  updateData : S -> ArrayBuffer -> bool -> Z -> Z -> Op unit;
  is_release : S -> Op unit;
  is_supportedFormats : W -> S -> list string
}.

(** [interface ImagePacker]. *)
Class ImagePackerApi (P S PM : Type) := {
  packing : P -> PackSource S PM -> PackingOption.PackingOption -> Op ArrayBuffer;
  packToFile : P -> PackSource S PM -> Z -> PackingOption.PackingOption -> Op unit;
  ip_release : P -> Op unit;
  ip_supportedFormats : W -> P -> list string
}.

(** [interface Image]: [clipRect] is read and written, [size] and [format]
    are read only. *)
Class ImageObjApi (I : Type) := {
  clipRect : W -> I -> Region.Region;
  set_clipRect : I -> Region.Region -> Op unit;
  img_size : W -> I -> Size.Size;
  img_format : W -> I -> Z;
  getComponent : I -> ComponentType.ComponentType -> Op Component.Component;
  img_release : I -> Op unit
}.

(** [interface ImageReceiver].  [on('imageArrival', callback)] subscribes;
    the callback stays with the caller, whose model runs it when the
    platform signals an arrival. *)
Class ImageReceiverApi (R I : Type) := {
  rcv_size : W -> R -> Size.Size;
  rcv_capacity : W -> R -> Z;
  rcv_format : W -> R -> ImageFormat.ImageFormat;
  getReceivingSurfaceId : R -> Op string;
  readLatestImage : R -> Op I;
  readNextImage : R -> Op I;
  on_imageArrival : R -> Op unit;
  rcv_release : R -> Op unit
}.

(** [interface ImageCreator]; [on('imageRelease', callback)] as for the
    receiver. *)
Class ImageCreatorApi (C I : Type) := {
  crt_capacity : W -> C -> Z;
  crt_format : W -> C -> ImageFormat.ImageFormat;
  dequeueImage : C -> Op I;
  queueImage : C -> I -> Op unit;
  on_imageRelease : C -> Op unit;
  crt_release : C -> Op unit
}.

(** The functions of the [image] namespace.  A factory documented to
    return [null] on failure returns an [option]. *)
Class ImageFactoryApi (PM S P R C RawFd MessageSequence : Type) := {
  createPixelMap : ArrayBuffer -> InitializationOptions.InitializationOptions -> Op PM;
  createPixelMapFromParcel : MessageSequence -> Op PM;
  createImageSource : SourceArg RawFd -> option SourceOptions.SourceOptions -> Op (option S);
  CreateIncrementalSource : ArrayBuffer -> option SourceOptions.SourceOptions -> Op (option S);
  createImagePacker : Op (option P);
  createImageReceiver : Z -> Z -> Z -> Z -> Op (option R);
  createImageCreator : Z -> Z -> Z -> Z -> Op (option C)
}.
End Interfaces.

(** ** The documented contract of a receiver

    [held w r] counts the images [r] has handed out by [readNextImage] that
    have not been released.  A read succeeds only below the capacity and
    holds one more image; [Image.release] of a held image frees its slot; a
    rejected read and the other operations a client performs between reads
    ([getComponent], [getReceivingSurfaceId]) change neither count nor
    capacity. *)
Section ReceiverContract.
Context {W R I : Type} `{!ImageReceiverApi W R I} `{!ImageObjApi W I}.

Class ImageReceiverLaws := {
  held : W -> R -> nat;
  readNextImage_ok r w i w' :
    readNextImage W r w = (Ok i, w') ->
    (held w r < Z.to_nat (rcv_capacity W w r))%nat /\ held w' r = S (held w r) /\
    rcv_capacity W w' r = rcv_capacity W w r;
  readNextImage_throw r w e w' :
    readNextImage W r w = (Throw e, w') ->
    held w' r = held w r /\ rcv_capacity W w' r = rcv_capacity W w r;
  getComponent_frame r i c w :
    held (snd (getComponent W i c w)) r = held w r /\
    rcv_capacity W (snd (getComponent W i c w)) r = rcv_capacity W w r;
  getReceivingSurfaceId_frame r r' w :
    held (snd (getReceivingSurfaceId W r' w)) r = held w r /\
    rcv_capacity W (snd (getReceivingSurfaceId W r' w)) r = rcv_capacity W w r
}.
End ReceiverContract.
