(* ===== verification/SampleUtils.v ===== *)
(** * The sample app's date and media helpers

    [CameraPage.js] (the webpack bundle of the receiver test app under
    [src/test/ets/stage/receiver]) holds [DateTimeUtil] (lines 304-344) and
    [MediaUtils] (lines 430-582).  [createAndGetUri] names a new photo
    [IMG_<date>_<time>.jpg] from [getInfoFromType] and two readings of the
    clock, one by [getDate] and one by [getTime].  A reading of
    [new Date()] is a record of the calendar fields the code reads; its
    validity is what a JavaScript [Date] guarantees.

    The theorems: [fill] writes 0 to 99 as two digits; the display name of
    valid readings determines the date of the first reading and the time of
    the second, so two photos get the same name exactly when they are
    taken in the same second; and since the two fields come from two
    readings, a name can pair one day's date with the next day's time. *)

From S2P Require Import Prelude JsString.

Local Open Scope Z_scope.

Module DateTimeUtil.

(** Lines 323-325: [(value > 9 ? '' : '0') + value]. *)
Definition fill (value : Z) : string :=
  (if 9 <? value then "" else "0") +:+ Js.string_of_Z value.

(** Lines 332-334. *)
Definition concatDate (year month date : Z) : string :=
  Js.string_of_Z year +:+ fill month +:+ fill date.

(** Lines 341-343. *)
Definition concatTime (hours minutes seconds : Z) : string :=
  fill hours +:+ fill minutes +:+ fill seconds.

(** What the code reads of a [Date]: [getFullYear()], [getMonth()]
    (0-based), [getDate()], [getHours()], [getMinutes()], [getSeconds()]. *)
Record DateReading := mkReading {
  fullYear : Z; month : Z; day : Z; hours : Z; minutes : Z; seconds : Z }.

(** The ranges of the fields of a JavaScript [Date]. *)
Definition validReading (d : DateReading) : bool :=
  (0 <=? month d) && (month d <=? 11) && (1 <=? day d) && (day d <=? 31) &&
  (0 <=? hours d) && (hours d <=? 23) && (0 <=? minutes d) && (minutes d <=? 59) &&
  (0 <=? seconds d) && (seconds d <=? 59).

(** Lines 308-311, on the reading the call makes. *)
Definition getTime (d : DateReading) : string :=
  concatTime (hours d) (minutes d) (seconds d).

(** Lines 315-318, on the reading the call makes. *)
Definition getDate (d : DateReading) : string :=
  concatDate (fullYear d) (month d + 1) (day d).

(** The two decimal digits of [v]. *)
Definition twoDigits (v : Z) : string :=
  String (ascii_of_nat (48 + Z.to_nat (v / 10)))
    (String (ascii_of_nat (48 + Z.to_nat (v mod 10))) "").

Lemma validReading_spec d :
  validReading d = true ->
  0 <= month d <= 11 /\ 1 <= day d <= 31 /\ 0 <= hours d <= 23 /\
  0 <= minutes d <= 59 /\ 0 <= seconds d <= 59.
Proof. unfold validReading. rewrite !andb_true_iff, !Z.leb_le. lia. Qed.

Lemma fill_twoDigits_range :
  Forall (fun v => fill v = twoDigits v) (map (fun i => 0 + Z.of_nat i) (seq 0 100)).
Proof. apply (bool_decide_unpack _). vm_compute. exact I. Qed.

(** [fill] writes every number from 0 to 99 as its two
    decimal digits, with a leading zero below 10. *)
Theorem fill_two_digits v : 0 <= v <= 99 -> fill v = twoDigits v.
Proof. intros Hv. apply (Forall_Z_range _ 0 100 fill_twoDigits_range). lia. Qed.

Lemma twoDigits_inj a b :
  0 <= a <= 99 -> 0 <= b <= 99 -> twoDigits a = twoDigits b -> a = b.
Proof.
  intros Ha Hb H. injection H as H1 H2.
  apply (f_equal nat_of_ascii) in H1, H2.
  pose proof (Z.div_mod a 10). pose proof (Z.mod_pos_bound a 10).
  pose proof (Z.div_mod b 10). pose proof (Z.mod_pos_bound b 10).
  rewrite !nat_ascii_embedding in H1, H2 by lia. lia.
Qed.

Lemma fill_inj a b : 0 <= a <= 99 -> 0 <= b <= 99 -> fill a = fill b -> a = b.
Proof.
  intros Ha Hb. rewrite !fill_two_digits by done. by apply twoDigits_inj.
Qed.

Lemma fill_length v : 0 <= v <= 99 -> String.length (fill v) = 2%nat.
Proof. intros Hv. by rewrite fill_two_digits. Qed.

End DateTimeUtil.

Module MediaUtils.
Import DateTimeUtil.

(** [mediaLibrary.MediaType] and [mediaLibrary.DirectoryType], the
    members the code uses (platform enums, in their declaration order). *)
Inductive MediaType := FILE | IMAGE | VIDEO | AUDIO.
Inductive DirectoryType :=
  DIR_CAMERA | DIR_VIDEO | DIR_IMAGE | DIR_AUDIO | DIR_DOCUMENTS | DIR_DOWNLOAD.

Record MediaInfo := mkInfo { prefix : string; suffix : string; directory : DirectoryType }.

(** Lines 552-579. *)
Definition getInfoFromType (mediaType : MediaType) : MediaInfo :=
  match mediaType with
  | FILE => mkInfo "FILE_" ".txt" DIR_DOCUMENTS
  | IMAGE => mkInfo "IMG_" ".jpg" DIR_IMAGE
  | VIDEO => mkInfo "VID_" ".mp4" DIR_VIDEO
  | AUDIO => mkInfo "AUD_" ".wav" DIR_AUDIO
  end.

(** Lines 442-445: the [displayName] of [createAndGetUri], with [d1] the
    reading of [getDate()] and [d2] the later one of [getTime()]. *)
Definition displayName (mediaType : MediaType) (d1 d2 : DateReading) : string :=
  let info := getInfoFromType mediaType in
  let name := getDate d1 +:+ "_" +:+ getTime d2 in
  prefix info +:+ name +:+ suffix info.

(** The display name as a left-nested append of its eight pieces. *)
Lemma displayName_pieces t d1 d2 :
  displayName t d1 d2 =
  ((((((((prefix (getInfoFromType t) +:+ Js.string_of_Z (fullYear d1))
      +:+ fill (month d1 + 1)) +:+ fill (day d1)) +:+ "_") +:+ fill (hours d2))
      +:+ fill (minutes d2)) +:+ fill (seconds d2)) +:+ suffix (getInfoFromType t)).
Proof.
  unfold displayName, getDate, getTime, concatDate, concatTime.
  by rewrite !Js.str_app_assoc.
Qed.

(** Peel the last piece off an equation of left-nested appends whose last
    pieces have the same length. *)
Ltac peel H :=
  let H' := fresh "Hpiece" in
  apply Js.str_app_inj_r in H as [H H']; [|rewrite ?fill_length by lia; done].

(** C19 (roundtrip): for readings a JavaScript [Date] can give, two
    display names built by [createAndGetUri] for the same media type are
    equal exactly when the date readings agree on year, month and day and
    the time readings agree on hours, minutes and seconds: photos taken in
    the same second get the same name, and only those. *)
Theorem displayName_same_second t d1 d2 e1 e2 :
  validReading d1 = true -> validReading d2 = true ->
  validReading e1 = true -> validReading e2 = true ->
  displayName t d1 d2 = displayName t e1 e2 <->
  (fullYear d1 = fullYear e1 /\ month d1 = month e1 /\ day d1 = day e1) /\
  (hours d2 = hours e2 /\ minutes d2 = minutes e2 /\ seconds d2 = seconds e2).
Proof.
  intros V1 V2 V3 V4.
  apply validReading_spec in V1, V2, V3, V4. split.
  - rewrite !displayName_pieces. intros H.
    peel H. peel H. peel H. peel H. peel H. peel H. peel H.
    apply Js.str_app_inv_l, Js.string_of_Z_inj in H.
    repeat match goal with
           | Hp : fill _ = fill _ |- _ => apply fill_inj in Hp; [|lia|lia]
           end.
    lia.
  - intros [[H1 [H2 H3]] [H4 [H5 H6]]].
    unfold displayName, getDate, getTime. by rewrite H1, H2, H3, H4, H5, H6.
Qed.

(** The date and the time come from two readings of the
    clock, so a photo whose [getDate()] runs at 23:59:59 on 31 December
    2023 and whose [getTime()] runs one second later is named
    [IMG_20231231_000000.jpg], the name of a photo taken 24 hours
    earlier. *)
Example displayName_midnight :
  let d1 := mkReading 2023 11 31 23 59 59 in
  let d2 := mkReading 2024 0 1 0 0 0 in
  let e := mkReading 2023 11 31 0 0 0 in
  validReading d1 = true /\ validReading d2 = true /\
  displayName IMAGE d1 d2 = "IMG_20231231_000000.jpg" /\
  displayName IMAGE d1 d2 = displayName IMAGE e e.
Proof. vm_compute. repeat split. Qed.

End MediaUtils.

Module SampleUtilsWitness.
Import DateTimeUtil MediaUtils.

Lemma fill_two_digits_witness : 0 <= 7 <= 99 /\ fill 7 = "07".
Proof. split; [lia | rewrite (fill_two_digits 7) by lia; reflexivity]. Defined.

Definition r1 : DateReading := mkReading 2024 0 15 12 30 5.
Definition r2 : DateReading := mkReading 2024 0 15 12 30 6.

Lemma displayName_same_second_witness :
  validReading r1 = true /\ validReading r2 = true /\
  displayName IMAGE r1 r1 <> displayName IMAGE r1 r2.
Proof.
  assert (V1 : validReading r1 = true) by reflexivity.
  assert (V2 : validReading r2 = true) by reflexivity.
  split_and!; [exact V1 | exact V2 |].
  rewrite (displayName_same_second IMAGE r1 r1 r1 r2 V1 V1 V1 V2).
  vm_compute. intros (_ & _ & _ & H). discriminate H.
Defined.
End SampleUtilsWitness.
