(* ===== verification/CameraService.v ===== *)
(** * The sample camera service: a client of the image receiver

    [CameraPage.js] of the receiver test app bundles the sample's
    [CameraService] (lines 46-273), the page that drives it ([CameraPage],
    lines 617-785) and the [Logger] (lines 377-396).  The service owns an
    [ImageReceiver] created in its constructor; the camera's photo output
    is bound to the receiver's surface; every image that arrives is read
    with [readNextImage], its JPEG component is taken with [getComponent]
    and saved to a new media asset by [savePicture], which then releases
    the image.

    The model: the fields of the service object are the record [Svc]
    ([undefined] and [null] are [None]); the world is the platform state
    [W] of the image, camera and media kits, the hilog lines, the
    service, the page's thumbnail, the unhandled promise rejections and a
    ghost trace [calls] of the platform calls the service makes, in order.
    Each method is a computation of the effect monad with the JavaScript
    errors [JsError]: a platform promise that rejects ([Rejected]) or a
    member read on [undefined] ([TypeError]).  The camera kit and the media
    library are platform code outside the repository; they are the type
    classes [CameraKit] and [MediaKit], without laws.  The image kit is
    [ImageApi]; the theorem on the receiver uses its [ImageReceiverLaws].

    Each method runs to completion here; [CameraAsync] runs the camera
    methods again with their [await]s and interleaves them.  In the arrival handler the continuations
    of the two calls it starts run in the order the calls were made. *)

From S2P Require Import Prelude JsString FileSystem ImageEnums ImageRecords ImageApi SampleUtils.
From Stdlib Require Import QArith.

Local Open Scope Z_scope.
Local Set Warnings "-clear-no-such-hyp".

Module CameraService.
Import DateTimeUtil MediaUtils.

(** A platform object the service holds (camera manager, input, outputs,
    session). *)
Definition Handle := nat.

(** Lines 38-41 and 617-620. *)
Definition MODE_PHOTO : Z := 0.
Definition MODE_VIDEO : Z := 1.

(** Lines 42-45. *)
Definition WIDTH : Z := 1920.
Definition HEIGHT : Z := 1080.

(** The [photoSettings] of [takePicture] (lines 243-252): [ROTATION_0] and
    [QUALITY_LEVEL_MEDIUM] of the camera kit are 0 and 1. *)
Record PhotoSettings := mkPhotoSettings {
  rotation : Z; quality : Z; latitude : Q; longitude : Q; altitude : Q; mirror : bool }.

Definition photoSettings : PhotoSettings :=
  mkPhotoSettings 0 1 (129698 # 10000) (777500 # 10000) (1000 # 1) false.

(** [@ohos.multimedia.camera], as the service calls it. *)
Class CameraKit (W : Type) := {
  getCameraManager : M W BusinessError Handle;
  getCameras : Handle -> M W BusinessError (list string);
  createCameraInput : Handle -> string -> M W BusinessError Handle;
  createPreviewOutput : string -> M W BusinessError Handle;
  createPhotoOutput : string -> M W BusinessError Handle;
  createCaptureSession : M W BusinessError Handle;
  beginConfig : Handle -> M W BusinessError unit;
  addInput : Handle -> Handle -> M W BusinessError unit;
  addOutput : Handle -> Handle -> M W BusinessError unit;
  commitConfig : Handle -> M W BusinessError unit;
  start : Handle -> M W BusinessError unit;
  stop : Handle -> M W BusinessError unit;
  release : Handle -> M W BusinessError unit;
  capture : Handle -> PhotoSettings -> M W BusinessError unit
}.

(** [@ohos.multimedia.mediaLibrary], [@ohos.fileio] and the clock, as
    [MediaUtils] and [savePicture] call them. *)
Class MediaKit (W Asset : Type) := {
  now : M W BusinessError DateReading;
  getPublicDirectory : DirectoryType -> M W BusinessError string;
  createAsset : MediaType -> string -> string -> M W BusinessError Asset;
  assetUri : W -> Asset -> string;
  open_ : Asset -> string -> M W BusinessError Z;
  close : Asset -> Z -> M W BusinessError unit;
  write : Z -> ArrayBuffer -> M W BusinessError unit
}.

(** The errors a method of the sample rejects with. *)
Inductive JsError :=
| TypeError (what : string)
| Rejected (e : BusinessError).

(** [hilog] levels of the [Logger]. *)
Inductive Level := LDebug | LInfo | LWarn | LError.

(** A line of the log: [Logger] writes [hilog] lines with its arguments,
    [console.log] a console line. *)
Inductive LogLine :=
| Hilog (level : Level) (args : list string)
| ConsoleLog (args : list string).

Section Service.
Context {W R I Asset PM S P C RawFd Seq : Type}.
Context `{!ImageFactoryApi W PM S P R C RawFd Seq} `{!ImageReceiverApi W R I}
        `{!ImageObjApi W I} `{!CameraKit W} `{!MediaKit W Asset}.

(** The platform calls of the service, for the ghost trace. *)
Inductive Call :=
| CCreateImageReceiver (width height format capacity : Z)
| COnImageArrival (r : R)
| CReadNextImage (r : R)
| CGetReceivingSurfaceId (r : R)
| CGetComponent (i : I) (c : ComponentType.ComponentType)
| CReleaseImage (i : I)
| CGetCameraManager
| CGetCameras (m : Handle)
| CCreateCameraInput (m : Handle) (cameraId : string)
| CCreatePreviewOutput (surfaceId : string)
| CCreatePhotoOutput (surfaceId : string)
| CCreateCaptureSession
| CBeginConfig (s : Handle)
| CAddInput (s i : Handle)
| CAddOutput (s o : Handle)
| CCommitConfig (s : Handle)
| CStart (s : Handle)
| CStop (s : Handle)
| CRelease (h : Handle)
| CCapture (p : Handle)
| CNow
| CGetPublicDirectory (d : DirectoryType)
| CCreateAsset (t : MediaType) (displayName dir : string)
| COpen (a : Asset)
| CWrite (fd : Z)
| CClose (a : Asset) (fd : Z).

(** The fields of a [CameraService] object (lines 47-62). *)
Record Svc := mkSvc {
  cameraManager : option Handle;
  cameras : option (list string);
  cameraId : string;
  cameraInput : option Handle;
  previewOutput : option Handle;
  photoOutPut : option Handle;
  captureSession : option Handle;
  mReceiver : option R;
  photoUri : string;
  fileAsset : option Asset;
  fd : Z;
  curMode : Z;
  handleTakePicture : bool
}.

Definition set_cameraManager (v : option Handle) (s : Svc) : Svc :=
  mkSvc v (cameras s) (cameraId s) (cameraInput s) (previewOutput s) (photoOutPut s) (captureSession s) (mReceiver s) (photoUri s) (fileAsset s) (fd s) (curMode s) (handleTakePicture s).

Definition set_cameras (v : option (list string)) (s : Svc) : Svc :=
  mkSvc (cameraManager s) v (cameraId s) (cameraInput s) (previewOutput s) (photoOutPut s) (captureSession s) (mReceiver s) (photoUri s) (fileAsset s) (fd s) (curMode s) (handleTakePicture s).

Definition set_cameraId (v : string) (s : Svc) : Svc :=
  mkSvc (cameraManager s) (cameras s) v (cameraInput s) (previewOutput s) (photoOutPut s) (captureSession s) (mReceiver s) (photoUri s) (fileAsset s) (fd s) (curMode s) (handleTakePicture s).

Definition set_cameraInput (v : option Handle) (s : Svc) : Svc :=
  mkSvc (cameraManager s) (cameras s) (cameraId s) v (previewOutput s) (photoOutPut s) (captureSession s) (mReceiver s) (photoUri s) (fileAsset s) (fd s) (curMode s) (handleTakePicture s).

Definition set_previewOutput (v : option Handle) (s : Svc) : Svc :=
  mkSvc (cameraManager s) (cameras s) (cameraId s) (cameraInput s) v (photoOutPut s) (captureSession s) (mReceiver s) (photoUri s) (fileAsset s) (fd s) (curMode s) (handleTakePicture s).

Definition set_photoOutPut (v : option Handle) (s : Svc) : Svc :=
  mkSvc (cameraManager s) (cameras s) (cameraId s) (cameraInput s) (previewOutput s) v (captureSession s) (mReceiver s) (photoUri s) (fileAsset s) (fd s) (curMode s) (handleTakePicture s).

Definition set_captureSession (v : option Handle) (s : Svc) : Svc :=
  mkSvc (cameraManager s) (cameras s) (cameraId s) (cameraInput s) (previewOutput s) (photoOutPut s) v (mReceiver s) (photoUri s) (fileAsset s) (fd s) (curMode s) (handleTakePicture s).

Definition set_mReceiver (v : option R) (s : Svc) : Svc :=
  mkSvc (cameraManager s) (cameras s) (cameraId s) (cameraInput s) (previewOutput s) (photoOutPut s) (captureSession s) v (photoUri s) (fileAsset s) (fd s) (curMode s) (handleTakePicture s).

Definition set_photoUri (v : string) (s : Svc) : Svc :=
  mkSvc (cameraManager s) (cameras s) (cameraId s) (cameraInput s) (previewOutput s) (photoOutPut s) (captureSession s) (mReceiver s) v (fileAsset s) (fd s) (curMode s) (handleTakePicture s).

Definition set_fileAsset (v : option Asset) (s : Svc) : Svc :=
  mkSvc (cameraManager s) (cameras s) (cameraId s) (cameraInput s) (previewOutput s) (photoOutPut s) (captureSession s) (mReceiver s) (photoUri s) v (fd s) (curMode s) (handleTakePicture s).

Definition set_fd (v : Z) (s : Svc) : Svc :=
  mkSvc (cameraManager s) (cameras s) (cameraId s) (cameraInput s) (previewOutput s) (photoOutPut s) (captureSession s) (mReceiver s) (photoUri s) (fileAsset s) v (curMode s) (handleTakePicture s).

Definition set_curMode (v : Z) (s : Svc) : Svc :=
  mkSvc (cameraManager s) (cameras s) (cameraId s) (cameraInput s) (previewOutput s) (photoOutPut s) (captureSession s) (mReceiver s) (photoUri s) (fileAsset s) (fd s) v (handleTakePicture s).

Definition set_handleTakePicture (v : bool) (s : Svc) : Svc :=
  mkSvc (cameraManager s) (cameras s) (cameraId s) (cameraInput s) (previewOutput s) (photoOutPut s) (captureSession s) (mReceiver s) (photoUri s) (fileAsset s) (fd s) (curMode s) v.

(** The fields the constructor gives before it creates the receiver
    (lines 48-62). *)
Definition freshSvc : Svc :=
  mkSvc None None "" None None None None None "" None (-1) MODE_PHOTO false.

Record World := mkWorld {
  plat : W;
  log : list LogLine;
  svc : Svc;
  thumbnail : string;
  unhandled : list JsError;
  calls : list Call
}.

Definition Task := M World JsError.

Definition setSvc (f : Svc -> Svc) : Task unit :=
  modify (fun w => mkWorld (plat w) (log w) (f (svc w)) (thumbnail w) (unhandled w) (calls w)).

Definition getSvc : Task Svc := fun w => (Ok (svc w), w).

Definition emit (l : LogLine) : Task unit :=
  modify (fun w => mkWorld (plat w) (log w ++ [l]) (svc w) (thumbnail w) (unhandled w) (calls w)).

(** Lines 386-388 and 392-394: [Logger.info(...args)], [Logger.error(...args)]. *)
Definition info (args : list string) : Task unit := emit (Hilog LInfo args).
Definition error (args : list string) : Task unit := emit (Hilog LError args).

(** A platform call: recorded in the trace, run on the platform state, a
    rejection becoming [Rejected]. *)
Definition platform {A} (c : Call) (op : M W BusinessError A) : Task A :=
  fun w =>
    let w0 := mkWorld (plat w) (log w) (svc w) (thumbnail w) (unhandled w) (calls w ++ [c]) in
    match op (plat w0) with
    | (Ok a, p') => (Ok a, mkWorld p' (log w0) (svc w0) (thumbnail w0) (unhandled w0) (calls w0))
    | (Throw e, p') => (Throw (Rejected e), mkWorld p' (log w0) (svc w0) (thumbnail w0) (unhandled w0) (calls w0))
    end.

(** [this.x.m(...)] with [this.x] [undefined]: a [TypeError]. *)
Definition need {A} (o : option A) (what : string) : Task A :=
  match o with Some a => ret a | None => throw (TypeError what) end.

(** A promise nobody awaits: its rejection is unhandled. *)
Definition detach (c : Task unit) : Task unit :=
  try_catch c (fun e => modify (fun w =>
    mkWorld (plat w) (log w) (svc w) (thumbnail w) (unhandled w ++ [e]) (calls w))).

(** The outcome of a call whose continuation runs later. *)
Definition attempt {A} (c : Task A) : Task (Outcome JsError A) :=
  try_catch (let! a := c in ret (Ok a)) (fun e => ret (Throw e)).


(** The tags of the classes' log lines. *)
Definition tag : string := "CameraService".
Definition mediaTag : string := "MediaUtils".
Definition pageTag : string := "CameraPage".

(** [${mediaType}]: the platform's values of [MediaType]. *)
Definition mediaTypeValue (t : MediaType) : string :=
  match t with FILE => "0" | IMAGE => "1" | VIDEO => "2" | AUDIO => "3" end.

(** [MediaUtils.createAndGetUri] (lines 441-451): [getDate()] and
    [getTime()] each read the clock. *)
Definition createAndGetUri (mediaType : MediaType) : Task Asset :=
  let info_ := getInfoFromType mediaType in
  let! d1 := platform CNow now in
  let! d2 := platform CNow now in
  let dn := displayName mediaType d1 d2 in
  let! _ := info [mediaTag; "displayName = " +:+ dn +:+ ",mediaType = " +:+ mediaTypeValue mediaType] in
  let! publicPath := platform (CGetPublicDirectory (directory info_))
                       (getPublicDirectory (directory info_)) in
  let! _ := info [mediaTag; "publicPath = " +:+ publicPath] in
  platform (CCreateAsset mediaType dn publicPath) (createAsset mediaType dn publicPath).

(** [MediaUtils.getFdPath] (lines 465-469). *)
Definition getFdPath (fileAsset : Asset) : Task Z :=
  let! fd := platform (COpen fileAsset) (open_ fileAsset "Rw") in
  let! _ := info [mediaTag; "fd = " +:+ Js.string_of_Z fd] in
  ret fd.

(** [CameraPage.handleTakePicture] (lines 631-634), the callback the page
    registers. *)
Definition pageHandleTakePicture (thumbnail : string) : Task unit :=
  let! _ := modify (fun w => mkWorld (plat w) (log w) (svc w) thumbnail (unhandled w) (calls w)) in
  info [pageTag; "takePicture end , thumbnail: " +:+ thumbnail].

(** [savePicture(buffer, img)] (lines 188-202). *)
Definition savePicture (buffer : ArrayBuffer) (img : I) : Task unit :=
  let! _ := info [tag; "savePicture"] in
  let! asset := createAndGetUri IMAGE in
  let! _ := setSvc (set_fileAsset (Some asset)) in
  let! w := get in
  let! fa := need (fileAsset (svc w)) "fileAsset" in
  let! _ := setSvc (set_photoUri (assetUri (plat w) fa)) in
  let! s := getSvc in
  let! _ := info [tag; "this.photoUri = " +:+ photoUri s] in
  let! fa := need (fileAsset s) "fileAsset" in
  let! fd_ := getFdPath fa in
  let! _ := setSvc (set_fd fd_) in
  let! s := getSvc in
  let! _ := info [tag; "this.fd = " +:+ Js.string_of_Z (fd s)] in
  let! _ := platform (CWrite (fd s)) (write (fd s) buffer) in
  let! fa := need (fileAsset s) "fileAsset" in
  let! _ := platform (CClose fa (fd s)) (close fa (fd s)) in
  let! _ := platform (CReleaseImage img) (img_release W img) in
  let! _ := info [tag; "save image done"] in
  let! s := getSvc in
  if handleTakePicture s then pageHandleTakePicture (photoUri s) else ret tt.

(** The [then] callback of [readNextImage()] (lines 137-157): the image's
    JPEG component ([getComponent(4, ...)]) is saved; a component error
    reaches the callback as [errMsg], is logged and ends it.  The
    component's [byteBuffer] is an [ArrayBuffer], which is truthy, so the
    4096-byte default is never kept.  [savePicture] is not awaited.  A
    resolved [readNextImage()] gives an image, so the [undefined] test of
    lines 139-142 is not modelled. *)
Definition onNextImage (image : I) : Task unit :=
  let! _ := info [tag; "q_y19 readNextImage"] in
  let! comp := attempt (platform (CGetComponent image ComponentType.JPEG)
                          (getComponent W image ComponentType.JPEG)) in
  let! _ := info [tag; "q_y21 getComponent"] in
  match comp with
  | Throw _ => info [tag; "q_y22 failed to get valid buffer"]
  | Ok img => detach (savePicture (Component.byteBuffer img) image)
  end.

(** The [imageArrival] handler (lines 66-170, without the commented-out
    variants): it starts [readNextImage()] and [getReceivingSurfaceId()];
    then the first one's continuation runs, its rejection going to the
    [catch] (lines 158-160), and the second one's callback (lines
    162-169). *)
Definition onImageArrival : Task unit :=
  let! _ := info [tag; "q_y2 imageArrival"] in
  let! s := getSvc in
  let! r := need (mReceiver s) "mReceiver" in
  let! next := attempt (platform (CReadNextImage r) (readNextImage W r)) in
  let! s := getSvc in
  let! r := need (mReceiver s) "mReceiver" in
  let! sid := attempt (platform (CGetReceivingSurfaceId r) (getReceivingSurfaceId W r)) in
  let! _ := match next with
            | Ok image => try_catch (onNextImage image)
                            (fun _ => emit (ConsoleLog ["q_y24 readNextImage failed."]))
            | Throw _ => emit (ConsoleLog ["q_y24 readNextImage failed."])
            end in
  match sid with
  | Throw _ => error ["q_y25 getReceivingSurfaceId failed."]
  | Ok id => info ["q_y26 getReceivingSurfaceId succeeded and id is " +:+ id]
  end.

(** The constructor (lines 47-187): the fields, then the receiver
    ([createImageReceiver(1920, 1080, 4, 8)]) and its subscription.
    [MediaUtils.getInstance()] (line 49) returns the instance created when
    the module was loaded (line 582) and changes nothing. *)
Definition construct : Task unit :=
  let! _ := setSvc (fun _ => freshSvc) in
  let! _ := info [tag; "q_y1 createImageReceiver"] in
  let! r := platform (CCreateImageReceiver WIDTH HEIGHT 4 8) (createImageReceiver W WIDTH HEIGHT 4 8) in
  let! _ := setSvc (set_mReceiver r) in
  let! _ := info [tag; "q_y1 createImageReceiver"] in
  let! s := getSvc in
  let! r := need (mReceiver s) "mReceiver" in
  platform (COnImageArrival r) (on_imageArrival W r).

(** [releaseCamera] (lines 256-270): [captureSession.stop()] and the last
    two releases are not guarded; [cameraInput] is released twice. *)
Definition releaseCamera : Task unit :=
  let! _ := info [tag; "releaseCamera"] in
  let! s := getSvc in
  let! session := need (captureSession s) "captureSession" in
  let! _ := platform (CStop session) (stop session) in
  let! s := getSvc in
  let! _ := match cameraInput s with
            | Some h => platform (CRelease h) (release h) | None => ret tt end in
  let! s := getSvc in
  let! _ := match previewOutput s with
            | Some h => platform (CRelease h) (release h) | None => ret tt end in
  let! s := getSvc in
  let! _ := match photoOutPut s with
            | Some h => platform (CRelease h) (release h) | None => ret tt end in
  let! s := getSvc in
  let! input := need (cameraInput s) "cameraInput" in
  let! _ := platform (CRelease input) (release input) in
  let! s := getSvc in
  let! session := need (captureSession s) "captureSession" in
  platform (CRelease session) (release session).

(** [initCamera(surfaceId)] (lines 203-234). *)
Definition initCamera (surfaceId : string) : Task unit :=
  let! _ := info [tag; "initCamera"] in
  let! s := getSvc in
  let! _ := if decide (curMode s = MODE_VIDEO)
            then let! _ := releaseCamera in setSvc (set_curMode MODE_PHOTO)
            else ret tt in
  let! mgr := platform CGetCameraManager getCameraManager in
  let! _ := setSvc (set_cameraManager (Some mgr)) in
  let! _ := info [tag; "getCameraManager"] in
  let! cams := platform (CGetCameras mgr) (getCameras mgr) in
  let! _ := setSvc (set_cameras (Some cams)) in
  let! _ := info [tag; "get cameras " +:+ Js.string_of_nat (length cams)] in
  match cams with
  | [] => info [tag; "cannot get cameras"]
  | cam0 :: _ =>
      let! _ := setSvc (set_cameraId cam0) in
      let! input := platform (CCreateCameraInput mgr cam0) (createCameraInput mgr cam0) in
      let! _ := setSvc (set_cameraInput (Some input)) in
      let! _ := info [tag; "createCameraInput"] in
      let! preview := platform (CCreatePreviewOutput surfaceId) (createPreviewOutput surfaceId) in
      let! _ := setSvc (set_previewOutput (Some preview)) in
      let! _ := info [tag; "createPreviewOutput"] in
      let! s := getSvc in
      let! r := need (mReceiver s) "mReceiver" in
      let! mSurfaceId := platform (CGetReceivingSurfaceId r) (getReceivingSurfaceId W r) in
      let! photo := platform (CCreatePhotoOutput mSurfaceId) (createPhotoOutput mSurfaceId) in
      let! _ := setSvc (set_photoOutPut (Some photo)) in
      let! session := platform CCreateCaptureSession createCaptureSession in
      let! _ := setSvc (set_captureSession (Some session)) in
      let! _ := info [tag; "createCaptureSession"] in
      let! _ := platform (CBeginConfig session) (beginConfig session) in
      let! _ := info [tag; "beginConfig"] in
      let! _ := platform (CAddInput session input) (addInput session input) in
      let! _ := platform (CAddOutput session preview) (addOutput session preview) in
      let! _ := platform (CAddOutput session photo) (addOutput session photo) in
      let! _ := platform (CCommitConfig session) (commitConfig session) in
      let! _ := platform (CStart session) (start session) in
      info [tag; "captureSession start"]
  end.

(** [setTakePictureCallback] (lines 235-237), with the page's callback. *)
Definition setTakePictureCallback : Task unit := setSvc (set_handleTakePicture true).

(** [takePicture] (lines 238-255). *)
Definition takePicture : Task unit :=
  let! _ := info [tag; "takePicture"] in
  let! s := getSvc in
  let! _ := if decide (curMode s = MODE_VIDEO) then setSvc (set_curMode MODE_PHOTO) else ret tt in
  let! s := getSvc in
  let! photo := need (photoOutPut s) "photoOutPut" in
  let! _ := platform (CCapture photo) (capture photo photoSettings) in
  info [tag; "takePicture done"].

(** What drives the service: the page's lifecycle and its shutter button
    ([CameraPage], lines 694-784; [initCamera] and [takePicture] are not
    awaited, and nothing catches the rejection of [aboutToDisappear]) and
    the receiver's arrival signal. *)
Inductive Event :=
| EAppear
| ELoad (surfaceId : string)
| EClick
| EDisappear
| EArrival.

Definition runEvent (ev : Event) : Task unit :=
  match ev with
  | EAppear => setTakePictureCallback
  | ELoad surfaceId => detach (initCamera surfaceId)
  | EClick => let! _ := info [pageTag; "takePicture begin"] in detach takePicture
  | EDisappear => detach releaseCamera
  | EArrival => detach onImageArrival
  end.

(** The worlds the app can reach: the service constructed (the module's
    default export, line 273), then any sequence of events. *)
Inductive reachable : World -> Prop :=
| reach_construct w0 w : construct w0 = (Ok tt, w) -> reachable w
| reach_event w ev r w' : reachable w -> runEvent ev w = (r, w') -> reachable w'.

(** ** Invariants of the service object *)

Definition onSvc (Q : Svc -> Prop) (w : World) : Prop := Q (svc w).

Lemma preserves_setSvc Q f : (forall s, Q s -> Q (f s)) -> preserves (onSvc Q) (setSvc f).
Proof. intros Hf w. apply Hf. Qed.

Lemma preserves_getSvc Q : preserves (onSvc Q) getSvc.
Proof. by intros w. Qed.

Lemma preserves_emit Q l : preserves (onSvc Q) (emit l).
Proof. by intros w. Qed.

Lemma preserves_platform Q {A} c (op : M W BusinessError A) : preserves (onSvc Q) (platform c op).
Proof. intros w Hw. unfold platform. simpl. by destruct (op (plat w)) as [[]]. Qed.

Lemma preserves_need Q {A} (o : option A) what : preserves (onSvc Q) (need o what).
Proof. by destruct o; intros w. Qed.

Lemma preserves_detach Q c : preserves (onSvc Q) c -> preserves (onSvc Q) (detach c).
Proof. intros Hc. apply preserves_try_catch; [done|]. intros e. by apply preserves_modify. Qed.

Lemma preserves_attempt Q {A} (c : Task A) : preserves (onSvc Q) c -> preserves (onSvc Q) (attempt c).
Proof.
  intros Hc. apply preserves_try_catch; [|intros; apply preserves_ret].
  apply preserves_bind; [done | intros; apply preserves_ret].
Qed.

#[local] Hint Resolve preserves_getSvc preserves_emit preserves_platform preserves_need : js.

(** Decompose a [preserves] goal along the program; the remaining goals
    are about the service object's setters. *)
Ltac solve_preserves :=
  repeat match goal with
  | |- preserves _ (bind _ _) => apply preserves_bind; [|intros ?]
  | |- preserves _ (try_catch _ _) => apply preserves_try_catch; [|intros ?]
  | |- preserves _ (detach _) => apply preserves_detach
  | |- preserves _ (attempt _) => apply preserves_attempt
  | |- preserves _ (setSvc _) => apply preserves_setSvc; intros ?s ?Hs
  | |- preserves (onSvc _) (modify _) => apply preserves_modify; intros ?w ?Hw; exact Hw
  | |- preserves _ (match ?x with _ => _ end) => destruct x
  | |- preserves _ (if ?b then _ else _) => destruct b
  | |- preserves _ (info _) => apply preserves_emit
  | |- preserves _ (error _) => apply preserves_emit
  | |- _ => solve [eauto with js]
  end.


(** The camera mode is the photo mode. *)
Definition photoMode (s : Svc) : Prop := curMode s = MODE_PHOTO.

Lemma events_photo_mode ev : preserves (onSvc photoMode) (runEvent ev).
Proof.
  destruct ev; unfold runEvent, initCamera, releaseCamera, takePicture, onImageArrival,
    onNextImage, savePicture, createAndGetUri, getFdPath, pageHandleTakePicture,
    setTakePictureCallback; solve_preserves; unfold photoMode in *; simpl; done.
Qed.

Lemma construct_photo_mode w0 : photoMode (svc (snd (construct w0))).
Proof.
  apply (establishes_bind (onSvc photoMode)); [done|]. intros []. solve_preserves.
Qed.

(** C20 (invariant): the service is in photo mode in every world the app
    can reach: [MODE_VIDEO] is never assigned, so the release at the start
    of [initCamera] (lines 205-208) and the mode switch of [takePicture]
    (lines 240-242) never run. *)
Theorem reachable_photo_mode w : reachable w -> curMode (svc w) = MODE_PHOTO.
Proof.
  induction 1 as [w0 w H | w ev r w' _ IH H].
  - pose proof (construct_photo_mode w0) as Hp. rewrite H in Hp. exact Hp.
  - pose proof (events_photo_mode ev w IH) as Hp. rewrite H in Hp. exact Hp.
Qed.

(** ** The platform calls of the methods *)

(** The calls [releaseCamera] makes when every one of them resolves. *)
Definition releaseCalls (session input : Handle) (s : Svc) : list Call :=
  [CStop session; CRelease input] ++
  match previewOutput s with Some h => [CRelease h] | None => [] end ++
  match photoOutPut s with Some h => [CRelease h] | None => [] end ++
  [CRelease input; CRelease session].

(** Run a method symbolically in hypothesis [H]: split on the outcome of
    each platform call and on each optional field the method reads. *)
Ltac step_in H :=
  cbn in H; match type of H with
  | context [match ?t ?x with pair _ _ => _ end] =>
      lazymatch type of (t x) with (Outcome _ _ * W)%type =>
      let E := fresh "E" in destruct (t x) as [[?|?] ?] eqn:E end
  | context [match ?f (svc ?w) with Some _ => _ | None => _ end] =>
      let E := fresh "E" in destruct (f (svc w)) eqn:E
  | context [match decide ?P with left _ => _ | right _ => _ end] =>
      destruct (decide P)
  | context [match ?l with [] => _ | _ :: _ => _ end] =>
      is_var l; destruct l
  end.

Ltac unfold_methods :=
  unfold releaseCamera, initCamera, takePicture, onImageArrival, onNextImage, attempt,
    bind, try_catch, info, error, emit, modify, getSvc, setSvc, need, platform, ret, throw.

(** Rewrite the goal with the field equations the case split produced. *)
Ltac use_fields :=
  repeat match goal with Hx : _ (svc _) = _ |- _ => rewrite Hx end.

(** C21 (safety): when [releaseCamera] completes, the service had a
    capture session and a camera input, and the method stopped the
    session, released the input, the preview output and the photo output
    (those defined), then released the input a second time and only then
    the session (lines 258-269). *)
Theorem releaseCamera_releases_input_twice w w' :
  releaseCamera w = (Ok tt, w') ->
  exists session input,
    captureSession (svc w) = Some session /\ cameraInput (svc w) = Some input /\
    svc w' = svc w /\ calls w' = calls w ++ releaseCalls session input (svc w).
Proof.
  unfold_methods. intros H.
  repeat step_in H; try discriminate; injection H as _ <-; do 2 eexists; split_and!; eauto;
    unfold releaseCalls; cbn; use_fields; simplify_list_eq; done.
Qed.



(** C22 (error): [releaseCamera] before the capture session exists, and
    [takePicture] before the photo output exists, reject with a
    [TypeError] without calling the camera: the page's [aboutToDisappear]
    and shutter button reach them when [initCamera] has not finished or
    found no camera. *)
Theorem methods_before_init w :
  (captureSession (svc w) = None ->
   exists w', releaseCamera w = (Throw (TypeError "captureSession"), w') /\ calls w' = calls w) /\
  (photoOutPut (svc w) = None ->
   exists w', takePicture w = (Throw (TypeError "photoOutPut"), w') /\ calls w' = calls w).
Proof.
  split; intros Hn; unfold_methods; cbn.
  - rewrite Hn. by eexists.
  - destruct (decide (curMode (svc w) = MODE_VIDEO)); cbn; rewrite Hn; by eexists.
Qed.

(** C28 (functional): in photo mode, a completed [initCamera surfaceId]
    either found no camera, after getting the manager and the camera
    list, or created the input of the first camera, the preview output on
    [surfaceId] and the photo output on the receiver's surface, and
    configured the session in the order the camera kit requires: begin,
    add the input and both outputs, commit, start; the service keeps the
    handles. *)
Theorem initCamera_calls surfaceId w w' :
  curMode (svc w) = MODE_PHOTO ->
  initCamera surfaceId w = (Ok tt, w') ->
  (exists m, calls w' = calls w ++ [CGetCameraManager; CGetCameras m] /\
             cameras (svc w') = Some []) \/
  (exists m cam0 cams input preview r mSurfaceId photo session,
     mReceiver (svc w) = Some r /\
     calls w' = calls w ++
       [CGetCameraManager; CGetCameras m; CCreateCameraInput m cam0;
        CCreatePreviewOutput surfaceId; CGetReceivingSurfaceId r; CCreatePhotoOutput mSurfaceId;
        CCreateCaptureSession; CBeginConfig session; CAddInput session input;
        CAddOutput session preview; CAddOutput session photo; CCommitConfig session;
        CStart session] /\
     cameras (svc w') = Some (cam0 :: cams) /\ cameraInput (svc w') = Some input /\
     previewOutput (svc w') = Some preview /\ photoOutPut (svc w') = Some photo /\
     captureSession (svc w') = Some session).
Proof.
  intros Hmode. unfold_methods. intros H.
  repeat step_in H; try discriminate; try (rewrite Hmode in *; discriminate);
    injection H; clear H; intros; subst; [left | right]; cbn; simplify_list_eq; eauto 20.
Qed.

(** ** The optional fields are set in order

    [initCamera] assigns [cameraInput], [previewOutput], [photoOutPut] and
    [captureSession] in this order, each to an object, and nothing assigns
    them [undefined] again; the constructor starts with all four
    [undefined].  So a field is set only when the ones before it are. *)
Record wfSvc (s : Svc) : Prop := {
  wf_preview : previewOutput s <> None -> cameraInput s <> None;
  wf_photo : photoOutPut s <> None -> previewOutput s <> None;
  wf_session : captureSession s <> None -> photoOutPut s <> None
}.

(** A setter that leaves the four fields alone keeps [wfSvc]. *)
Ltac wf_setter :=
  match goal with Hs : wfSvc _ |- wfSvc _ => destruct Hs; split; cbn; auto end.

(** In photo mode [initCamera] keeps the order: its [MODE_VIDEO] branch
    is cut at once. *)
Lemma initCamera_wf surfaceId w :
  photoMode (svc w) -> wfSvc (svc w) -> wfSvc (svc (snd (initCamera surfaceId w))).
Proof.
  intros Hmode Hwf. destruct (initCamera surfaceId w) as [r w'] eqn:H. cbn [snd].
  revert H. unfold_methods. intros H. unfold photoMode in Hmode.
  repeat step_in H; try (rewrite Hmode in *; discriminate);
    injection H; clear H; intros; subst; cbn;
    destruct Hwf; split; cbn; auto; congruence.
Qed.

(** The other events leave the four fields alone. *)
Lemma events_wf ev w :
  photoMode (svc w) -> wfSvc (svc w) -> wfSvc (svc (snd (runEvent ev w))).
Proof.
  intros Hmode Hwf. destruct ev as [|surfaceId| | |].
  2: { pose proof (initCamera_wf surfaceId w Hmode Hwf) as Hi.
       cbn [runEvent]. unfold detach, try_catch, modify.
       destruct (initCamera surfaceId w) as [[|] w']; exact Hi. }
  all: apply (fun X : preserves (onSvc wfSvc) _ => X w Hwf);
    unfold runEvent, releaseCamera, takePicture, onImageArrival, onNextImage, savePicture,
      createAndGetUri, getFdPath, pageHandleTakePicture, setTakePictureCallback;
    solve_preserves; wf_setter.
Qed.

(** The four handles; [wfSvc] reads only them. *)
Definition handles (s : Svc) := (cameraInput s, previewOutput s, photoOutPut s, captureSession s).

Lemma wfSvc_handles s s' : handles s' = handles s -> wfSvc s -> wfSvc s'.
Proof. unfold handles. intros [= E1 E2 E3 E4] []. split; rewrite ?E1, ?E2, ?E3, ?E4; assumption. Qed.

(** The arrival handler leaves the handles alone. *)
Lemma arrival_handles h w :
  handles (svc w) = h -> handles (svc (snd (runEvent EArrival w))) = h.
Proof.
  intros Hh. apply (fun X : preserves (onSvc (fun s => handles s = h)) _ => X w Hh).
  unfold runEvent, onImageArrival, onNextImage, savePicture, createAndGetUri, getFdPath,
    pageHandleTakePicture; solve_preserves; exact Hs.
Qed.

Lemma construct_wf w0 : wfSvc (svc (snd (construct w0))).
Proof.
  apply (establishes_bind (onSvc wfSvc)); [by split | intros []]. solve_preserves. wf_setter.
Qed.

(** Photo mode and the order of the fields hold together in every
    reachable world. *)
Lemma reachable_wf w : reachable w -> photoMode (svc w) /\ wfSvc (svc w).
Proof.
  induction 1 as [w0 w H | w ev r w' _ [IHm IHw] H].
  - pose proof (construct_wf w0) as Hp. pose proof (construct_photo_mode w0) as Hm.
    rewrite H in Hp, Hm. by split.
  - pose proof (events_wf ev w IHm IHw) as Hp. pose proof (events_photo_mode ev w IHm) as Hm.
    rewrite H in Hp, Hm. by split.
Qed.

(** C23 (type): in every world the app can reach where the capture
    session exists, the fields [releaseCamera] and [takePicture]
    dereference are defined, so the two methods can reject only with an
    error of the camera kit, never with a [TypeError]. *)
Theorem reachable_methods_no_TypeError w :
  reachable w -> captureSession (svc w) <> None ->
  (forall e w', releaseCamera w = (Throw e, w') -> exists be, e = Rejected be) /\
  (forall e w', takePicture w = (Throw e, w') -> exists be, e = Rejected be).
Proof.
  intros Hr Hs. destruct (reachable_wf w Hr) as [_ [Hp Hph Hse]].
  specialize (Hse Hs). specialize (Hph Hse). specialize (Hp Hph).
  split; intros e w'; unfold_methods; intros H;
    repeat step_in H; try congruence; injection H; intros; subst; eauto.
Qed.



(** [n] arrival signals in a row. *)
Fixpoint arrivals (n : nat) : Task unit :=
  match n with
  | O => ret tt
  | Datatypes.S n' => let! _ := runEvent EArrival in arrivals n'
  end.

(** A detached promise changes only the list of unhandled rejections
    beyond what its body does. *)
Lemma detach_run c w :
  exists u, snd (detach c w) =
    mkWorld (plat (snd (c w))) (log (snd (c w))) (svc (snd (c w)))
            (thumbnail (snd (c w))) u (calls (snd (c w))) /\ fst (detach c w) = Ok tt.
Proof.
  unfold detach, try_catch, modify. destruct (c w) as [[[]|e] w'].
  - exists (unhandled w'). by destruct w'.
  - by eexists.
Qed.

Lemma arrivals_S n w :
  arrivals (Datatypes.S n) w = arrivals n (snd (runEvent EArrival w)).
Proof.
  cbn [arrivals runEvent]. unfold bind at 1.
  destruct (detach_run onImageArrival w) as (u & _ & Hok).
  destruct (detach onImageArrival w) as [o w'] eqn:E. cbn in Hok. by subst o.
Qed.

(** ** The receiver under its documented contract *)

Section Receiver.
Context `{HL : !ImageReceiverLaws (W:=W) (R:=R) (I:=I)}.

(** The laws at the calls of a case split. *)
Ltac use_laws r :=
  repeat match goal with
  | E : readNextImage _ ?r ?p = (Ok _, _) |- _ =>
      apply readNextImage_ok in E as (? & ? & ?)
  | E : readNextImage _ ?r ?p = (Throw _, _) |- _ =>
      apply readNextImage_throw in E as (? & ?)
  | E : getReceivingSurfaceId _ ?r' ?p = (_, ?p') |- _ =>
      let F := fresh "F" in
      pose proof (getReceivingSurfaceId_frame r r' p) as F; rewrite E in F; cbn in F; clear E
  | E : getComponent _ ?i ?c ?p = (_, ?p') |- _ =>
      let F := fresh "F" in
      pose proof (getComponent_frame r i c p) as F; rewrite E in F; cbn in F; clear E
  end.

(** C30 (safety): an arrival at a receiver that holds as many images as
    its capacity reads nothing: [readNextImage] rejects, the [catch] logs
    ["q_y24 readNextImage failed."], and the only platform calls are the
    read and the surface id; the receiver still holds as many images. *)
Theorem full_receiver_rejects r w res w' :
  mReceiver (svc w) = Some r ->
  held (plat w) r = Z.to_nat (rcv_capacity W (plat w) r) ->
  onImageArrival w = (res, w') ->
  held (plat w') r = held (plat w) r /\
  ConsoleLog ["q_y24 readNextImage failed."] ∈ log w' /\
  calls w' = calls w ++ [CReadNextImage r; CGetReceivingSurfaceId r].
Proof.
  intros Hr Hfull. unfold_methods. intros H.
  repeat (step_in H; try (simplify_eq; match goal with
    | E : readNextImage _ _ _ = (Ok _, _) |- _ => apply readNextImage_ok in E; lia end));
    try congruence;
    injection H; clear H; intros; subst; cbn; simplify_eq; use_laws r; destruct_and?;
    split_and!; try congruence; try set_solver; by rewrite <- ?app_assoc.
Qed.

(** Every [getComponent] rejects (a component the image does not have, an
    image already released). *)
Hypothesis getComponent_rejects :
  forall i c p, exists e p', getComponent W i c p = (Throw e, p').

Ltac no_component :=
  match goal with
  | E : getComponent _ ?i ?c ?p = (Ok _, _) |- _ =>
      destruct (getComponent_rejects i c p) as (? & ? & E'); congruence
  end.

Lemma arrival_frame r w res w' :
  mReceiver (svc w) = Some r -> onImageArrival w = (res, w') ->
  svc w' = svc w /\
  rcv_capacity W (plat w') r = rcv_capacity W (plat w) r /\
  (held (plat w') r = held (plat w) r \/
   (held (plat w) r < Z.to_nat (rcv_capacity W (plat w) r) /\
    held (plat w') r = Datatypes.S (held (plat w) r)))%nat /\
  exists l, calls w' = calls w ++ l /\ forall i, CReleaseImage i ∉ l.
Proof.
  intros Hr. unfold_methods. intros H.
  repeat (step_in H; try no_component); try congruence;
    injection H; clear H; intros; subst; cbn; simplify_eq; use_laws r; destruct_and?;
    split_and!; try done; try congruence;
    try (first [left; congruence | right; split; [done | congruence]]);
    eexists; (split; [rewrite <- ?app_assoc; reflexivity | set_solver]).
Qed.
(** C29 (safety): when every [getComponent] rejects, the handler returns
    at line 147 without [image.release()]: however many images arrive, no
    image is ever released, the number the receiver holds never goes down
    and stops growing at the capacity, and the service object is
    untouched. *)
Theorem component_failure_leaks n r w :
  mReceiver (svc w) = Some r ->
  let w' := snd (arrivals n w) in
  svc w' = svc w /\ rcv_capacity W (plat w') r = rcv_capacity W (plat w) r /\
  (held (plat w) r <= held (plat w') r <=
     Nat.max (held (plat w) r) (Z.to_nat (rcv_capacity W (plat w) r)))%nat /\
  exists l, calls w' = calls w ++ l /\ forall i, CReleaseImage i ∉ l.
Proof.
  revert w. induction n as [|n IH]; intros w Hr; cbn zeta.
  - cbn. split_and!; [done | done | lia | lia |]. exists []. split; [by rewrite app_nil_r | set_solver].
  - rewrite arrivals_S. change (runEvent EArrival) with (detach onImageArrival).
    destruct (detach_run onImageArrival w) as (u & Hw1 & _).
    destruct (onImageArrival w) as [res w1] eqn:E.
    destruct (arrival_frame r w res w1 Hr E) as (Hs & Hc & Hh & l1 & Hl1 & Hn1).
    rewrite Hw1. cbn [snd] in *.
    set (w1' := mkWorld (plat w1) (log w1) (svc w1) (thumbnail w1) u (calls w1)).
    destruct (IH w1') as (Hs2 & Hc2 & Hh2 & l2 & Hl2 & Hn2); [cbn; congruence|].
    cbn [w1' plat svc calls] in *.
    split_and!; [congruence | congruence | lia | lia |].
    exists (l1 ++ l2). split; [rewrite Hl2, Hl1; by rewrite app_assoc | set_solver].
Qed.

End Receiver.

End Service.
End CameraService.

(** * An executable platform

    A small simulation of the image, camera and media kits: it gives
    concrete worlds to the theorems above.  The receiver hands out the
    arrived images up to its capacity; [Image.release] frees a held image
    and rejects any other; [getComponent] succeeds exactly when the flag
    [compOk] of the platform's configuration says so; the camera kit
    rejects a second [release] of the same object when [strictRelease]
    says so; the media library rejects a display
    name it already holds; the clock gives one fixed reading. *)
Module CameraServiceSim.
Import DateTimeUtil MediaUtils CameraService.

Record Sim := mkSim {
  next : nat;
  rcvCap : Z;
  heldImgs : list nat;
  pending : nat;
  cams : list string;
  releasedH : list nat;
  clockR : DateReading;
  assets : list string
}.

(** The behaviours that differ between the simulated platforms. *)
Record SimCfg := mkCfg { compOk : bool; strictRelease : bool }.

(** The platform of configuration [cfg]. *)
Definition SimW (cfg : SimCfg) := Sim.

Definition simErr (c : Z) (m : string) : BusinessError := mkError c m [].

Section SimOps.
Context (cfg : SimCfg).
Local Abbreviation Op := (M (SimW cfg) BusinessError).

Definition fresh : Op nat := fun p =>
  (Ok (next p), mkSim (S (next p)) (rcvCap p) (heldImgs p) (pending p) (cams p) (releasedH p) (clockR p) (assets p)).

Definition sim_readNextImage (r : nat) : Op nat := fun p =>
  if bool_decide (0 < pending p /\ length (heldImgs p) < Z.to_nat (rcvCap p))%nat
  then (Ok (next p), mkSim (S (next p)) (rcvCap p) (next p :: heldImgs p) (pred (pending p))
                           (cams p) (releasedH p) (clockR p) (assets p))
  else (Throw (simErr 62980096 "no image"), p).

Definition sim_img_release (i : nat) : Op unit := fun p =>
  if bool_decide (i ∈ heldImgs p)
  then (Ok tt, mkSim (next p) (rcvCap p) (filter (fun j => j <> i) (heldImgs p)) (pending p)
                     (cams p) (releasedH p) (clockR p) (assets p))
  else (Throw (simErr 62980096 "not held"), p).

Definition sim_release (h : nat) : Op unit := fun p =>
  if strictRelease cfg && bool_decide (h ∈ releasedH p)
  then (Throw (simErr 7400201 "already released"), p)
  else (Ok tt, mkSim (next p) (rcvCap p) (heldImgs p) (pending p) (cams p) (h :: releasedH p)
                     (clockR p) (assets p)).

Definition sim_createAsset (t : MediaType) (name dir : string) : Op nat := fun p =>
  if bool_decide (name ∈ assets p)
  then (Throw (simErr 13900015 "file exists"), p)
  else (Ok (next p), mkSim (S (next p)) (rcvCap p) (heldImgs p) (pending p) (cams p)
                           (releasedH p) (clockR p) (name :: assets p)).

Definition sim_createImageReceiver (width height format capacity : Z) : Op (option nat) :=
  fun p => (Ok (Some 0%nat), mkSim (next p) capacity (heldImgs p) (pending p) (cams p)
                                   (releasedH p) (clockR p) (assets p)).

#[global] Instance sim_factory : ImageFactoryApi (SimW cfg) unit unit unit nat unit unit unit := {|
  createPixelMap _ _ := ret tt;
  createPixelMapFromParcel _ := ret tt;
  createImageSource _ _ := ret (Some tt);
  CreateIncrementalSource _ _ := ret (Some tt);
  createImagePacker := ret (Some tt);
  createImageReceiver := sim_createImageReceiver;
  createImageCreator _ _ _ _ := ret (Some tt)
|}.

#[global] Instance sim_receiver : ImageReceiverApi (SimW cfg) nat nat := {|
  rcv_size _ _ := Size.mkSize 1080 1920;
  rcv_capacity p _ := rcvCap p;
  rcv_format _ _ := ImageFormat.JPEG;
  getReceivingSurfaceId _ := ret "surface-0";
  readLatestImage := sim_readNextImage;
  readNextImage := sim_readNextImage;
  on_imageArrival _ := ret tt;
  rcv_release _ := ret tt
|}.

#[global] Instance sim_image : ImageObjApi (SimW cfg) nat := {|
  clipRect _ _ := Region.mkRegion (Size.mkSize 1080 1920) 0 0;
  set_clipRect _ _ := ret tt;
  img_size _ _ := Size.mkSize 1080 1920;
  img_format _ _ := 2000;
  getComponent _ c := if compOk cfg then ret (Component.mkComponent c 0 0 [])
                      else throw (simErr 62980096 "no component");
  img_release := sim_img_release
|}.

#[global] Instance sim_camera : CameraKit (SimW cfg) := {|
  getCameraManager := fresh;
  getCameras _ := fun p => (Ok (cams p), p);
  createCameraInput _ _ := fresh;
  createPreviewOutput _ := fresh;
  createPhotoOutput _ := fresh;
  createCaptureSession := fresh;
  beginConfig _ := ret tt;
  addInput _ _ := ret tt;
  addOutput _ _ := ret tt;
  commitConfig _ := ret tt;
  start _ := ret tt;
  stop _ := ret tt;
  release := sim_release;
  capture _ _ := ret tt
|}.

#[global] Instance sim_media : MediaKit (SimW cfg) nat := {|
  now := fun p => (Ok (clockR p), p);
  getPublicDirectory _ := ret "Pictures/";
  createAsset := sim_createAsset;
  assetUri _ a := "datashare:///media/image/" +:+ Js.string_of_nat a;
  open_ _ _ := ret 7;
  close _ _ := ret tt;
  write _ _ := ret tt
|}.

#[global] Instance sim_laws : ImageReceiverLaws (W:=SimW cfg) (R:=nat) (I:=nat).
Proof.
  refine {| held p _ := length (heldImgs p) |}.
  - intros r p i p'. cbn. unfold sim_readNextImage.
    case_bool_decide as Hc; [|done]. intros [= <- <-]. cbn. lia.
  - intros r p e p'. cbn. unfold sim_readNextImage.
    case_bool_decide; [done|]. by intros [= _ <-].
  - intros r i c p. cbn. by destruct (compOk cfg).
  - done.
Defined.
End SimOps.

End CameraServiceSim.

(** * Runs of the service on the simulated platform *)
Module CameraServiceExamples.
Import DateTimeUtil MediaUtils CameraService CameraServiceSim.
Local Open Scope nat_scope.

Definition reading0 : DateReading := mkReading 2024 0 15 12 30 5.

(** Platforms: everything succeeds; a second release is refused; no
    component can be read. *)
Definition lenient : SimCfg := mkCfg true false.
Definition strict : SimCfg := mkCfg true true.
Definition noComp : SimCfg := mkCfg false false.

(** One camera, [pend] images about to arrive, the clock at [reading0]. *)
Definition world0 (cfg : SimCfg) (pend : nat) : @World (SimW cfg) nat nat nat :=
  mkWorld (mkSim 1 0 [] pend ["camera-0"] [] reading0 []) [] freshSvc "" [] [].

Definition constructed cfg pend := snd (construct (world0 cfg pend)).
Definition loaded cfg pend := snd (initCamera "xsurface" (constructed cfg pend)).

(** Two images that arrive within one second of the clock
    (the page registered its callback, the camera is initialised): the
    first is saved as [IMG_20240115_123005.jpg] and released; the second
    gets the same display name, the media library refuses it, the
    rejection of the detached [savePicture] is unhandled and the second
    image is never released. *)
Example same_second_image_leak :
  let w := snd (arrivals 2 (snd (runEvent EAppear (loaded lenient 2)))) in
  heldImgs (plat w) = [8%nat] /\
  assets (plat w) = ["IMG_20240115_123005.jpg"] /\
  unhandled w = [Rejected (simErr 13900015 "file exists")] /\
  thumbnail w = "datashare:///media/image/7".
Proof. vm_compute. split_and!; reflexivity. Qed.

(** With a camera kit that refuses to release an object
    twice, [releaseCamera] after a successful [initCamera] rejects at the
    second [cameraInput.release()]: the capture session is stopped but
    never released. *)
Example double_release_skips_session :
  let w := loaded strict 2 in
  captureSession (svc w) = Some 5%nat /\ cameraInput (svc w) = Some 2%nat /\
  fst (releaseCamera w) = Throw (Rejected (simErr 7400201 "already released")) /\
  calls (snd (releaseCamera w)) =
    calls w ++ [CStop 5; CRelease 2; CRelease 3; CRelease 4; CRelease 2].
Proof. vm_compute. split_and!; reflexivity. Qed.

Lemma reachable_photo_mode_witness :
  reachable (constructed lenient 2) /\ curMode (svc (constructed lenient 2)) = MODE_PHOTO.
Proof.
  assert (H : reachable (constructed lenient 2)).
  { apply (reach_construct (world0 lenient 2)). vm_compute. reflexivity. }
  split; [exact H | apply (reachable_photo_mode _ H)].
Defined.

Lemma releaseCamera_releases_input_twice_witness :
  let w := loaded lenient 2 in
  releaseCamera w = (Ok tt, snd (releaseCamera w)) /\
  exists session input,
    captureSession (svc w) = Some session /\ cameraInput (svc w) = Some input /\
    svc (snd (releaseCamera w)) = svc w /\
    calls (snd (releaseCamera w)) = calls w ++ releaseCalls session input (svc w).
Proof.
  intros w. assert (H : releaseCamera w = (Ok tt, snd (releaseCamera w))) by (vm_compute; reflexivity).
  split; [exact H | exact (releaseCamera_releases_input_twice w _ H)].
Defined.

Lemma methods_before_init_witness :
  let w := constructed lenient 2 in
  captureSession (svc w) = None /\ photoOutPut (svc w) = None /\
  (exists w', releaseCamera w = (Throw (TypeError "captureSession"), w') /\ calls w' = calls w) /\
  (exists w', takePicture w = (Throw (TypeError "photoOutPut"), w') /\ calls w' = calls w).
Proof.
  intros w. assert (H1 : captureSession (svc w) = None) by (vm_compute; reflexivity).
  assert (H2 : photoOutPut (svc w) = None) by (vm_compute; reflexivity).
  destruct (methods_before_init w) as [Hr Ht].
  split_and!; [exact H1 | exact H2 | exact (Hr H1) | exact (Ht H2)].
Defined.

Lemma initCamera_calls_witness :
  let w := constructed lenient 2 in
  curMode (svc w) = MODE_PHOTO /\
  initCamera "xsurface" w = (Ok tt, snd (initCamera "xsurface" w)) /\
  calls (snd (initCamera "xsurface" w)) = calls w ++
    [CGetCameraManager; CGetCameras 1; CCreateCameraInput 1 "camera-0";
     CCreatePreviewOutput "xsurface"; CGetReceivingSurfaceId 0; CCreatePhotoOutput "surface-0";
     CCreateCaptureSession; CBeginConfig 5; CAddInput 5 2; CAddOutput 5 3; CAddOutput 5 4;
     CCommitConfig 5; CStart 5].
Proof.
  intros w. assert (Hm : curMode (svc w) = MODE_PHOTO) by (vm_compute; reflexivity).
  assert (H : initCamera "xsurface" w = (Ok tt, snd (initCamera "xsurface" w)))
    by (vm_compute; reflexivity).
  destruct (initCamera_calls "xsurface" w _ Hm H) as [(m & Hc & Hcams) | Hfull].
  - exfalso. revert Hcams. vm_compute. discriminate.
  - split_and!; [exact Hm | exact H | vm_compute; reflexivity].
Defined.

(** Every [getComponent] of the [noComp] platform rejects. *)
Lemma noComp_rejects :
  forall i c p, exists e p', @getComponent (SimW noComp) nat _ i c p = (Throw e, p').
Proof. intros i c p. by do 2 eexists. Qed.

Lemma component_failure_leaks_witness :
  let w := loaded noComp 3 in
  let w' := snd (arrivals 3 w) in
  mReceiver (svc w) = Some 0%nat /\
  svc w' = svc w /\ rcv_capacity _ (plat w') 0%nat = rcv_capacity _ (plat w) 0%nat /\
  (held (plat w) 0%nat <= held (plat w') 0%nat <=
     Nat.max (held (plat w) 0%nat) (Z.to_nat (rcv_capacity _ (plat w) 0%nat)))%nat /\
  exists l, calls w' = calls w ++ l /\ forall i, CReleaseImage i ∉ l.
Proof.
  intros w w'. assert (Hr : mReceiver (svc w) = Some 0%nat) by (vm_compute; reflexivity).
  split; [exact Hr | exact (component_failure_leaks noComp_rejects 3 0 w Hr)].
Defined.

(** A receiver that already holds its 8 images. *)
Definition fullWorld : @World (SimW lenient) nat nat nat :=
  let w := loaded lenient 3 in
  mkWorld (mkSim 20 8 [10; 11; 12; 13; 14; 15; 16; 17]%nat 3 ["camera-0"] [] reading0 [])
          (log w) (svc w) (thumbnail w) (unhandled w) (calls w).

Lemma full_receiver_rejects_witness :
  let w := fullWorld in
  mReceiver (svc w) = Some 0%nat /\
  held (plat w) 0%nat = Z.to_nat (rcv_capacity _ (plat w) 0%nat) /\
  held (plat (snd (onImageArrival w))) 0%nat = held (plat w) 0%nat /\
  ConsoleLog ["q_y24 readNextImage failed."] ∈ log (snd (onImageArrival w)) /\
  calls (snd (onImageArrival w)) = calls w ++ [CReadNextImage 0%nat; CGetReceivingSurfaceId 0%nat].
Proof.
  intros w. assert (Hr : mReceiver (svc w) = Some 0%nat) by (vm_compute; reflexivity).
  assert (Hf : held (plat w) 0%nat = Z.to_nat (rcv_capacity _ (plat w) 0%nat))
    by (vm_compute; reflexivity).
  split_and!; [exact Hr | exact Hf |..];
    destruct (full_receiver_rejects 0 w _ _ Hr Hf (surjective_pairing _)) as (H1 & H2 & H3);
    assumption.
Defined.
(** Witness of [reachable_methods_no_TypeError]: the world after the
    page's [onLoad] initialised the camera. *)
Lemma reachable_methods_no_TypeError_witness :
  let w := snd (runEvent (ELoad "xsurface") (constructed lenient 2)) in
  reachable w /\ captureSession (svc w) <> None /\
  (forall e w', releaseCamera w = (Throw e, w') -> exists be, e = Rejected be) /\
  (forall e w', takePicture w = (Throw e, w') -> exists be, e = Rejected be).
Proof.
  intros w.
  assert (Hc : reachable (constructed lenient 2)).
  { apply (reach_construct (world0 lenient 2)). vm_compute. reflexivity. }
  assert (Hr : reachable w).
  { apply (reach_event _ (ELoad "xsurface") (fst (runEvent (ELoad "xsurface") (constructed lenient 2)))
             w Hc).
    apply surjective_pairing. }
  assert (Hs : captureSession (svc w) <> None) by (vm_compute; discriminate).
  split_and!; [exact Hr | exact Hs | apply (reachable_methods_no_TypeError w Hr Hs)..].
Defined.



End CameraServiceExamples.
