(* ===== verification/SampleMedia.v ===== *)
(** * The sample app's album list: [MediaUtils.getAlbums] and its pages

    [MediaUtils.getFileAssetsFromType] (lines 480-494 of [CameraPage.js])
    fetches the assets of one media type through the media library's
    [getFileAssets], and [getAlbums] (lines 495-517) builds the four albums
    Documents, Pictures, Videos and Audios from four such fetches run by
    [Promise.all].  The media library query is the type class
    [MediaQuery]; [MediaQueryLaws] states what the code relies on: a fetch
    by media type lists the assets of that type and reading changes
    nothing.

    [Promise.all] starts the four calls in order, each running up to its
    first [await] (the log line and the [getFileAssets] call); the
    continuations then run, here in the same order; the combined promise
    rejects with the first rejection in list order, after every
    continuation ran.

    The pages of [Index.js]: [Index] (lines 94-206) toggles its operation
    menu and opens [CameraPage]; [MediaView] (lines 396-466) lists the
    albums and opens an album with at least one asset.  The only code that
    fills [Index.albums] ([getAlbums] in [onPageShow], lines 148-153) is
    commented out, so the list stays empty; the camera page, by contrast,
    can be opened from every state with at most two clicks. *)

From S2P Require Import Prelude JsString FileSystem SampleUtils CameraService.

Local Open Scope Z_scope.

Module SampleMedia.
Import MediaUtils CameraService.

(** [mediaLibrary.FileKey.MEDIA_TYPE]. *)
Definition MEDIA_TYPE_KEY : string := "media_type".

(** An album of [getAlbums]. *)
Record Album := mkAlbum { albumName : string; count : Z; mediaType : MediaType }.

(** The album names and media types of [getAlbums], in push order. *)
Definition albumTypes : list (string * MediaType) :=
  [("Documents", FILE); ("Pictures", IMAGE); ("Videos", VIDEO); ("Audios", AUDIO)].

(** [mediaLibrary.getFileAssets] and the [FetchFileResult] it gives. *)
Class MediaQuery (W Fetch Asset : Type) := {
  getFileAssets : string -> list string -> M W BusinessError Fetch;
  getCount : W -> Fetch -> Z;
  getAllObject : Fetch -> M W BusinessError (list Asset)
}.

Section Albums.
Context {W R I Asset Fetch : Type} `{!MediaQuery W Fetch Asset}.
Local Abbreviation World := (@CameraService.World W R I Asset).
Local Abbreviation Task := (@CameraService.Task W R I Asset).

(** A media library call, a rejection becoming [Rejected]. *)
Definition query {A} (op : M W BusinessError A) : Task A :=
  fun w => match op (plat w) with
           | (Ok a, p') => (Ok a, mkWorld p' (log w) (svc w) (thumbnail w) (unhandled w) (calls w))
           | (Throw e, p') => (Throw (Rejected e), mkWorld p' (log w) (svc w) (thumbnail w) (unhandled w) (calls w))
           end.

(** Lines 481-487: [getFileAssetsFromType] up to its first [await]. *)
Definition fetchStart (t : MediaType) : Task (Outcome JsError Fetch) :=
  let! _ := info [mediaTag; "getFileAssetsFromType,mediaType = " +:+ mediaTypeValue t] in
  attempt (query (getFileAssets (MEDIA_TYPE_KEY +:+ "=?") [mediaTypeValue t])).

(** Lines 488-493: the rest of [getFileAssetsFromType]. *)
Definition fetchRest (fetchFileResult : Fetch) : Task (list Asset) :=
  let! w := get in
  let! _ := info [mediaTag; "getFileAssetsFromType,fetchFileResult.count = " +:+
                   Js.string_of_Z (getCount (plat w) fetchFileResult)] in
  let! w := get in
  if 0 <? getCount (plat w) fetchFileResult then query (getAllObject fetchFileResult)
  else ret [].

Definition fetchFinish (o : Outcome JsError Fetch) : Task (Outcome JsError (list Asset)) :=
  match o with
  | Ok f => attempt (fetchRest f)
  | Throw e => ret (Throw e)
  end.

Fixpoint mapTask {A B} (f : A -> Task B) (l : list A) : Task (list B) :=
  match l with
  | [] => ret []
  | x :: l' => let! y := f x in let! ys := mapTask f l' in ret (y :: ys)
  end.

(** The value of [Promise.all]: every result, or the first rejection. *)
Fixpoint allOk {E A} (l : list (Outcome E A)) : Outcome E (list A) :=
  match l with
  | [] => Ok []
  | Ok a :: l' => match allOk l' with Ok r => Ok (a :: r) | Throw e => Throw e end
  | Throw e :: _ => Throw e
  end.

(** Lines 495-517. *)
Definition getAlbums : Task (list Album) :=
  let! _ := info [mediaTag; "getAlbums begin"] in
  let! started := mapTask fetchStart (map snd albumTypes) in
  let! finished := mapTask fetchFinish started in
  match allOk finished with
  | Ok lists => ret (zip_with (fun '(name, t) assets => mkAlbum name (Z.of_nat (length assets)) t)
                              albumTypes lists)
  | Throw e => throw e
  end.
End Albums.

(** What a fetch by media type gives. *)
Class MediaQueryLaws (W Fetch Asset : Type) `{!MediaQuery W Fetch Asset} := {
  assetsOfType : W -> MediaType -> list Asset;
  getFileAssets_type t p f p' :
    getFileAssets (MEDIA_TYPE_KEY +:+ "=?") [mediaTypeValue t] p = (Ok f, p') ->
    p' = p /\ getCount p f = Z.of_nat (length (assetsOfType p t)) /\
    (0 < length (assetsOfType p t) -> getAllObject f p = (Ok (assetsOfType p t), p))%nat
}.

(** ** The pages *)

(** Where [router.push] leads. *)
Inductive Route :=
| RCameraPage
| RAlbumPage (albumName : string) (mediaType : MediaType).

(** The state of the [Index] page and of its [MediaView] child, which
    shares [albums] (a two-way link): the page's three fields (lines
    96-103; [selectIndex] is never read), the routes pushed and the alert
    dialogs shown. *)
Record PageState := mkPage {
  albums : list Album;
  selectIndex : Z;
  operateVisible : bool;
  routes : list Route;
  alerts : nat
}.

(** The [params] object of the constructor. *)
Record IndexParams := mkParams {
  p_albums : option (list Album);
  p_selectIndex : option Z;
  p_operateVisible : option bool
}.

(** Lines 106-116: a field is replaced by the parameter that is not
    [undefined]. *)
Definition updateWithValueParams (params : IndexParams) (s : PageState) : PageState :=
  mkPage (default (albums s) (p_albums params)) (default (selectIndex s) (p_selectIndex params))
         (default (operateVisible s) (p_operateVisible params)) (routes s) (alerts s).

(** Lines 95-105: the initial values of the fields, then the
    parameters. *)
Definition newIndex (params : IndexParams) : PageState :=
  updateWithValueParams params (mkPage [] 0 false [] 0).

(** Line 207: [loadDocument(new Index("1", undefined, {}))]. *)
Definition initialPage : PageState := newIndex (mkParams None None None).

Inductive PageEvent :=
| EMenuClick
| ECameraClick
| EAlbumClick (index : nat)
| EPageShow.

(** The handlers: the menu button (lines 189-193); the camera button,
    rendered only while the menu is open (lines 195-201); a list item of
    [MediaView] (lines 423-442); [onPageShow], whose body is commented
    out.  An event on an element that is not rendered does not happen. *)
Definition pageStep (s : PageState) (ev : PageEvent) : option PageState :=
  match ev with
  | EMenuClick => Some (mkPage (albums s) (selectIndex s) (negb (operateVisible s)) (routes s) (alerts s))
  | ECameraClick =>
      if operateVisible s
      then Some (mkPage (albums s) (selectIndex s) (negb (operateVisible s)) (routes s ++ [RCameraPage])
                       (alerts s))
      else None
  | EAlbumClick n =>
      match albums s !! n with
      | Some item =>
          if 0 <? count item
          then Some (mkPage (albums s) (selectIndex s) (operateVisible s)
                       (routes s ++ [RAlbumPage (albumName item) (mediaType item)]) (alerts s))
          else Some (mkPage (albums s) (selectIndex s) (operateVisible s) (routes s) (S (alerts s)))
      | None => None
      end
  | EPageShow => Some s
  end.

Inductive pageReachable : PageState -> Prop :=
| page_init : pageReachable initialPage
| page_step s ev s' : pageReachable s -> pageStep s ev = Some s' -> pageReachable s'.

(** ** [getAlbums] under the query contract *)

Section AlbumsSpec.
Context {W R I Asset Fetch : Type} `{!MediaQuery W Fetch Asset} `{!MediaQueryLaws W Fetch Asset}.

(** Symbolic run: split on each fetch, apply the contract, split on the
    count test. *)
Ltac album_step H :=
  cbn -[mediaTypeValue] in H; match type of H with
  | context [getFileAssets ?k [mediaTypeValue ?t] ?p] =>
      let E := fresh "E" in
      destruct (getFileAssets k [mediaTypeValue t] p) as [[?f|?e] ?p'] eqn:E;
      [apply getFileAssets_type in E as (-> & ?Hc & ?Hall) |]
  | context [(0 <? getCount ?p ?f)] =>
      first [ match goal with Hc : getCount p f = ?v |- _ =>
                rewrite Hc in H; destruct (Z.ltb_spec 0 v) end
            | destruct (0 <? getCount p f) ]
  | context [getAllObject ?f ?p] =>
      first [ match goal with Hall : (0 < _ -> getAllObject f p = _)%nat |- _ =>
                rewrite Hall in H by lia end
            | destruct (getAllObject f p) as [[?|?] ?] ]
  end.

(** C34 (functional): when [getAlbums] completes, it returns the albums
    Documents, Pictures, Videos and Audios, in this order, each with the
    number of assets of its media type, and it changes nothing in the
    media library. *)
Theorem getAlbums_counts (w w' : @World W R I Asset) albums :
  getAlbums w = (Ok albums, w') ->
  plat w' = plat w /\
  albums = map (fun '(name, t) => mkAlbum name (Z.of_nat (length (assetsOfType (plat w) t))) t)
               albumTypes.
Proof.
  unfold getAlbums. cbn [mapTask map snd albumTypes].
  unfold fetchFinish, fetchStart, fetchRest, attempt, query, info, emit,
    bind, try_catch, modify, get, ret, throw. intros H.
  repeat (first [album_step H | progress (cbn -[mediaTypeValue] in H; unfold bind, ret in H)]; try discriminate);
    cbn in H; injection H as <- <-;
    (split; [done|]); cbn;
    repeat match goal with Hl : (Z.of_nat (length ?l) <= 0)%Z |- _ =>
      assert (length l = 0)%nat by lia; clear Hl end;
    repeat match goal with Hl : length ?l = 0%nat |- _ => apply nil_length_inv in Hl; rewrite Hl end;
    reflexivity.
Qed.
End AlbumsSpec.

(** ** The pages *)

(** C18 (invariant): the album list of the [Index] page is empty in every
    state the page can reach, since nothing assigns it ([onPageShow] has
    its body commented out).  So [MediaView] shows no album, and the only
    page ever opened is the camera page. *)
Theorem page_albums_empty s : pageReachable s -> albums s = [] /\ Forall (fun r => r = RCameraPage) (routes s).
Proof.
  induction 1 as [|s ev s' _ [IHa IHr] Hs]; [split; constructor|].
  destruct ev as [| |n|]; cbn in Hs.
  - injection Hs as <-. done.
  - destruct (operateVisible s); [|discriminate]. injection Hs as <-. cbn.
    split; [done|]. apply Forall_app; auto.
  - rewrite IHa in Hs. discriminate.
  - by injection Hs as <-.
Qed.

(** A sequence of events on the page; [None] when an event targets an
    element that is not rendered. *)
Fixpoint pageRun (s : PageState) (evs : list PageEvent) : option PageState :=
  match evs with
  | [] => Some s
  | ev :: evs' => match pageStep s ev with Some s' => pageRun s' evs' | None => None end
  end.

(** C35 (liveness): whatever state the [Index] page is in, the camera page
    can be opened: the camera button is rendered only while the menu is
    open, and the menu button toggles it, so at most two clicks push the
    camera route; they leave the menu closed and the albums as they
    were. *)
Theorem camera_page_always_opens s :
  exists evs s', (length evs <= 2)%nat /\ pageRun s evs = Some s' /\
    routes s' = routes s ++ [RCameraPage] /\ operateVisible s' = false /\ albums s' = albums s.
Proof.
  destruct (operateVisible s) eqn:Hv.
  - exists [ECameraClick]. eexists. cbn. rewrite Hv. split_and!; [lia|..]; reflexivity.
  - exists [EMenuClick; ECameraClick]. eexists. cbn. rewrite Hv. split_and!; [lia|..]; reflexivity.
Qed.

(** The camera page is opened only from the open menu, which the click
    closes. *)
Lemma camera_click_closes_menu s s' :
  pageStep s ECameraClick = Some s' ->
  operateVisible s = true /\ operateVisible s' = false /\ routes s' = routes s ++ [RCameraPage].
Proof. cbn. destruct (operateVisible s); [|discriminate]. by intros [= <-]. Qed.

End SampleMedia.

Module SampleMediaWitness.
Import MediaUtils CameraService SampleMedia.

(** A media library of named assets with their types; a fetch by media
    type lists the names of that type. *)
Definition Library := list (MediaType * string).

Definition ofType (v : string) (p : Library) : list string :=
  map snd (filter (fun a => bool_decide (mediaTypeValue a.1 = v)) p).

#[global] Instance library_query : MediaQuery Library (list string) string := {|
  getFileAssets sel args p :=
    match args with [v] => (Ok (ofType v p), p) | _ => (Ok [], p) end;
  getCount _ f := Z.of_nat (length f);
  getAllObject f p := (Ok f, p)
|}.

#[global] Instance library_laws : MediaQueryLaws Library (list string) string.
Proof.
  refine {| assetsOfType p t := ofType (mediaTypeValue t) p |}.
  intros t p f p' [= <- <-]. done.
Defined.

Definition library : Library := [(IMAGE, "IMG_1.jpg"); (FILE, "notes.txt"); (IMAGE, "IMG_2.jpg")].

Definition libraryWorld : @World Library unit unit string :=
  mkWorld library [] freshSvc "" [] [].

Lemma getAlbums_counts_witness :
  getAlbums libraryWorld = (Ok [mkAlbum "Documents" 1 FILE; mkAlbum "Pictures" 2 IMAGE;
                                mkAlbum "Videos" 0 VIDEO; mkAlbum "Audios" 0 AUDIO],
                            snd (getAlbums libraryWorld)) /\
  plat (snd (getAlbums libraryWorld)) = library.
Proof.
  assert (H : getAlbums libraryWorld =
                (Ok [mkAlbum "Documents" 1 FILE; mkAlbum "Pictures" 2 IMAGE;
                     mkAlbum "Videos" 0 VIDEO; mkAlbum "Audios" 0 AUDIO],
                 snd (getAlbums libraryWorld))) by (vm_compute; reflexivity).
  split; [exact H | exact (proj1 (getAlbums_counts _ _ _ H))].
Defined.
Lemma page_albums_empty_witness :
  let s := mkPage [] 0 false [RCameraPage] 0 in
  pageReachable s /\ albums s = [] /\ Forall (fun r => r = RCameraPage) (routes s).
Proof.
  intros s. assert (H : pageReachable s).
  { apply (page_step (mkPage [] 0 true [] 0) ECameraClick); [|reflexivity].
    apply (page_step initialPage EMenuClick); [apply page_init | reflexivity]. }
  split; [exact H | exact (page_albums_empty s H)].
Defined.
End SampleMediaWitness.
