(* ===== verification/MediaFiles.v ===== *)
(** * The rest of [MediaUtils]: files by id, deletion and change listeners

    [CameraPage.js] lines 451-479 and 518-551: [queryFile] fetches the
    asset whose [FileKey.ID] is the id of a given asset, [createFile]
    creates an asset through [createAndGetUri], finds it again with
    [queryFile] and opens it with [getFdPath], [deleteFile] deletes an
    asset by its URI, and [onDateChange] / [offDateChange] subscribe the
    page's callback to the five change events of the media library and
    unsubscribe it.  The built app never calls them (the [Index] page has
    the calls commented out), so they are modelled for completeness of
    [MediaUtils].

    The members of the media library beyond [MediaKit] and [MediaQuery]
    that these methods use are the type class [MediaLibrary];
    [MediaChangeLaws] states what [on] and [off] do to the set of
    subscribed event types, under which [offDateChange] undoes
    [onDateChange]. *)

From S2P Require Import Prelude JsString FileSystem SampleUtils CameraService SampleMedia.

Local Open Scope Z_scope.

Module MediaFiles.
Import MediaUtils CameraService SampleMedia.
Local Set Warnings "-clear-no-such-hyp".

(** [mediaLibrary.FileKey.ID]. *)
Definition ID_KEY : string := "file_id".

(** [FileAsset.id], [MediaLibrary.deleteAsset(uri)],
    [MediaLibrary.on(type, callback)] and [MediaLibrary.off(type)]. *)
Class MediaLibrary (W Asset : Type) := {
  assetId : W -> Asset -> Z;
  deleteAsset : string -> M W BusinessError unit;
  media_on : string -> M W BusinessError unit;
  media_off : string -> M W BusinessError unit
}.

(** The change events, in the order the code subscribes to them. *)
Definition changeTypes : list string :=
  ["albumChange"; "imageChange"; "audioChange"; "videoChange"; "fileChange"].

Section Files.
Context {W R I Asset Fetch : Type}.
Context `{!MediaKit W Asset} `{!MediaQuery W Fetch Asset} `{!MediaLibrary W Asset}.
Local Abbreviation Task := (@CameraService.Task W R I Asset).

(** Lines 451-464: [undefined] without an asset, else the first asset
    of the fetch by id ([fileAsset[0]], [undefined] when there is none). *)
Definition queryFile (dataUri : option Asset) : Task (option Asset) :=
  match dataUri with
  | None => ret None
  | Some uri =>
      let! w := get in
      let args := Js.string_of_Z (assetId (plat w) uri) in
      let! fetchFileResult := query (getFileAssets (ID_KEY +:+ "=?") [args]) in
      let! w := get in
      let! _ := info [mediaTag; "fetchFileResult.getCount() = " +:+
                       Js.string_of_Z (getCount (plat w) fetchFileResult)] in
      let! fileAsset := query (getAllObject fetchFileResult) in
      ret (head fileAsset)
  end.

(** Lines 470-479.  [createAndGetUri] resolves to a [FileAsset], an
    object, so the test [if (dataUri)] always passes. *)
Definition createFile (mediaType : MediaType) : Task (option Z) :=
  let! dataUri := createAndGetUri mediaType in
  let! fileAsset := queryFile (Some dataUri) in
  match fileAsset with
  | Some fa => let! fd := getFdPath fa in ret (Some fd)
  | None => ret None
  end.

(** Lines 518-522: the promise of [deleteAsset] is returned, so its
    rejection reaches the caller. *)
Definition deleteFile (media : Asset) : Task unit :=
  let! w := get in
  let uri := assetUri (plat w) media in
  let! _ := info [mediaTag; "deleteFile,uri = " +:+ uri] in
  query (deleteAsset uri).

(** The listener registered for the change event [type]: it logs, then
    runs the page's callback (lines 525-527 and the four like it). *)
Definition changeListener (type : string) (callback : Task unit) : Task unit :=
  let! _ := info [mediaTag; type +:+ " called"] in
  callback.

(** Lines 523-544: five subscriptions in order; a synchronous error of
    [on] ends the method. *)
Definition onDateChange : Task unit :=
  for_each changeTypes (fun type => query (media_on type)).

(** Lines 545-551. *)
Definition offDateChange : Task unit :=
  for_each changeTypes (fun type => query (media_off type)).
End Files.

(** What [on] and [off] do: the platform keeps the set of event types that
    have a listener; [on] adds one, [off] removes it. *)
Class MediaChangeLaws (W Asset : Type) `{!MediaLibrary W Asset} := {
  subscribed : W -> gset string;
  media_on_ok type p u p' : media_on type p = (Ok u, p') -> subscribed p' = {[type]} ∪ subscribed p;
  media_off_ok type p u p' :
    media_off type p = (Ok u, p') -> subscribed p' = subscribed p ∖ {[type]}
}.

Section Changes.
Context {W R I Asset : Type} `{!MediaLibrary W Asset} `{!MediaChangeLaws W Asset}.

(** The subscriptions after a loop of [on] or [off] calls that completes:
    each call adds or removes its type. *)
Lemma for_each_subscribed (f : string -> M W BusinessError unit)
      (step : string -> gset string -> gset string) types (w : @CameraService.World W R I Asset) :
  (forall type p u p', f type p = (Ok u, p') -> subscribed p' = step type (subscribed p)) ->
  fst (for_each types (fun type => query (f type)) w) = Ok tt ->
  subscribed (plat (snd (for_each types (fun type => query (f type)) w))) =
    foldl (fun X type => step type X) (subscribed (plat w)) types.
Proof.
  intros Hok. revert w. induction types as [|t types IH]; intros w; [done|].
  cbn [for_each foldl]. unfold bind at 1 2. unfold query at 1 3.
  destruct (f t (plat w)) as [[[]|e] p'] eqn:E; [|done].
  intros Hrun. rewrite (IH _ Hrun). cbn. by rewrite (Hok _ _ _ _ E).
Qed.

(** When both complete, [offDateChange] after [onDateChange] leaves the
    subscriptions as they were, less the five change events. *)
Theorem offDateChange_undoes_onDateChange (w : @CameraService.World W R I Asset) :
  fst (onDateChange (R := R) (I := I) w) = Ok tt ->
  fst (offDateChange (R := R) (I := I) (snd (onDateChange (R := R) (I := I) w))) = Ok tt ->
  subscribed (plat (snd (offDateChange (R := R) (I := I) (snd (onDateChange (R := R) (I := I) w))))) =
    subscribed (plat w) ∖ list_to_set changeTypes.
Proof.
  intros Hon Hoff. unfold offDateChange, onDateChange in *.
  rewrite (for_each_subscribed media_off (fun t X => X ∖ {[t]}) _ _ media_off_ok Hoff),
          (for_each_subscribed media_on (fun t X => {[t]} ∪ X) _ _ media_on_ok Hon).
  cbn. set_solver.
Qed.
End Changes.
End MediaFiles.
