(* ===== verification/AppLifecycle.v ===== *)
(** * The sample app's lifecycle: abilities, pages and [globalThis]

    [MainAbility.js] (lines 33-61) and [AbilityStage.js] (lines 33-38) are
    the lifecycle callbacks of the receiver sample.  [MainAbility.onCreate]
    stores the launch [want] and the ability's [context] in
    [globalThis.abilityWant] and [globalThis.abilityContext];
    [onWindowStageCreate] sets the window's content to [pages/Index]; the
    other callbacks only log.  The pages read the stored context:
    [Index.aboutToAppear] (lines 144-147 of [Index.js]) calls
    [globalThis.abilityContext.requestPermissionsFromUser(PERMISSIONS)],
    and loading the [CameraPage] bundle runs [new MediaUtils()] (lines
    431-434 and 582 of [CameraPage.js]), whose constructor passes
    [globalThis.abilityContext] to [getMediaLibrary].

    The order in which the platform calls them is not code of the
    repository: [lifeStep] states it as the documented order (the stage,
    then the ability, then its window stage, inside which the pages
    appear and the ability moves between foreground and background, then
    the window stage and the ability are destroyed).  [appReachable] runs
    the code's handlers along any such order.  The theorem: in every
    order the platform allows, no handler throws, because every read of
    [globalThis.abilityContext] comes after [onCreate] stored it, and
    [getMediaLibrary] receives the ability's context. *)

From S2P Require Import Prelude.

Module AppLifecycle.

(** Line 33 of [MainAbility.js], line 93 of [Index.js]. *)
Definition TAG : string := "MainAbility".
Definition INDEX_TAG : string := "Index".

(** Lines 86-92 of [Index.js]. *)
Definition PERMISSIONS : list string :=
  ["ohos.permission.CAMERA"; "ohos.permission.MICROPHONE"; "ohos.permission.READ_MEDIA";
   "ohos.permission.WRITE_MEDIA"; "ohos.permission.MEDIA_LOCATION"].

(** The error a handler can throw: reading a member of [undefined]. *)
Inductive AppError := AppTypeError (what : string).

Section App.
Context {Want Ctx : Type}.

(** The state the callbacks touch: the two [globalThis] properties, the
    window's content, the [hilog] lines ([Logger.info(...args)]), the
    permission requests made and the context [getMediaLibrary] got
    ([Some None] when it got [undefined]). *)
Record AppState := mkApp {
  abilityWant : option Want;
  abilityContext : option Ctx;
  uiContent : option string;
  hilog : list (list string);
  permissionRequests : list (Ctx * list string);
  mediaLibraryContext : option (option Ctx)
}.

Definition initialApp : AppState := mkApp None None None [] [] None.

Local Abbreviation Handler := (M AppState AppError unit).

(** [Logger.info(...args)]. *)
Definition log (args : list string) : Handler :=
  modify (fun s => mkApp (abilityWant s) (abilityContext s) (uiContent s) (hilog s ++ [args])
                         (permissionRequests s) (mediaLibraryContext s)).

(** Lines 34-36 of [AbilityStage.js]. *)
Definition stage_onCreate : Handler := log ["MyAbilityStage"; "onCreate"].

(** Lines 35-39: [this.context] is the ability's context [ctx]. *)
Definition onCreate (want : Want) (ctx : Ctx) : Handler :=
  let! _ := log [TAG; "MainAbility onCreate"] in
  modify (fun s => mkApp (Some want) (Some ctx) (uiContent s) (hilog s)
                         (permissionRequests s) (mediaLibraryContext s)).

(** Lines 40-42. *)
Definition onDestroy : Handler := log [TAG; "MainAbility onDestroy"].

(** Lines 43-47: [windowStage.setUIContent(this.context, "pages/Index", null)]. *)
Definition onWindowStageCreate : Handler :=
  let! _ := log [TAG; "MainAbility onWindowStageCreate"] in
  modify (fun s => mkApp (abilityWant s) (abilityContext s) (Some "pages/Index") (hilog s)
                         (permissionRequests s) (mediaLibraryContext s)).

(** Lines 48-51, 52-55 and 56-59. *)
Definition onWindowStageDestroy : Handler := log [TAG; "MainAbility onWindowStageDestroy"].
Definition onForeground : Handler := log [TAG; "MainAbility onForeground"].
Definition onBackground : Handler := log [TAG; "MainAbility onBackground"].

(** Lines 144-147 of [Index.js]: [globalThis.abilityContext] is read
    before the call, so it throws when the property is [undefined].  The
    request resolves with the user's answers, which the code does not
    read; it is recorded. *)
Definition index_aboutToAppear : Handler :=
  let! s := get in
  match abilityContext s with
  | None => throw (AppTypeError "abilityContext")
  | Some ctx =>
      let! _ := modify (fun s => mkApp (abilityWant s) (abilityContext s) (uiContent s) (hilog s)
                                       (permissionRequests s ++ [(ctx, PERMISSIONS)])
                                       (mediaLibraryContext s)) in
      log [INDEX_TAG; "grantPermission,requestPermissionsFromUser"]
  end.

(** Lines 431-434 and 582 of [CameraPage.js], run when the bundle loads:
    [getMediaLibrary(globalThis.abilityContext)]. *)
Definition mediaUtils_construct : Handler :=
  modify (fun s => mkApp (abilityWant s) (abilityContext s) (uiContent s) (hilog s)
                         (permissionRequests s) (Some (abilityContext s))).

(** What the platform does to the app. *)
Inductive LifeEvent :=
| LStageCreate
| LCreate (want : Want) (ctx : Ctx)
| LWindowStageCreate
| LIndexAppear
| LCameraPageLoad
| LForeground
| LBackground
| LWindowStageDestroy
| LDestroy.

(** The code each event runs. *)
Definition handler (ev : LifeEvent) : Handler :=
  match ev with
  | LStageCreate => stage_onCreate
  | LCreate want ctx => onCreate want ctx
  | LWindowStageCreate => onWindowStageCreate
  | LIndexAppear => index_aboutToAppear
  | LCameraPageLoad => mediaUtils_construct
  | LForeground => onForeground
  | LBackground => onBackground
  | LWindowStageDestroy => onWindowStageDestroy
  | LDestroy => onDestroy
  end.

(** The platform's documented order of the callbacks. *)
Inductive Phase := PStart | PStage | PAbility | PWindow | PWindowGone | PGone.

Definition lifeStep (ph : Phase) (ev : LifeEvent) : option Phase :=
  match ph, ev with
  | PStart, LStageCreate => Some PStage
  | PStage, LCreate _ _ => Some PAbility
  | PAbility, LWindowStageCreate => Some PWindow
  | PWindow, (LIndexAppear | LCameraPageLoad | LForeground | LBackground) => Some PWindow
  | PWindow, LWindowStageDestroy => Some PWindowGone
  | PWindowGone, LDestroy => Some PGone
  | _, _ => None
  end.

(** The states the app reaches along an order the platform allows; a
    handler that throws leaves its state as it was when it threw. *)
Inductive appReachable : Phase -> AppState -> Prop :=
| app_init : appReachable PStart initialApp
| app_step ph s ev ph' r s' :
    appReachable ph s -> lifeStep ph ev = Some ph' -> handler ev s = (r, s') ->
    appReachable ph' s'.

(** ** The stored context *)

(** After the ability's [onCreate], the context is stored, and whatever
    [getMediaLibrary] got is that context. *)
Definition contextStored (ph : Phase) (s : AppState) : Prop :=
  (ph <> PStart /\ ph <> PStage -> abilityContext s <> None) /\
  (forall c, mediaLibraryContext s = Some c -> c <> None).

Lemma appReachable_context ph s : appReachable ph s -> contextStored ph s.
Proof.
  induction 1 as [|ph s ev ph' r s' _ [IHc IHm] Hstep Hrun].
  - split; [intros [? ?]; congruence | intros c [=]].
  - destruct ph, ev; cbn in Hstep; try discriminate; injection Hstep as <-;
      cbn in Hrun; unfold log, onCreate, onWindowStageCreate, index_aboutToAppear,
      mediaUtils_construct, bind, modify, get, throw in Hrun; cbn in Hrun;
      repeat (case_match; cbn in Hrun); try (exfalso; apply IHc; split; discriminate);
      injection Hrun as <- <-; (split; cbn;
      [ intros [Hp1 Hp2]; first [congruence | apply IHc; split; discriminate]
      | intros c0 Hc0; first [by apply IHm | injection Hc0 as <-; apply IHc; split; discriminate]]).
Qed.

(** C24 (safety): in every order of the callbacks the platform allows, no
    handler of the app throws: [Index.aboutToAppear] reads
    [globalThis.abilityContext] only after [MainAbility.onCreate] stored
    it, and the [MediaUtils] singleton of the camera page passes that
    context, never [undefined], to [getMediaLibrary]. *)
Theorem lifecycle_no_throw ph s ev ph' :
  appReachable ph s -> lifeStep ph ev = Some ph' ->
  (exists s', handler ev s = (Ok tt, s')) /\
  (forall c, mediaLibraryContext s = Some c -> c <> None).
Proof.
  intros Hr Hstep. destruct (appReachable_context ph s Hr) as [Hc Hm]. split; [|done].
  destruct ph, ev; cbn in Hstep; try discriminate; cbn; eauto.
  unfold index_aboutToAppear, bind, get. cbn.
  destruct (abilityContext s) eqn:E; [by eexists | by destruct Hc].
Qed.
End App.

Module AppLifecycleWitness.

(** The launch, the window, the [Index] page, the camera page. *)
Definition launched : @AppState unit nat :=
  snd (onWindowStageCreate (snd (onCreate tt 7 (snd (stage_onCreate initialApp))))).

Lemma launched_reachable : appReachable PWindow launched.
Proof.
  eapply (app_step PAbility _ LWindowStageCreate); [| reflexivity | apply surjective_pairing].
  eapply (app_step PStage _ (LCreate tt 7)); [| reflexivity | apply surjective_pairing].
  eapply (app_step PStart _ LStageCreate); [apply app_init | reflexivity | apply surjective_pairing].
Qed.

Lemma lifecycle_no_throw_witness :
  appReachable PWindow launched /\ lifeStep (Want := unit) (Ctx := nat) PWindow LIndexAppear = Some PWindow /\
  (exists s', handler LIndexAppear launched = (Ok tt, s')) /\
  (forall c, mediaLibraryContext launched = Some c -> c <> None).
Proof.
  destruct (lifecycle_no_throw PWindow launched LIndexAppear PWindow launched_reachable eq_refl)
    as [H1 H2].
  split_and!; [exact launched_reachable | reflexivity | exact H1 | exact H2].
Defined.
End AppLifecycleWitness.
End AppLifecycle.
