(* ===== verification/CameraAsync.v ===== *)
(** * The camera service with its [await]s: interleavings

    [CameraService] runs each method to completion.  In the code every
    camera call of [initCamera], [takePicture] and [releaseCamera] is
    awaited, and the page starts these methods without awaiting them
    ([CameraPage.js] lines 737, 772 and 782): while a method waits for
    the camera, the user can press the shutter or leave the page.

    This file models the methods as resumable jobs.  A [Trace] is what a
    job does from a world: it finishes with an outcome, or it yields at
    an [await], leaving a world and a continuation that the scheduler
    resumes later from whatever world the other events left.  [await c]
    issues the call [c] at once and delivers its result at the
    resumption.  [initCameraA], [takePictureA] and [releaseCameraA] are
    the methods written with their [await]s.  The scheduler [schedStep]
    either runs an event of the page (its synchronous part, the rest
    becoming a job) or resumes a pending job; a job that rejects adds its
    error to the unhandled rejections, as nothing awaits it.  The arrival
    handler stays atomic ([runEvent EArrival] of [CameraService]).

    The theorems: run without interleaving, each async method is the
    sequential method of [CameraService] ([refinesSeq], proved by a
    simulation along the code), and the sequential model is the schedule
    that resumes each event's job until it ends ([reachable_interleaving]).
    With interleaving, the handles stay set
    in [initCamera]'s order ([interleaving_wf]), by a rely/guarantee
    argument: [grows] is what the other jobs may do (no handle is reset),
    [tsafe] says that each segment of a job keeps [wfSvc] and only grows
    the handles when it resumes in any world so reached, and [sysSafe]
    carries this for the world and every pending job along the
    scheduler.  Hence a shutter press once the session exists reaches
    the camera; a press while [photoOutPut] is unset, such as while
    [initCamera] waits for the camera manager, rejects with a [TypeError]
    that nobody handles. *)

From S2P Require Import Prelude JsString FileSystem ImageEnums ImageRecords ImageApi SampleUtils.
From S2P Require Import CameraService.

Local Open Scope Z_scope.

Module CameraAsync.
Import MediaUtils CameraService.

Section Async.
Context {W R I Asset PM S P C RawFd Seq : Type}.
Context `{!ImageFactoryApi W PM S P R C RawFd Seq} `{!ImageReceiverApi W R I}
        `{!ImageObjApi W I} `{!CameraKit W} `{!MediaKit W Asset}.
Local Abbreviation World := (@CameraService.World W R I Asset).
Local Abbreviation Task := (@CameraService.Task W R I Asset).

(** What a job does from a world: finish, or yield at an [await]. *)
Inductive Trace (A : Type) : Type :=
| Fin (o : Outcome JsError A) (w : World)
| Yield (w : World) (k : World -> Trace A).
Arguments Fin {A}. Arguments Yield {A}.

Definition Async (A : Type) : Type := World -> Trace A.

Definition aret {A} (a : A) : Async A := fun w => Fin (Ok a) w.

(** Synchronous code. *)
Definition lift {A} (c : Task A) : Async A := fun w => let '(o, w') := c w in Fin o w'.

(** [await c]: the call is issued now; the job resumes with its
    outcome. *)
Definition await {A} (c : Task A) : Async A :=
  fun w => let '(o, w') := c w in Yield w' (fun w2 => Fin o w2).

(** [await] of a promise that is already settled: one more turn. *)
Definition ayield : Async unit := fun w => Yield w (fun w2 => Fin (Ok tt) w2).

Fixpoint tbind {A B} (t : Trace A) (k : A -> Async B) : Trace B :=
  match t with
  | Fin (Ok a) w => k a w
  | Fin (Throw e) w => Fin (Throw e) w
  | Yield w r => Yield w (fun w2 => tbind (r w2) k)
  end.

Definition abind {A B} (m : Async A) (k : A -> Async B) : Async B := fun w => tbind (m w) k.

Local Notation "'let@' x ':=' c 'in' k" := (abind c (fun x => k))
  (at level 10, x name, c at level 100, k at level 200).

(** [releaseCamera] (lines 256-270) with its [await]s. *)
Definition releaseCameraA : Async unit :=
  let@ _ := lift (info [tag; "releaseCamera"]) in
  let@ s := lift getSvc in
  let@ session := lift (need (captureSession s) "captureSession") in
  let@ _ := await (platform (CStop session) (stop session)) in
  let@ s := lift getSvc in
  let@ _ := match cameraInput s with
            | Some h => await (platform (CRelease h) (release h)) | None => aret tt end in
  let@ s := lift getSvc in
  let@ _ := match previewOutput s with
            | Some h => await (platform (CRelease h) (release h)) | None => aret tt end in
  let@ s := lift getSvc in
  let@ _ := match photoOutPut s with
            | Some h => await (platform (CRelease h) (release h)) | None => aret tt end in
  let@ s := lift getSvc in
  let@ input := lift (need (cameraInput s) "cameraInput") in
  let@ _ := await (platform (CRelease input) (release input)) in
  let@ s := lift getSvc in
  let@ session := lift (need (captureSession s) "captureSession") in
  await (platform (CRelease session) (release session)).

(** [initCamera(surfaceId)] (lines 203-234) with its [await]s. *)
Definition initCameraA (surfaceId : string) : Async unit :=
  let@ _ := lift (info [tag; "initCamera"]) in
  let@ s := lift getSvc in
  let@ _ := if decide (curMode s = MODE_VIDEO)
            then let@ _ := releaseCameraA in let@ _ := ayield in
                 lift (setSvc (set_curMode MODE_PHOTO))
            else aret tt in
  let@ mgr := await (platform CGetCameraManager getCameraManager) in
  let@ _ := lift (setSvc (set_cameraManager (Some mgr))) in
  let@ _ := lift (info [tag; "getCameraManager"]) in
  let@ cams := await (platform (CGetCameras mgr) (getCameras mgr)) in
  let@ _ := lift (setSvc (set_cameras (Some cams))) in
  let@ _ := lift (info [tag; "get cameras " +:+ Js.string_of_nat (length cams)]) in
  match cams with
  | [] => lift (info [tag; "cannot get cameras"])
  | cam0 :: _ =>
      let@ _ := lift (setSvc (set_cameraId cam0)) in
      let@ input := await (platform (CCreateCameraInput mgr cam0) (createCameraInput mgr cam0)) in
      let@ _ := lift (setSvc (set_cameraInput (Some input))) in
      let@ _ := lift (info [tag; "createCameraInput"]) in
      let@ preview := await (platform (CCreatePreviewOutput surfaceId) (createPreviewOutput surfaceId)) in
      let@ _ := lift (setSvc (set_previewOutput (Some preview))) in
      let@ _ := lift (info [tag; "createPreviewOutput"]) in
      let@ s := lift getSvc in
      let@ r := lift (need (mReceiver s) "mReceiver") in
      let@ mSurfaceId := await (platform (CGetReceivingSurfaceId r) (getReceivingSurfaceId W r)) in
      let@ photo := await (platform (CCreatePhotoOutput mSurfaceId) (createPhotoOutput mSurfaceId)) in
      let@ _ := lift (setSvc (set_photoOutPut (Some photo))) in
      let@ session := await (platform CCreateCaptureSession createCaptureSession) in
      let@ _ := lift (setSvc (set_captureSession (Some session))) in
      let@ _ := lift (info [tag; "createCaptureSession"]) in
      let@ _ := await (platform (CBeginConfig session) (beginConfig session)) in
      let@ _ := lift (info [tag; "beginConfig"]) in
      let@ _ := await (platform (CAddInput session input) (addInput session input)) in
      let@ _ := await (platform (CAddOutput session preview) (addOutput session preview)) in
      let@ _ := await (platform (CAddOutput session photo) (addOutput session photo)) in
      let@ _ := await (platform (CCommitConfig session) (commitConfig session)) in
      let@ _ := await (platform (CStart session) (start session)) in
      lift (info [tag; "captureSession start"])
  end.

(** [takePicture] (lines 238-255) with its [await]. *)
Definition takePictureA : Async unit :=
  let@ _ := lift (info [tag; "takePicture"]) in
  let@ s := lift getSvc in
  let@ _ := if decide (curMode s = MODE_VIDEO) then lift (setSvc (set_curMode MODE_PHOTO))
            else aret tt in
  let@ s := lift getSvc in
  let@ photo := lift (need (photoOutPut s) "photoOutPut") in
  let@ _ := await (platform (CCapture photo) (capture photo photoSettings)) in
  lift (info [tag; "takePicture done"]).

(** The page's handlers (lines 694-784): [aboutToDisappear] awaits
    [releaseCamera]; the arrival handler runs as one step. *)
Definition handlerA (ev : Event) : Async unit :=
  match ev with
  | EAppear => lift setTakePictureCallback
  | ELoad surfaceId => initCameraA surfaceId
  | EClick => let@ _ := lift (info [pageTag; "takePicture begin"]) in takePictureA
  | EDisappear => let@ _ := releaseCameraA in ayield
  | EArrival => lift (detach onImageArrival)
  end.

(** ** Running without interleaving *)

(** The job run to its end, each yield resumed at once. *)
Fixpoint runSeq {A} (t : Trace A) : Outcome JsError A * World :=
  match t with
  | Fin o w => (o, w)
  | Yield w k => runSeq (k w)
  end.

(** [m], run without interleaving, is the sequential [c]. *)
Definition refinesSeq {A} (m : Async A) (c : Task A) : Prop := forall w, runSeq (m w) = c w.

Lemma runSeq_tbind {A B} (t : Trace A) (k : A -> Async B) :
  runSeq (tbind t k) =
    match runSeq t with (Ok a, w) => runSeq (k a w) | (Throw e, w) => (Throw e, w) end.
Proof. induction t as [[a|e] w|w r IH]; cbn; auto. Qed.

Lemma refinesSeq_bind {A B} (m : Async A) (c : Task A) (k : A -> Async B) (d : A -> Task B) :
  refinesSeq m c -> (forall a, refinesSeq (k a) (d a)) -> refinesSeq (abind m k) (bind c d).
Proof.
  intros Hm Hk w. unfold abind, bind. rewrite runSeq_tbind, Hm.
  destruct (c w) as [[a|e] w']; [apply Hk | done].
Qed.

Lemma refinesSeq_lift {A} (c : Task A) : refinesSeq (lift c) c.
Proof. intros w. unfold lift. by destruct (c w). Qed.

Lemma refinesSeq_await {A} (c : Task A) : refinesSeq (await c) c.
Proof. intros w. unfold await. by destruct (c w). Qed.

Lemma refinesSeq_ret {A} (a : A) : refinesSeq (aret a) (ret a).
Proof. by intros w. Qed.

Lemma refinesSeq_ayield : refinesSeq ayield (ret tt).
Proof. by intros w. Qed.

Lemma refinesSeq_yield_then {A} (m : Async A) (c : Task A) :
  refinesSeq m c -> refinesSeq (abind ayield (fun _ => m)) c.
Proof. intros Hm w. apply Hm. Qed.

(** The simulation, along the syntax of the two programs. *)
Ltac seq_sim :=
  repeat first
    [ lazymatch goal with |- refinesSeq (abind ayield _) _ => apply refinesSeq_yield_then end
    | apply refinesSeq_bind; [|intros ?]
    | apply refinesSeq_lift
    | apply refinesSeq_await
    | apply refinesSeq_ret
    | match goal with |- refinesSeq (match ?x with _ => _ end) _ => destruct x end
    | match goal with |- refinesSeq (if ?b then _ else _) _ => destruct b end ].

Lemma releaseCameraA_seq : refinesSeq releaseCameraA releaseCamera.
Proof. unfold releaseCameraA, releaseCamera. seq_sim. Qed.

Lemma initCameraA_seq surfaceId : refinesSeq (initCameraA surfaceId) (initCamera surfaceId).
Proof. unfold initCameraA, initCamera. seq_sim. Qed.

Lemma takePictureA_seq : refinesSeq takePictureA takePicture.
Proof. unfold takePictureA, takePicture. seq_sim. Qed.

(** Run without interleaving, the async [initCamera],
    [takePicture] and [releaseCamera], which yield at each of their
    [await]s, are the sequential methods of [CameraService]: every
    outcome, log line, field and platform call is the same. *)
Theorem async_methods_refine_seq surfaceId :
  refinesSeq (initCameraA surfaceId) (initCamera surfaceId) /\
  refinesSeq takePictureA takePicture /\ refinesSeq releaseCameraA releaseCamera.
Proof. split_and!; [apply initCameraA_seq | apply takePictureA_seq | apply releaseCameraA_seq]. Qed.

(** ** Interleaving *)

(** A pending job: the rest of a method after an [await]. *)
Definition Job := World -> Trace unit.

Record Sys := mkSys { world : World; jobs : list Job }.

(** Where a step of a job leaves the system: nothing awaits the job, so
    its rejection is unhandled ([detach]). *)
Definition settle (t : Trace unit) (js : list Job) : Sys :=
  match t with
  | Fin o w => mkSys (snd (detach (fun w => (o, w)) w)) js
  | Yield w k => mkSys w (js ++ [k])
  end.

Inductive Choice := CEvent (ev : Event) | CResume (i : nat).

(** One step of the app: an event of the page, or the resumption of the
    [i]-th pending job. *)
Definition schedStep (s : Sys) (c : Choice) : option Sys :=
  match c with
  | CEvent ev => Some (settle (handlerA ev (world s)) (jobs s))
  | CResume i =>
      match jobs s !! i with
      | Some k => Some (settle (k (world s)) (delete i (jobs s)))
      | None => None
      end
  end.

Fixpoint runSched (s : Sys) (cs : list Choice) : option Sys :=
  match cs with
  | [] => Some s
  | c :: cs' => match schedStep s c with Some s' => runSched s' cs' | None => None end
  end.

(** The systems the app reaches: the service constructed, then any
    interleaving of events and resumptions. *)
Inductive areachable : Sys -> Prop :=
| areach_construct w0 w : construct w0 = (Ok tt, w) -> areachable (mkSys w [])
| areach_step s c s' : areachable s -> schedStep s c = Some s' -> areachable s'.

Lemma runSched_reachable s cs s' : areachable s -> runSched s cs = Some s' -> areachable s'.
Proof.
  revert s. induction cs as [|c cs IH]; intros s Hs; cbn; [by intros [= <-]|].
  destruct (schedStep s c) as [s1|] eqn:E; [|done]. intros H. apply (IH s1); [|done].
  by apply (areach_step s c).
Qed.

(** ** The sequential model is one schedule of the interleaved one *)

(** A job alone, resumed as soon as it yields, ends where [runSeq] ends. *)
Lemma settle_resume (t : Trace unit) :
  exists n, runSched (settle t []) (repeat (CResume 0) n) =
            Some (settle (Fin (fst (runSeq t)) (snd (runSeq t))) []).
Proof.
  induction t as [o w|w k IH].
  - by exists 0%nat.
  - destruct (IH w) as [n Hn]. by exists (Datatypes.S n).
Qed.

(** Settling an outcome is [detach] of the computation that produced it. *)
Lemma settle_detach (c : Task unit) w :
  settle (Fin (fst (c w)) (snd (c w))) [] = mkSys (snd (detach c w)) [].
Proof. unfold settle, detach, try_catch. by destruct (c w) as [[]]. Qed.

Lemma settle_ok w : settle (Fin (Ok tt) w) [] = mkSys w [].
Proof. done. Qed.

(** Each page event, its jobs run to the end, is [runEvent]. *)
Lemma handlerA_runEvent ev w :
  settle (Fin (fst (runSeq (handlerA ev w))) (snd (runSeq (handlerA ev w)))) [] =
    mkSys (snd (runEvent ev w)) [].
Proof.
  destruct ev as [|surfaceId| | |]; cbn [handlerA runEvent].
  - rewrite (refinesSeq_lift setTakePictureCallback w). reflexivity.
  - rewrite initCameraA_seq. apply settle_detach.
  - rewrite (refinesSeq_bind _ _ _ _ (refinesSeq_lift _) (fun _ => takePictureA_seq) w).
    unfold bind at 1 3. cbn -[takePicture detach]. apply settle_detach.
  - rewrite (refinesSeq_bind _ _ _ _ releaseCameraA_seq (fun _ => refinesSeq_ayield) w).
    unfold bind, detach, try_catch. by destruct (releaseCamera w) as [[[]|] w'].
  - rewrite (refinesSeq_lift _ w). destruct (detach_run onImageArrival w) as (u & _ & Hok).
    destruct (detach onImageArrival w) as [o w'] eqn:E. cbn in Hok |- *. by subst o.
Qed.

(** Every world the sequential model of
    [CameraService] reaches, the interleaved model reaches with no job
    pending: the schedule that runs each page event and then resumes its
    job until it ends.  The sequential model is one schedule of this one,
    so what holds in every interleaving holds there. *)
Theorem reachable_interleaving w : reachable w -> areachable (mkSys w []).
Proof.
  induction 1 as [w0 w H|w ev r w' _ IH H].
  - by apply (areach_construct w0).
  - destruct (settle_resume (handlerA ev w)) as [n Hn].
    rewrite handlerA_runEvent, H in Hn. cbn [snd] in Hn.
    apply (runSched_reachable _ (CEvent ev :: repeat (CResume 0) n) _ IH). exact Hn.
Qed.

(** ** The order of the fields under interleaving *)

(** What the other jobs may do between two steps of a job: no method
    resets a handle, so a field that is set stays set. *)
Definition grows (w w' : World) : Prop :=
  (cameraInput (svc w) <> None -> cameraInput (svc w') <> None) /\
  (previewOutput (svc w) <> None -> previewOutput (svc w') <> None) /\
  (photoOutPut (svc w) <> None -> photoOutPut (svc w') <> None) /\
  (captureSession (svc w) <> None -> captureSession (svc w') <> None).

Lemma grows_refl w : grows w w.
Proof. split_and!; auto. Qed.

Lemma grows_svc w w' : svc w' = svc w -> grows w w'.
Proof. intros E. unfold grows. rewrite E. split_and!; auto. Qed.

Lemma grows_handles w w' : handles (svc w') = handles (svc w) -> grows w w'.
Proof. unfold handles. intros [= E1 E2 E3 E4]. unfold grows. rewrite E1, E2, E3, E4. split_and!; auto. Qed.

Lemma grows_trans w1 w2 w3 : grows w1 w2 -> grows w2 w3 -> grows w1 w3.
Proof. unfold grows. intuition. Qed.

(** A job keeps [wfSvc] and only sets fields, in every segment between
    two [await]s, whatever the other jobs did in between (as long as they
    did the same). *)
Inductive tsafe {A} (w0 : World) : Trace A -> Prop :=
| tsafe_fin o w : wfSvc (svc w) -> grows w0 w -> tsafe w0 (Fin o w)
| tsafe_yield w k : wfSvc (svc w) -> grows w0 w ->
    (forall w', wfSvc (svc w') -> grows w w' -> tsafe w' (k w')) -> tsafe w0 (Yield w k).

Definition asafe {A} (m : Async A) : Prop := forall w, wfSvc (svc w) -> tsafe w (m w).

Lemma tsafe_start {A} w0 w1 (t : Trace A) : grows w0 w1 -> tsafe w1 t -> tsafe w0 t.
Proof.
  intros Hg Ht. destruct Ht as [o w Hw Hg1|w k Hw Hg1 Hk].
  - apply tsafe_fin; eauto using grows_trans.
  - apply tsafe_yield; eauto using grows_trans.
Qed.

Lemma tsafe_bind {A B} w0 (t : Trace A) (k : A -> Async B) :
  tsafe w0 t -> (forall a, asafe (k a)) -> tsafe w0 (tbind t k).
Proof.
  intros Ht Hk. induction Ht as [w0 [a|e] w Hw Hg|w0 w r Hw Hg _ IH]; cbn.
  - by apply (tsafe_start _ w), Hk.
  - by apply tsafe_fin.
  - apply tsafe_yield; auto.
Qed.

Lemma asafe_bind {A B} (m : Async A) (k : A -> Async B) :
  asafe m -> (forall a, asafe (k a)) -> asafe (abind m k).
Proof. intros Hm Hk w Hw. by apply tsafe_bind; [apply Hm|]. Qed.

Lemma asafe_at {A} (m : Async A) w0 w : asafe m -> wfSvc (svc w) -> grows w0 w -> tsafe w0 (m w).
Proof. intros Hm Hw Hg. apply (tsafe_start _ w); auto. Qed.

Create HintDb async discriminated.

Lemma some_not_none {X} (x : X) : Some x <> None.
Proof. discriminate. Qed.

(** Discharges [wfSvc] and [grows] at the end of a segment from the
    invariant where the job resumed and what it knows grew since. *)
Ltac segment_side :=
  repeat match goal with H : grows _ _ |- _ => unfold grows in H; cbn in H; destruct H as (?&?&?&?) end;
  repeat match goal with H : wfSvc _ |- _ => destruct H end;
  lazymatch goal with |- wfSvc _ => split | |- grows _ _ => unfold grows; split_and! end;
  cbn; intros;
  eauto using some_not_none.

(** Runs a job from a world, segment by segment, splitting on the
    outcomes of the platform calls and the fields read. *)
Ltac tsafe_split :=
  match goal with
  | |- context [match ?f (svc ?w) with Some _ => _ | None => _ end] =>
      let E := fresh "E" in destruct (f (svc w)) eqn:E
  | |- context [match ?t ?x with pair _ _ => _ end] =>
      lazymatch type of (t x) with (Outcome _ _ * _)%type =>
      let E := fresh "E" in destruct (t x) as [[?|?] ?] eqn:E end
  | |- context [match decide ?P with left _ => _ | right _ => _ end] => destruct (decide P)
  | |- context [match ?l with [] => _ | _ :: _ => _ end] => is_var l; destruct l
  end.

Ltac tsafe_run :=
  unfold abind, lift, await, aret, ayield, info, emit, modify, getSvc, setSvc, need, platform,
    ret, throw;
  repeat (cbn; first
    [ apply tsafe_fin
    | apply tsafe_yield; [..|intros ?w ?Hwf ?Hg]
    | match goal with |- tsafe _ (tbind (releaseCameraA _) _) =>
        apply tsafe_bind; [apply asafe_at; [eauto with async | cbn; assumption | apply grows_svc; reflexivity]|intros ? ?w ?Hwf] end
    | match goal with |- tsafe _ (tbind (match decide _ with _ => _ end _) _) =>
        apply tsafe_bind; [|intros ? ?w ?Hwf] end
    | tsafe_split ]);
  segment_side.

Lemma releaseCameraA_safe : asafe releaseCameraA.
Proof. intros w Hw. unfold releaseCameraA. tsafe_run. Qed.

Local Arguments releaseCameraA : simpl never.
Local Hint Resolve releaseCameraA_safe : async.

Lemma takePictureA_safe : asafe takePictureA.
Proof. intros w Hw. unfold takePictureA. tsafe_run. Qed.

Lemma initCameraA_safe surfaceId : asafe (initCameraA surfaceId).
Proof. intros w Hw. unfold initCameraA. tsafe_run. Qed.


Lemma handlerA_safe ev : asafe (handlerA ev).
Proof.
  destruct ev as [|surfaceId| | |]; cbn [handlerA].
  - intros w Hw. unfold setTakePictureCallback. tsafe_run.
  - apply initCameraA_safe.
  - apply asafe_bind; [|intros _; apply takePictureA_safe]. intros w Hw. tsafe_run.
  - apply asafe_bind; [apply releaseCameraA_safe | intros _ w Hw; tsafe_run].
  - intros w Hw. unfold lift.
    pose proof (arrival_handles _ w eq_refl) as Hh. cbn [runEvent] in Hh.
    destruct (detach onImageArrival w) as [o w'] eqn:E. cbn in Hh.
    apply tsafe_fin; [by apply (wfSvc_handles (svc w)) | by apply grows_handles].
Qed.

(** A pending job is safe to resume from any world the others may leave
    after it yielded. *)
Definition jobSafe (w : World) (k : Job) : Prop :=
  exists w0, grows w0 w /\ forall w', wfSvc (svc w') -> grows w0 w' -> tsafe w' (k w').

Definition sysSafe (s : Sys) : Prop := wfSvc (svc (world s)) /\ Forall (jobSafe (world s)) (jobs s).

Lemma jobSafe_grows w w' k : grows w w' -> jobSafe w k -> jobSafe w' k.
Proof. intros Hg (w0 & Hg0 & Hk). exists w0. eauto using grows_trans. Qed.

Lemma settle_safe w t js : tsafe w t -> Forall (jobSafe w) js -> sysSafe (settle t js).
Proof.
  intros Ht Hjs. destruct Ht as [o w' Hw Hg|w' k Hw Hg Hk]; unfold settle, sysSafe; cbn [world jobs].
  - destruct (detach_run (fun w => (o, w)) w') as (u & -> & _). split; [done|].
    eapply Forall_impl; [exact Hjs|]. intros j. apply jobSafe_grows, Hg.
  - split; [done|]. apply Forall_app; split.
    + eapply Forall_impl; [exact Hjs|]. intros j. apply jobSafe_grows, Hg.
    + constructor; [|done]. exists w'. split; [apply grows_refl | exact Hk].
Qed.

Lemma schedStep_safe s c s' : sysSafe s -> schedStep s c = Some s' -> sysSafe s'.
Proof.
  intros [Hw Hjs]. destruct c as [ev|i]; cbn.
  - intros [= <-]. by apply (settle_safe (world s)); [apply handlerA_safe|].
  - destruct (jobs s !! i) as [k|] eqn:E; [intros [= <-]|done].
    destruct (Forall_lookup_1 _ _ _ _ Hjs E) as (w0 & Hg & Hk).
    apply (settle_safe (world s)); [by apply Hk | by apply Forall_delete].
Qed.

Lemma areachable_safe s : areachable s -> sysSafe s.
Proof.
  induction 1 as [w0 w H|s c s' _ IH H].
  - pose proof (construct_wf w0) as Hc. rewrite H in Hc. by split.
  - by apply (schedStep_safe s c).
Qed.

(** C25 (invariant): in every interleaving of the page's events with the
    resumptions of the methods waiting at an [await], the handles of the
    service are set in the order [initCamera] assigns them: a capture
    session only with a photo output, a photo output only with a preview
    output, a preview output only with a camera input.  Each job keeps
    the order in each of its segments because no method resets a handle. *)
Theorem interleaving_wf s : areachable s -> wfSvc (svc (world s)).
Proof. intros Hr. apply (areachable_safe s Hr). Qed.

(** C26 (safety): in every interleaving, a press of the shutter once the
    capture session exists runs [takePicture] up to its [await] of
    [photoOutPut.capture()]: no [TypeError] is added to the unhandled
    rejections, and one more job waits for the camera. *)
Theorem click_after_session_no_TypeError s s' :
  areachable s -> captureSession (svc (world s)) <> None ->
  schedStep s (CEvent EClick) = Some s' ->
  unhandled (world s') = unhandled (world s) /\ length (jobs s') = Datatypes.S (length (jobs s)).
Proof.
  intros Hr Hs Hstep. destruct (areachable_safe s Hr) as [[_ _ Hse] _].
  pose proof (Hse Hs) as Hp. injection Hstep as <-.
  unfold handlerA, takePictureA, abind, lift, await, aret, info, emit, modify, getSvc, setSvc,
    need, platform, ret. cbn.
  destruct (decide _); cbn; destruct (photoOutPut (svc (world s))) eqn:E; try congruence;
    cbn; destruct (capture _ _ _) as [[] ?]; cbn; rewrite length_app; cbn; split; auto; lia.
Qed.

(** C27 (error): in every state of the app where [this.photoOutPut] is
    still unset (before [initCamera] ran, or while it waits at one of its
    [await]s before line 223 assigns it), a press of the shutter makes
    [takePicture] reject with a [TypeError] before its first [await]:
    the rejection joins the unhandled ones, no job is started and the
    camera is not called. *)
Theorem click_before_photoOutput_TypeError s s' :
  photoOutPut (svc (world s)) = None -> schedStep s (CEvent EClick) = Some s' ->
  unhandled (world s') = unhandled (world s) ++ [TypeError "photoOutPut"] /\
  jobs s' = jobs s /\ calls (world s') = calls (world s).
Proof.
  intros Hp Hstep. injection Hstep as <-.
  unfold handlerA, takePictureA, abind, lift, aret, info, emit, modify, getSvc, setSvc, need,
    ret, throw. cbn.
  destruct (decide _); cbn; rewrite Hp; cbn; by split_and!.
Qed.
End Async.


Module CameraAsyncExamples.
Import CameraServiceSim CameraServiceExamples.
Local Open Scope nat_scope.

Definition start : Sys (R := nat) (I := nat) (Asset := nat) :=
  mkSys (constructed lenient 2) [].

(** The unhandled rejections, the pending jobs and the capture session
    after a schedule. *)
Definition outcome (cs : list Choice) : option (list JsError * nat * option nat) :=
  option_map (fun s => (unhandled (world s), length (jobs s), captureSession (svc (world s))))
             (runSched start cs).

(** The page appears, its [XComponent] loads and
    [onLoad] starts [initCamera], which waits for the camera manager; the user
    presses the shutter: [takePicture] reads [this.photoOutPut], still
    [undefined], and rejects with a [TypeError] that nothing handles.  The
    camera then starts normally (13 resumptions, one per [await] of
    [initCamera] with one camera). *)
Example click_during_initCamera_unhandled :
  outcome ([CEvent EAppear; CEvent (ELoad "xsurface"); CEvent EClick] ++ repeat (CResume 0) 13) =
    Some ([TypeError "photoOutPut"], 0, Some 5).
Proof. vm_compute. reflexivity. Qed.

Example click_after_initCamera_handled :
  outcome ([CEvent EAppear; CEvent (ELoad "xsurface")] ++ repeat (CResume 0) 13 ++
           [CEvent EClick; CResume 0]) = Some ([], 0, Some 5).
Proof. vm_compute. reflexivity. Qed.

Lemma start_reachable : areachable start.
Proof. apply (areach_construct (world0 lenient 2)). vm_compute. reflexivity. Qed.

(** The camera started: the page appeared and [initCamera] ran all its
    segments. *)
Definition loadSchedule : list Choice := [CEvent EAppear; CEvent (ELoad "xsurface")] ++ repeat (CResume 0) 13.
Definition sessionUp : Sys := Eval vm_compute in default start (runSched start loadSchedule).

Lemma sessionUp_reachable : areachable sessionUp.
Proof.
  apply (runSched_reachable start loadSchedule); [apply start_reachable | vm_compute; reflexivity].
Qed.

Lemma interleaving_wf_witness : areachable sessionUp /\ wfSvc (svc (world sessionUp)).
Proof. split; [exact sessionUp_reachable | apply interleaving_wf, sessionUp_reachable]. Defined.

Lemma click_after_session_no_TypeError_witness :
  areachable sessionUp /\ captureSession (svc (world sessionUp)) <> None /\
  exists s', schedStep sessionUp (CEvent EClick) = Some s' /\
    unhandled (world s') = unhandled (world sessionUp) /\
    length (jobs s') = Datatypes.S (length (jobs sessionUp)).
Proof.
  assert (Hs : captureSession (svc (world sessionUp)) <> None) by discriminate.
  pose (s' := settle (handlerA EClick (world sessionUp)) (jobs sessionUp)).
  assert (Hc : schedStep sessionUp (CEvent EClick) = Some s') by reflexivity.
  destruct (click_after_session_no_TypeError sessionUp s' sessionUp_reachable Hs Hc) as [H1 H2].
  split_and!; [exact sessionUp_reachable | exact Hs | exists s'; split_and!; assumption].
Defined.

Lemma reachable_interleaving_witness :
  let w := snd (runEvent (ELoad "xsurface") (constructed lenient 2)) in
  reachable w /\ areachable (mkSys w []).
Proof.
  assert (H : reachable (snd (runEvent (ELoad "xsurface") (constructed lenient 2)))).
  { eapply reach_event; [|apply surjective_pairing].
    apply (reach_construct (world0 lenient 2)). vm_compute. reflexivity. }
  split; [exact H | exact (reachable_interleaving _ H)].
Defined.

(** The race: the page appeared and [onLoad] started [initCamera], which
    waits for the camera manager. *)
Definition racing : Sys := default start (runSched start [CEvent EAppear; CEvent (ELoad "xsurface")]).

Lemma click_before_photoOutput_TypeError_witness :
  areachable racing /\ length (jobs racing) = 1 /\ photoOutPut (svc (world racing)) = None /\
  exists s', schedStep racing (CEvent EClick) = Some s' /\
    unhandled (world s') = unhandled (world racing) ++ [TypeError "photoOutPut"] /\
    jobs s' = jobs racing /\ calls (world s') = calls (world racing).
Proof.
  assert (Hr : areachable racing).
  { apply (runSched_reachable start [CEvent EAppear; CEvent (ELoad "xsurface")]);
      [apply start_reachable | vm_compute; reflexivity]. }
  assert (Hp : photoOutPut (svc (world racing)) = None) by (vm_compute; reflexivity).
  pose (s' := settle (handlerA EClick (world racing)) (jobs racing)).
  assert (Hc : schedStep racing (CEvent EClick) = Some s') by reflexivity.
  split_and!; [exact Hr | vm_compute; reflexivity | exact Hp |].
  exists s'. split; [exact Hc | exact (click_before_photoOutput_TypeError racing s' Hp Hc)].
Defined.
End CameraAsyncExamples.
End CameraAsync.
